(** * Kanban board storage: a shallow embedding of [core.ts] and [storage.ts]

    The development has three parts.  The first embeds the program: the
    string helpers and the pure functions of [core.ts]
    ([normalizeIndex], [parseFrontMatter], [serializeFrontMatter],
    [firstNonEmptyLine], [slugify], [ensureUniqueColumnId]), the storage
    operations of [storage.ts] ([readIndex], [loadCard], [readState],
    [createCard], [updateCard], [deleteCard], [moveCard], [reorderCards],
    [updateColumn], [reorderColumns], [createColumn], [deleteColumn]) as
    state-passing functions over an in-memory file system,
    [handleMessage] of [extension.ts], which dispatches to them, and
    [escapeHtml] of the webview.  The second gives the vocabulary of the
    statements, the third states and proves the properties.

    Conventions of the embedding.
    - A JavaScript string is a [string]; a character is one code unit below
      256.  [String.prototype.trim] removes the white space and line
      terminators of that range (TAB, LF, VT, FF, CR, SPACE, NBSP).
    - A [Record<string, T>] object (and a [Map]) is an association list holding
      its own properties in the order the program added them; an assignment
      to an existing key keeps the key's position.  Where the program reads
      a key that need not be an own property ([moveCard] on [index.order])
      the names inherited from [Object.prototype] are modelled: such a
      value is not an array and using it as one raises a [TypeError],
      rendered by its name.  An assignment to the key [__proto__] sets the
      prototype and adds no own property; that is not modelled: an index
      with a column of id [__proto__] ([no_proto_column]) and a metadata
      key [__proto__] are outside the embedding.  JavaScript enumerates
      canonical array-index keys before the others; enumeration order is
      observed only by the trailing keys of [serializeFrontMatter] and by
      [JSON.stringify], and every statement below is about lookups.
    - [DEFAULT_COLUMNS] is a module array that [normalizeIndex] returns by
      reference, and [createColumn], [updateColumn] and [deleteColumn]
      change the columns of an index in place.  [normalizeIndex_at] takes
      the content of that array as an argument; [normalizeIndex], and with
      it the storage operations, read it at its declared content.  The
      index an operation writes is the one given here; the change to the
      module's array is not tracked, and an index file the operations have
      written holds columns, so that reading it does not consult the
      defaults.
    - The file system is the in-memory one of the tests: a write always
      succeeds, and reading, listing or deleting fails exactly when the
      file or directory is not there.  The file of a card is the entry
      named by the id followed by [.md]; [joinPath] normalizes a path, so
      this holds for an id without a slash or backslash ([plain_name]).
    - An exception thrown by an operation leaves the file system as it was at
      the point of the throw.
    - The loop of [ensureUniqueColumnId] runs on fuel; [createColumn] takes
      the fuel and has no result when it runs out.
    - [handleMessage] runs over the same file system; what it takes from
      the editor and the clock (the open workspace, the generated id, the
      time, the answers to its two dialogs) is a parameter.
    - [generateId], [activate] and the DOM code of the webview are not
      embedded. *)

From Stdlib Require Import String Ascii List Bool Arith ZArith NArith QArith.
From Stdlib Require Import Lia Permutation DecimalString DecimalN DecimalPos FinFun.
Import ListNotations.
Close Scope Q_scope.
Open Scope string_scope.
Open Scope list_scope.

Set Warnings "-register-all".

(* ===================================================================== *)
(** * Part I - the program                                                 *)
(* ===================================================================== *)

(** ** Strings *)

Definition LF : ascii := ascii_of_nat 10.
Definition CR : ascii := ascii_of_nat 13.
Definition COLON : ascii := ":"%char.

(** White space and line terminators, as [trim] and [/\s/] see them. *)
Definition is_ws (c : ascii) : bool :=
  let n := nat_of_ascii c in
  (Nat.leb 9 n && Nat.leb n 13) || Nat.eqb n 32 || Nat.eqb n 160.

Fixpoint trimStart (s : string) : string :=
  match s with
  | EmptyString => EmptyString
  | String c r => if is_ws c then trimStart r else s
  end.

Fixpoint trimEnd (s : string) : string :=
  match s with
  | EmptyString => EmptyString
  | String c r =>
      match trimEnd r with
      | EmptyString => if is_ws c then EmptyString else String c EmptyString
      | r' => String c r'
      end
  end.

(** [s.trim()] *)
Definition trim (s : string) : string := trimEnd (trimStart s).

(** [s.split(/\r?\n/)]: a line ends at LF, and a CR right before that LF
    belongs to the separator.  The result is never empty. *)
Fixpoint split_lines (s : string) : list string :=
  match s with
  | EmptyString => [EmptyString]
  | String c r =>
      if Ascii.eqb c LF then EmptyString :: split_lines r
      else
        match split_lines r with
        | [] => [String c EmptyString]
        | l :: ls =>
            if Ascii.eqb c CR && (l =? EmptyString)
               && match r with String c' _ => Ascii.eqb c' LF | _ => false end
            then EmptyString :: ls
            else String c l :: ls
        end
  end.

(** [l.join(sep)] *)
Fixpoint join (sep : string) (l : list string) : string :=
  match l with
  | [] => EmptyString
  | [x] => x
  | x :: r => x ++ sep ++ join sep r
  end.

(** [s.indexOf(c)] for a one-character needle; [None] stands for -1. *)
Fixpoint String_indexOf (c : ascii) (s : string) : option nat :=
  match s with
  | EmptyString => None
  | String c' r =>
      if Ascii.eqb c' c then Some 0 else option_map S (String_indexOf c r)
  end.

(** [s.slice(0, n)] and [s.slice(n)] *)
Fixpoint str_take (n : nat) (s : string) : string :=
  match n, s with
  | S n', String c r => String c (str_take n' r)
  | _, _ => EmptyString
  end.

Fixpoint str_drop (n : nat) (s : string) : string :=
  match n, s with
  | S n', String _ r => str_drop n' r
  | _, _ => s
  end.

(** [name.endsWith(suffix)] and the removal of that suffix
    ([name.replace(/\.md$/, "")] for the suffix [".md"]). *)
Definition endsWith (s suffix : string) : bool :=
  Nat.leb (String.length suffix) (String.length s)
  && (str_drop (String.length s - String.length suffix) s =? suffix).

Definition strip_suffix (s suffix : string) : string :=
  if endsWith s suffix
  then str_take (String.length s - String.length suffix) s
  else s.

(** Membership in a list of strings: [Array.prototype.includes], [Set.has]. *)
Definition includes (l : list string) (x : string) : bool :=
  existsb (String.eqb x) l.

(** [l.indexOf(x, from)]; [pos] is the index of the head of [l]. *)
Fixpoint indexOf_aux (l : list string) (x : string) (from pos : nat)
  : option nat :=
  match l with
  | [] => None
  | y :: r =>
      if Nat.leb from pos && (y =? x) then Some pos
      else indexOf_aux r x from (S pos)
  end.

Definition Array_indexOf (l : list string) (x : string) (from : nat)
  : option nat := indexOf_aux l x from 0.

(** [l.slice(a, b)] for [a <= b] *)
Definition slice {A} (a b : nat) (l : list A) : list A :=
  firstn (b - a) (skipn a l).

(** [String(n)] for a non-negative integer counter. *)
Definition String_of_N (n : N) : string :=
  NilZero.string_of_uint (N.to_uint n).

(** [new Set(l)] keeps the first occurrence of every element, in order. *)
Fixpoint Set_of_aux (seen l : list string) : list string :=
  match l with
  | [] => []
  | x :: r =>
      if includes seen x then Set_of_aux seen r
      else x :: Set_of_aux (x :: seen) r
  end.

Definition Set_of (l : list string) : list string := Set_of_aux [] l.

(** ** Objects used as maps *)

Definition Record_ (V : Type) : Type := list (string * V).

Fixpoint obj_get {V} (o : Record_ V) (k : string) : option V :=
  match o with
  | [] => None
  | (k', v) :: r => if k' =? k then Some v else obj_get r k
  end.

(** [o[k] = v] *)
Fixpoint obj_set {V} (o : Record_ V) (k : string) (v : V) : Record_ V :=
  match o with
  | [] => [(k, v)]
  | (k', v') :: r =>
      if k' =? k then (k, v) :: r else (k', v') :: obj_set r k v
  end.

(** [delete o[k]] *)
Fixpoint obj_delete {V} (o : Record_ V) (k : string) : Record_ V :=
  match o with
  | [] => []
  | (k', v') :: r =>
      if k' =? k then obj_delete r k else (k', v') :: obj_delete r k
  end.

Definition Object_keys {V} (o : Record_ V) : list string := map fst o.

(** The property names a plain object inherits from [Object.prototype]. *)
Definition inherited_name (k : string) : bool :=
  includes
    ["constructor"; "__defineGetter__"; "__defineSetter__"; "hasOwnProperty";
     "__lookupGetter__"; "__lookupSetter__"; "isPrototypeOf";
     "propertyIsEnumerable"; "toString"; "valueOf"; "__proto__";
     "toLocaleString"]
    k.

(** [o[k] ?? []] for a plain object of arrays, as far as the result is used
    as an array: the own property, the empty list for a name the object
    does not have, and [None] for an inherited name, whose value (a function
    or the prototype) is not an array. *)
Definition order_value (o : Record_ (list string)) (k : string)
  : option (list string) :=
  match obj_get o k with
  | Some l => Some l
  | None => if inherited_name k then None else Some []
  end.

(** ** Numbers and JSON values *)

(** A JavaScript number: every finite double is a rational. *)
Inductive number : Type :=
| NaN
| NegInfinity
| PosInfinity
| Finite (q : Q).

Definition number_of_nat (n : nat) : number := Finite (inject_Z (Z.of_nat n)).
Definition number_of_Z (z : Z) : number := Finite (inject_Z z).

Definition Math_min (a b : number) : number :=
  match a, b with
  | NaN, _ | _, NaN => NaN
  | NegInfinity, _ | _, NegInfinity => NegInfinity
  | PosInfinity, x | x, PosInfinity => x
  | Finite p, Finite q => if Qle_bool p q then a else b
  end.

Definition Math_max (a b : number) : number :=
  match a, b with
  | NaN, _ | _, NaN => NaN
  | PosInfinity, _ | _, PosInfinity => PosInfinity
  | NegInfinity, x | x, NegInfinity => x
  | Finite p, Finite q => if Qle_bool p q then b else a
  end.

(** The start position [Array.prototype.splice] computes from its first
    argument for an array of length [len]: [ToIntegerOrInfinity] (NaN is 0,
    a fraction is truncated toward zero), a negative position counted from
    the end, and the result kept between 0 and [len]. *)
Definition splice_start (start : number) (len : nat) : nat :=
  match start with
  | NaN | NegInfinity => 0
  | PosInfinity => len
  | Finite q =>
      let i := Z.quot (Qnum q) (Zpos (Qden q)) in
      if (i <? 0)%Z then Z.to_nat (Z.max (Z.of_nat len + i) 0)
      else Z.to_nat (Z.min i (Z.of_nat len))
  end.

(** [l.splice(start, 0, x)]: the list after the insertion. *)
Definition splice_insert (l : list string) (start : number) (x : string)
  : list string :=
  let i := splice_start start (length l) in
  firstn i l ++ x :: skipn i l.

(** What [JSON.parse] returns, and the values of a loosely typed input
    record. *)
Inductive jsval : Type :=
| JUndefined
| JNull
| JBool (b : bool)
| JNum (n : number)
| JStr (s : string)
| JArr (l : list jsval)
| JObj (o : list (string * jsval)).

(** An element of an array, addressed by a property name: the name has to
    be the canonical decimal form of the index. *)
Fixpoint arr_prop (l : list jsval) (pos : N) (k : string) : jsval :=
  match l with
  | [] => JUndefined
  | x :: r => if String_of_N pos =? k then x else arr_prop r (N.succ pos) k
  end.

(** [v[k]] for [v] that is neither null nor undefined, as far as the program
    inspects the result: own properties of objects and elements of arrays;
    everything else the program reads this way is not an array, not a
    string and not a number, and is rendered as [JUndefined]. *)
Definition prop (v : jsval) (k : string) : jsval :=
  match v with
  | JObj o => match obj_get o k with Some x => x | None => JUndefined end
  | JArr l => arr_prop l 0%N k
  | _ => JUndefined
  end.

(** Truthiness, for [column && ...]. *)
Definition truthy (v : jsval) : bool :=
  match v with
  | JUndefined | JNull => false
  | JBool b => b
  | JNum NaN => false
  | JNum (Finite q) => negb (Qeq_bool q 0)
  | JNum _ => true
  | JStr s => negb (s =? "")
  | JArr _ | JObj _ => true
  end.

(** [typeof v === "string" ? v : d] *)
Definition string_or (v : jsval) (d : string) : string :=
  match v with JStr s => s | _ => d end.

(** [typeof v === "string" ? v : null] *)
Definition string_or_null (v : jsval) : option string :=
  match v with JStr s => Some s | _ => None end.

(** [l.filter((id) => typeof id === "string")] *)
Fixpoint filter_strings (l : list jsval) : list string :=
  match l with
  | [] => []
  | JStr s :: r => s :: filter_strings r
  | _ :: r => filter_strings r
  end.

(** [Array.isArray(v) ? v.filter((id) => typeof id === "string") : null] *)
Definition string_array_or_null (v : jsval) : option (list string) :=
  match v with JArr l => Some (filter_strings l) | _ => None end.

(** ** core.ts *)

Record Column : Type := { column_id : string; column_title : string }.

Record IndexData : Type := {
  columns : list Column;
  order : Record_ (list string)
}.

Definition DEFAULT_COLUMNS : list Column :=
  [ {| column_id := "todo"; column_title := "TODO" |};
    {| column_id := "doing"; column_title := "Doing" |};
    {| column_id := "done"; column_title := "Done" |} ].

(** The callback of [raw.columns.map(...)]: a column or [null]. *)
Definition parse_column (column : jsval) : option Column :=
  if truthy column then
    match prop column "id", prop column "title" with
    | JStr i, JStr t => Some {| column_id := i; column_title := t |}
    | _, _ => None
    end
  else None.

(** [.map(...).filter((column) => column !== null)] *)
Fixpoint parse_columns (l : list jsval) : list Column :=
  match l with
  | [] => []
  | c :: r =>
      match parse_column c with
      | Some col => col :: parse_columns r
      | None => parse_columns r
      end
  end.

(** [normalizeIndex(raw)] when the module array [DEFAULT_COLUMNS] holds
    [defaults].  [None] is the [TypeError] of reading a property of [null]
    or [undefined]. *)
Definition normalizeIndex_at (defaults : list Column) (raw : jsval)
  : option IndexData :=
  match raw with
  | JUndefined | JNull => None
  | _ =>
      let columns :=
        match prop raw "columns" with
        | JArr (c :: l) =>
            match parse_columns (c :: l) with
            | [] => defaults
            | parsed => parsed
            end
        | _ => defaults
        end in
      let rawOrder :=
        match prop raw "order" with
        | JUndefined | JNull => JObj []
        | o => o
        end in
      let order :=
        fold_left
          (fun order column =>
             let list :=
               match prop rawOrder (column_id column) with
               | JArr l => filter_strings l
               | _ => []
               end in
             obj_set order (column_id column) list)
          columns [] in
      Some {| columns := columns; order := order |}
  end.

(** [normalizeIndex(raw)] with the array at its declared content. *)
Definition normalizeIndex (raw : jsval) : option IndexData :=
  normalizeIndex_at DEFAULT_COLUMNS raw.

Record FrontMatter : Type := {
  meta : Record_ (option string);
  body : string
}.

(** The body of the loop over [metaLines]. *)
Definition parse_meta_line (meta : Record_ (option string)) (line : string)
  : Record_ (option string) :=
  if trim line =? "" then meta
  else
    match String_indexOf COLON line with
    | None => meta
    | Some separatorIndex =>
        let key := trim (str_take separatorIndex line) in
        let value := trim (str_drop (S separatorIndex) line) in
        if key =? "" then meta
        else
          obj_set meta key
            (if (value =? "") || (value =? "null") then None else Some value)
    end.

Definition parseFrontMatter (content : string) : FrontMatter :=
  let lines := split_lines content in
  if negb (nth 0 lines "" =? "---") then {| meta := []; body := content |}
  else
    match Array_indexOf lines "---" 1 with
    | None => {| meta := []; body := content |}
    | Some endIndex =>
        let metaLines := slice 1 endIndex lines in
        {| meta := fold_left parse_meta_line metaLines [];
           body := join "
" (skipn (S endIndex) lines) |}
    end.

Definition knownKeys : list string :=
  ["id"; "title"; "due"; "createdAt"; "updatedAt"].

(** [`${key}: ${value ?? "null"}`] *)
Definition meta_line (key : string) (value : option string) : string :=
  key ++ ": " ++ match value with Some v => v | None => "null" end.

(** [meta[key]]: a string, or null also for a missing key. *)
Definition meta_value (meta : Record_ (option string)) (key : string)
  : option string :=
  match obj_get meta key with Some v => v | None => None end.

Definition serialize_lines (meta : Record_ (option string)) : list string :=
  flat_map
    (fun key =>
       match obj_get meta key with
       | Some v => [meta_line key v]
       | None => []
       end)
    knownKeys
  ++ map (fun key => meta_line key (meta_value meta key))
       (filter (fun key => negb (includes knownKeys key)) (Object_keys meta)).

Definition serializeFrontMatter (meta : Record_ (option string))
  (body : string) : string :=
  join "
" ("---" :: serialize_lines meta ++ ["---"; body]).

Fixpoint first_truthy (l : list string) : option string :=
  match l with
  | [] => None
  | x :: r => if x =? "" then first_truthy r else Some x
  end.

Definition firstNonEmptyLine (text : string) : option string :=
  first_truthy (map trim (split_lines text)).

(** [s.toLowerCase()]: among the code units below 256 the capital letters
    of ASCII (A-Z) and of Latin-1 (192-222 but the multiplication sign 215)
    move up by 32, the others stay. *)
Definition toLowerCase_char (c : ascii) : ascii :=
  let n := nat_of_ascii c in
  if (Nat.leb 65 n && Nat.leb n 90)
     || (Nat.leb 192 n && Nat.leb n 222 && negb (Nat.eqb n 215))
  then ascii_of_nat (n + 32)
  else c.

Fixpoint toLowerCase (s : string) : string :=
  match s with
  | EmptyString => EmptyString
  | String c r => String (toLowerCase_char c) (toLowerCase r)
  end.

(** The class [[a-z0-9]]. *)
Definition is_lower_alnum (c : ascii) : bool :=
  let n := nat_of_ascii c in
  (Nat.leb 97 n && Nat.leb n 122) || (Nat.leb 48 n && Nat.leb n 57).

Definition HYPHEN : ascii := "-"%char.

(** [s.replace(/[^a-z0-9]+/g, "-")]: every maximal run of characters outside
    the class becomes one hyphen; [in_run] tells that the character before
    belongs to such a run. *)
Fixpoint replace_runs (in_run : bool) (s : string) : string :=
  match s with
  | EmptyString => EmptyString
  | String c r =>
      if is_lower_alnum c then String c (replace_runs false r)
      else if in_run then replace_runs true r
      else String HYPHEN (replace_runs true r)
  end.

(** [s.replace(/^-+|-+$/g, "")]: the hyphens at the start go, then those at
    the end. *)
Fixpoint strip_hyphens_start (s : string) : string :=
  match s with
  | EmptyString => EmptyString
  | String c r => if Ascii.eqb c HYPHEN then strip_hyphens_start r else s
  end.

Fixpoint strip_hyphens_end (s : string) : string :=
  match s with
  | EmptyString => EmptyString
  | String c r =>
      match strip_hyphens_end r with
      | EmptyString =>
          if Ascii.eqb c HYPHEN then EmptyString else String c EmptyString
      | r' => String c r'
      end
  end.

Definition slugify (value : string) : string :=
  let trimmed := trim (toLowerCase value) in
  let normalized :=
    strip_hyphens_end (strip_hyphens_start (replace_runs false trimmed)) in
  if normalized =? "" then "column" else normalized.

(** The loop of [ensureUniqueColumnId]; [fuel] bounds the number of tests of
    the loop condition, [None] when it runs out. *)
Fixpoint ensureUniqueColumnId_loop (fuel : nat) (existing : list string)
  (baseId candidate : string) (counter : N) : option string :=
  match fuel with
  | O => None
  | S fuel' =>
      if includes existing candidate
      then ensureUniqueColumnId_loop fuel' existing baseId
             (baseId ++ "-" ++ String_of_N counter) (N.succ counter)
      else Some candidate
  end.

Definition ensureUniqueColumnId (fuel : nat) (columns : list Column)
  (baseId : string) : option string :=
  ensureUniqueColumnId_loop fuel (map column_id columns) baseId baseId 1%N.


(** ** storage.ts: data *)

Record CardData : Type := {
  card_id : string;
  card_title : string;
  detail : string;
  due : option string;
  createdAt : string;
  updatedAt : string
}.

Record StatePayload : Type := {
  state_columns : list Column;
  state_order : Record_ (list string);
  cards : Record_ CardData
}.

(** [JSON.parse] and [JSON.stringify] on the text of the index file.
    [JSON_parse] returns [None] where [JSON.parse] raises a [SyntaxError]. *)
Class Json : Type := {
  text : Type;
  JSON_parse : text -> option jsval;
  JSON_stringify : IndexData -> text
}.

(** The value [JSON.parse] builds from the text of an index. *)
Definition json_of_column (c : Column) : jsval :=
  JObj [("id", JStr (column_id c)); ("title", JStr (column_title c))].

Definition json_of_index (index : IndexData) : jsval :=
  JObj [("columns", JArr (map json_of_column (columns index)));
        ("order",
         JObj (map (fun kv => (fst kv, JArr (map JStr (snd kv))))
                 (order index)))].

(** ** The file system capability, in memory *)

(** A file: its content decoded as UTF-8, and its two time stamps as
    [new Date(t).toISOString()] renders them ([None] when the date is
    invalid and the conversion raises a [RangeError]). *)
Record FileEntry : Type := {
  data : string;
  ctime : option string;
  mtime : option string
}.

(** An entry of the cards directory: a file, or something whose type is not
    [fileType.File]. *)
Inductive DirEntry : Type :=
| FileNode (f : FileEntry)
| OtherNode.

Definition fileType_File : nat := 1.

Definition entry_type (e : DirEntry) : nat :=
  match e with FileNode _ => fileType_File | OtherNode => 2 end.

(** What an operation ends with: a value, or a thrown error and its
    message. *)
Inductive result (A : Type) : Type :=
| Ok (a : A)
| Throw (message : string).
Arguments Ok {A} a.
Arguments Throw {A} message.

Section Storage.
Context {J : Json}.

(** The board root: whether the storage directories exist, the text of
    [.vscode-kanban/index.json], and the entries of
    [.vscode-kanban/cards] by name, in [readDirectory] order. *)
Record FileSystem : Type := {
  storage_dirs : bool;
  index_file : option text;
  cards_dir : Record_ DirEntry
}.

(** *** Operations: a state with exceptions *)

Definition M (A : Type) : Type := FileSystem -> result A * FileSystem.

Definition ret {A} (a : A) : M A := fun fs => (Ok a, fs).

Definition throw {A} (message : string) : M A := fun fs => (Throw message, fs).

Definition bind {A B} (m : M A) (k : A -> M B) : M B :=
  fun fs =>
    match m fs with
    | (Ok a, fs') => k a fs'
    | (Throw e, fs') => (Throw e, fs')
    end.

(** [try { m } catch { handler }] *)
Definition try_catch {A} (m : M A) (handler : M A) : M A :=
  fun fs =>
    match m fs with
    | (Ok a, fs') => (Ok a, fs')
    | (Throw _, fs') => handler fs'
    end.

Notation "x <- m ;; k" := (bind m (fun x => k))
  (at level 61, m at next level, right associativity).
Notation "m ;; k" := (bind m (fun _ => k))
  (at level 61, right associativity).

(** A loop with an accumulator whose body awaits. *)
Fixpoint foldM {A B} (f : A -> B -> M A) (l : list B) (a : A) : M A :=
  match l with
  | [] => ret a
  | x :: r => a' <- f a x ;; foldM f r a'
  end.

(** *** The capability *)

Definition createDirectory_storage : M unit :=
  fun fs =>
    (Ok tt, {| storage_dirs := true;
               index_file := index_file fs;
               cards_dir := cards_dir fs |}).

Definition readFile_index : M text :=
  fun fs =>
    match index_file fs with
    | Some content => (Ok content, fs)
    | None => (Throw "File not found", fs)
    end.

Definition writeFile_index (content : text) : M unit :=
  fun fs =>
    (Ok tt, {| storage_dirs := true;
               index_file := Some content;
               cards_dir := cards_dir fs |}).

Definition readFile_card (name : string) : M string :=
  fun fs =>
    match obj_get (cards_dir fs) name with
    | Some (FileNode f) => (Ok (data f), fs)
    | _ => (Throw "File not found", fs)
    end.

Definition stat_card (name : string) : M FileEntry :=
  fun fs =>
    match obj_get (cards_dir fs) name with
    | Some (FileNode f) => (Ok f, fs)
    | _ => (Throw "File not found", fs)
    end.

(** [writeFile]: a new file gets the time of the write as both stamps, an
    existing one keeps its creation time. *)
Definition writeFile_card (stamp : option string) (name content : string)
  : M unit :=
  fun fs =>
    let created :=
      match obj_get (cards_dir fs) name with
      | Some (FileNode f) => ctime f
      | _ => stamp
      end in
    (Ok tt,
     {| storage_dirs := true;
        index_file := index_file fs;
        cards_dir :=
          obj_set (cards_dir fs) name
            (FileNode {| data := content; ctime := created;
                         mtime := stamp |}) |}).

Definition readDirectory_cards : M (list (string * nat)) :=
  fun fs =>
    if storage_dirs fs
    then (Ok (map (fun e => (fst e, entry_type (snd e))) (cards_dir fs)), fs)
    else (Throw "Directory not found", fs).

Definition delete_card (name : string) : M unit :=
  fun fs =>
    match obj_get (cards_dir fs) name with
    | Some (FileNode _) =>
        (Ok tt, {| storage_dirs := storage_dirs fs;
                   index_file := index_file fs;
                   cards_dir := obj_delete (cards_dir fs) name |})
    | _ => (Throw "File not found", fs)
    end.

(** *** createStorage *)

Definition ensureStorage : M unit :=
  createDirectory_storage ;; createDirectory_storage.

Definition writeIndex (index : IndexData) : M unit :=
  writeFile_index (JSON_stringify index).

Definition readIndex : M IndexData :=
  ensureStorage ;;
  try_catch
    (content <- readFile_index ;;
     match JSON_parse content with
     | None => throw "SyntaxError"
     | Some parsed =>
         match normalizeIndex parsed with
         | None => throw "TypeError"
         | Some index => ret index
         end
     end)
    (match normalizeIndex (JObj []) with
     | None => throw "TypeError"
     | Some index => writeIndex index ;; ret index
     end).

(** [new Date(t).toISOString()] on a stored time stamp. *)
Definition toISOString (t : option string) : M string :=
  match t with
  | Some s => ret s
  | None => throw "RangeError"
  end.

Definition loadCard (cardId : string) : M (option CardData) :=
  try_catch
    (text <- readFile_card (cardId ++ ".md") ;;
     stat <- stat_card (cardId ++ ".md") ;;
     let parsed := parseFrontMatter text in
     let meta := meta parsed in
     let detail := body parsed in
     let fallback :=
       match firstNonEmptyLine detail with
       | Some line => line
       | None => "Untitled"
       end in
     let title :=
       match meta_value meta "title" with
       | Some t => if trim t =? "" then fallback else t
       | None => fallback
       end in
     createdAt <-
       match meta_value meta "createdAt" with
       | Some c => if c =? "" then toISOString (ctime stat) else ret c
       | None => toISOString (ctime stat)
       end ;;
     updatedAt <-
       match meta_value meta "updatedAt" with
       | Some u => if u =? "" then toISOString (mtime stat) else ret u
       | None => toISOString (mtime stat)
       end ;;
     let due := meta_value meta "due" in
     ret (Some {| card_id := cardId;
                  card_title := title;
                  detail := detail;
                  due := due;
                  createdAt := createdAt;
                  updatedAt := updatedAt |}))
    (ret None).

(** [o[k] ?? []] for a key that [o] has or does not inherit *)
Definition list_at (o : Record_ (list string)) (k : string) : list string :=
  match obj_get o k with Some l => l | None => [] end.

(** The ids of the card files among the entries of the directory. *)
Definition card_file_ids (entries : list (string * nat)) : list string :=
  Set_of
    (map (fun name => strip_suffix name ".md")
       (filter (fun name => endsWith name ".md")
          (map fst
             (filter (fun entry => Nat.eqb (snd entry) fileType_File)
                entries)))).

(** [set.add(x)] *)
Definition Set_add (s : list string) (x : string) : list string :=
  if includes s x then s else s ++ [x].

(** The body of [index.columns.forEach] in [readState]; the accumulator
    is [order], [orderChanged] and [orderedIds]. *)
Definition keep_existing (index : IndexData) (cardFileIds : list string)
  (acc : Record_ (list string) * bool * list string) (column : Column)
  : Record_ (list string) * bool * list string :=
  let source := list_at (order index) (column_id column) in
  let '(order, orderChanged, orderedIds) := acc in
  let list := filter (fun id => includes cardFileIds id) source in
  (obj_set order (column_id column) list,
   orderChanged || existsb (fun id => negb (includes cardFileIds id)) source,
   fold_left Set_add list orderedIds).

(** The body of [cardFileIds.forEach] in [readState]. *)
Definition append_unlisted (fallbackColumnId : string)
  (orderedIds : list string) (acc : Record_ (list string) * bool)
  (id : string) : Record_ (list string) * bool :=
  let '(order, orderChanged) := acc in
  if includes orderedIds id then (order, orderChanged)
  else (obj_set order fallbackColumnId (list_at order fallbackColumnId ++ [id]),
        true).

(** The body of the inner loop over card ids; the accumulator is [cards]
    and [seen]. *)
Definition load_into (acc : Record_ CardData * list string)
  (cardId : string) : M (Record_ CardData * list string) :=
  let '(cards, seen) := acc in
  if includes seen cardId then ret (cards, seen)
  else
    card <- loadCard cardId ;;
    match card with
    | Some c => ret (obj_set cards cardId c, Set_add seen cardId)
    | None => ret (cards, Set_add seen cardId)
    end.

Definition readState : M StatePayload :=
  index <- readIndex ;;
  entries <- try_catch readDirectory_cards (ret []) ;;
  let cardFileIds := card_file_ids entries in
  let '(order, orderChanged, orderedIds) :=
    fold_left (keep_existing index cardFileIds) (columns index)
      ([], false, []) in
  let fallbackColumnId :=
    match columns index with
    | column :: _ => column_id column
    | [] => "todo"
    end in
  let '(order, orderChanged) :=
    fold_left (append_unlisted fallbackColumnId orderedIds) cardFileIds
      (order, orderChanged) in
  (if orderChanged
   then writeIndex {| columns := columns index; order := order |}
   else ret tt) ;;
  acc <- foldM
           (fun acc column =>
              foldM load_into (list_at order (column_id column)) acc)
           (columns index) ([], []) ;;
  ret {| state_columns := columns index;
         state_order := order;
         cards := fst acc |}.

(** [data.k] of a loosely typed input record *)
Definition field (data : Record_ jsval) (k : string) : jsval :=
  match obj_get data k with Some v => v | None => JUndefined end.

(** [typeof v === "string" ? v : null], followed by the test [!v] *)
Definition nonempty_string (v : jsval) : option string :=
  match v with
  | JStr s => if s =? "" then None else Some s
  | _ => None
  end.

(** [typeof v === "number" ? v : null] *)
Definition number_or_null (v : jsval) : option number :=
  match v with JNum n => Some n | _ => None end.

(** [cardId] is the id [generateId()] returns, [now] is
    [new Date().toISOString()], and [stamp] is the time the file system
    gives the written file. *)
Definition createCard (cardId now : string) (stamp : option string)
  (data : Record_ jsval) : M unit :=
  let columnId := string_or (field data "columnId") "todo" in
  let title := string_or (field data "title") "" in
  let detail := string_or (field data "detail") "" in
  let due := string_or_null (field data "due") in
  if trim title =? "" then throw "Title is empty."
  else
    index <- readIndex ;;
    let safeColumnId :=
      match find (fun column => column_id column =? columnId) (columns index)
      with
      | Some column => column_id column
      | None =>
          match columns index with
          | column :: _ => column_id column
          | [] => "todo"
          end
      end in
    let meta :=
      [("id", Some cardId);
       ("title", Some (trim title));
       ("due", match due with
               | Some d => if trim d =? "" then None else Some d
               | None => None
               end);
       ("createdAt", Some now);
       ("updatedAt", Some now)] in
    writeFile_card stamp (cardId ++ ".md") (serializeFrontMatter meta detail) ;;
    writeIndex
      {| columns := columns index;
         order := obj_set (order index) safeColumnId
                    (list_at (order index) safeColumnId ++ [cardId]) |}.

(** [now] is [new Date().toISOString()]; [stamp] is the time the file
    system gives the written file. *)
Definition updateCard (now : string) (stamp : option string)
  (data : Record_ jsval) : M unit :=
  match nonempty_string (field data "cardId") with
  | None => throw "Missing card ID."
  | Some cardId =>
      let title := string_or (field data "title") "" in
      let detail := string_or (field data "detail") "" in
      let due := string_or_null (field data "due") in
      if trim title =? "" then throw "Title is empty."
      else
        parsed <-
          try_catch
            (content <- readFile_card (cardId ++ ".md") ;;
             ret (parseFrontMatter content))
            (throw "Card not found.") ;;
        let meta := meta parsed in
        let meta := obj_set meta "id" (Some cardId) in
        let meta := obj_set meta "title" (Some (trim title)) in
        let meta :=
          obj_set meta "due"
            match due with
            | Some d => if trim d =? "" then None else Some d
            | None => None
            end in
        let meta :=
          obj_set meta "createdAt"
            match meta_value meta "createdAt" with
            | Some c => if c =? "" then Some now else Some c
            | None => Some now
            end in
        let meta := obj_set meta "updatedAt" (Some now) in
        writeFile_card stamp (cardId ++ ".md")
          (serializeFrontMatter meta detail)
  end.

(** [fromList.filter] and [toList.splice] raise a [TypeError] when the
    value read from [index.order] is not an array. *)
Definition moveCard (data : Record_ jsval) : M unit :=
  match nonempty_string (field data "cardId"),
        nonempty_string (field data "fromColumnId"),
        nonempty_string (field data "toColumnId"),
        number_or_null (field data "toIndex") with
  | Some cardId, Some fromColumnId, Some toColumnId, Some toIndex =>
      index <- readIndex ;;
      match order_value (order index) fromColumnId with
      | None => throw "TypeError"
      | Some fromList =>
          let order1 :=
            obj_set (order index) fromColumnId
              (filter (fun id => negb (id =? cardId)) fromList) in
          match order_value order1 toColumnId with
          | None => throw "TypeError"
          | Some toList =>
              let insertIndex :=
                Math_max (number_of_nat 0)
                  (Math_min toIndex (number_of_nat (length toList))) in
              let order2 :=
                obj_set order1 toColumnId
                  (splice_insert toList insertIndex cardId) in
              writeIndex {| columns := columns index; order := order2 |}
          end
      end
  | _, _, _, _ => throw "Missing move information."
  end.

Definition reorderCards (data : Record_ jsval) : M unit :=
  match nonempty_string (field data "columnId"),
        string_array_or_null (field data "orderedIds") with
  | Some columnId, Some orderedIds =>
      index <- readIndex ;;
      writeIndex {| columns := columns index;
                    order := obj_set (order index) columnId orderedIds |}
  | _, _ => throw "Missing reorder information."
  end.

(** [column.title = title] on the column [find] returns, the first one
    with the id. *)
Fixpoint set_title (columns : list Column) (columnId title : string)
  : list Column :=
  match columns with
  | [] => []
  | column :: r =>
      if column_id column =? columnId
      then {| column_id := column_id column; column_title := title |} :: r
      else column :: set_title r columnId title
  end.

Definition updateColumn (data : Record_ jsval) : M unit :=
  let title := string_or (field data "title") "" in
  match nonempty_string (field data "columnId") with
  | None => throw "Missing column information."
  | Some columnId =>
      if trim title =? "" then throw "Missing column information."
      else
        index <- readIndex ;;
        match find (fun item => column_id item =? columnId) (columns index)
        with
        | None => throw "Column not found."
        | Some _ =>
            writeIndex
              {| columns := set_title (columns index) columnId (trim title);
                 order := order index |}
        end
  end.

(** The body of [orderedIds.forEach] in [reorderColumns]; the accumulator
    is [nextColumns] and [columnMap]. *)
Definition take_column (acc : list Column * Record_ Column) (id : string)
  : list Column * Record_ Column :=
  let '(nextColumns, columnMap) := acc in
  match obj_get columnMap id with
  | Some column => (nextColumns ++ [column], obj_delete columnMap id)
  | None => (nextColumns, columnMap)
  end.

(** The columns [reorderColumns] writes. *)
Definition reordered_columns (columns : list Column)
  (orderedIds : list string) : list Column :=
  let columnMap :=
    fold_left (fun m column => obj_set m (column_id column) column)
      columns [] in
  let '(nextColumns, columnMap) :=
    fold_left take_column orderedIds ([], columnMap) in
  nextColumns ++ map snd columnMap.

Definition reorderColumns (data : Record_ jsval) : M unit :=
  match string_array_or_null (field data "orderedIds") with
  | None => throw "Missing column order information."
  | Some orderedIds =>
      index <- readIndex ;;
      writeIndex {| columns := reordered_columns (columns index) orderedIds;
                    order := order index |}
  end.

(** [fuel] is the fuel of the loop of [ensureUniqueColumnId]; the result is
    [None] when the loop does not end within it. *)
Definition createColumn (fuel : nat) (data : Record_ jsval)
  (fs : FileSystem) : option (result unit * FileSystem) :=
  let title := string_or (field data "title") "" in
  if trim title =? "" then Some (Throw "Column name is empty.", fs)
  else
    match readIndex fs with
    | (Throw e, fs') => Some (Throw e, fs')
    | (Ok index, fs') =>
        let baseId := slugify (trim title) in
        match ensureUniqueColumnId fuel (columns index) baseId with
        | None => None
        | Some columnId =>
            Some
              (writeIndex
                 {| columns :=
                      columns index
                      ++ [ {| column_id := columnId;
                              column_title := trim title |} ];
                    order := obj_set (order index) columnId [] |}
                 fs')
        end
    end.

(** [columns.findIndex((column) => column.id === columnId)] *)
Fixpoint findIndex (columns : list Column) (columnId : string) (pos : nat)
  : option nat :=
  match columns with
  | [] => None
  | column :: r =>
      if column_id column =? columnId then Some pos
      else findIndex r columnId (S pos)
  end.

(** The body of the loop of [deleteCardFiles]. *)
Definition deleteCardFile (id : string) : M unit :=
  try_catch (delete_card (id ++ ".md")) (ret tt).

Definition deleteCardFiles (cardIds : list string) : M unit :=
  foldM (fun _ id => deleteCardFile id) cardIds tt.

Definition deleteCard (data : Record_ jsval) : M unit :=
  match nonempty_string (field data "cardId") with
  | None => throw "Missing card ID."
  | Some cardId =>
      index <- readIndex ;;
      let order :=
        fold_left
          (fun order column =>
             obj_set order (column_id column)
               (filter (fun id => negb (id =? cardId))
                  (list_at order (column_id column))))
          (columns index) (order index) in
      writeIndex {| columns := columns index; order := order |} ;;
      deleteCardFiles [cardId]
  end.

Definition deleteColumn (data : Record_ jsval) : M unit :=
  match nonempty_string (field data "columnId") with
  | None => throw "Missing column ID."
  | Some columnId =>
      index <- readIndex ;;
      if Nat.leb (length (columns index)) 1
      then throw "Cannot delete the last column."
      else
        match findIndex (columns index) columnId 0 with
        | None => throw "Column not found."
        | Some removeIndex =>
            let removedCards := list_at (order index) columnId in
            writeIndex
              {| columns := firstn removeIndex (columns index)
                            ++ skipn (S removeIndex) (columns index);
                 order := obj_delete (order index) columnId |} ;;
            deleteCardFiles removedCards
        end
  end.

End Storage.

(** ** extension.ts: handleMessage *)


Section Extension.
Context {J : Json}.



End Extension.

(** ** The webview: escapeHtml *)

Definition AMPERSAND : ascii := "&"%char.
Definition LESS : ascii := "<"%char.
Definition GREATER : ascii := ">"%char.
Definition DQUOTE : ascii := ascii_of_nat 34.
Definition SQUOTE : ascii := "'"%char.

(** [s.replace(/c/g, r)] for a pattern of one character. *)
Fixpoint replace_char (c : ascii) (r s : string) : string :=
  match s with
  | EmptyString => EmptyString
  | String c' rest =>
      if Ascii.eqb c' c then (r ++ replace_char c r rest)%string
      else String c' (replace_char c r rest)
  end.

Definition escapeHtml (value : string) : string :=
  replace_char SQUOTE "&#39;"
    (replace_char DQUOTE "&quot;"
       (replace_char GREATER "&gt;"
          (replace_char LESS "&lt;"
             (replace_char AMPERSAND "&amp;" value)))).
(* ===================================================================== *)
(** * Part II - vocabulary of the statements                               *)
(* ===================================================================== *)

Fixpoint str_forallb (p : ascii -> bool) (s : string) : bool :=
  match s with
  | EmptyString => true
  | String c r => p c && str_forallb p r
  end.

(** The string holds no line feed. *)
Definition no_LF (s : string) : bool :=
  str_forallb (fun c => negb (Ascii.eqb c LF)) s.

(** A key that [parseFrontMatter] reads back as it is: not empty, equal to
    its own trim, without colon and without line feed. *)
Definition wf_key (k : string) : bool :=
  negb (k =? "") && (trim k =? k)
  && str_forallb (fun c => negb (Ascii.eqb c COLON)) k && no_LF k.

(** A value that stays on its own line. *)
Definition wf_value (v : option string) : bool :=
  match v with None => true | Some s => no_LF s end.

(** What the parser makes of a value the serializer wrote. *)
Definition decode_value (v : option string) : option string :=
  let t := trim (match v with Some s => s | None => "null" end) in
  if (t =? "") || (t =? "null") then None else Some t.

(** A value the parser reads back as it is. *)
Definition clean_value (v : option string) : bool :=
  match v with
  | None => true
  | Some s => no_LF s && (trim s =? s) && negb (s =? "") && negb (s =? "null")
  end.

(** The string holds a CR immediately followed by an LF. *)
Fixpoint has_CRLF (s : string) : bool :=
  match s with
  | EmptyString => false
  | String c r =>
      (Ascii.eqb c CR && match r with String c' _ => Ascii.eqb c' LF | _ => false end)
      || has_CRLF r
  end.

(** The string without one trailing CR. *)
Fixpoint strip_cr (s : string) : string :=
  match s with
  | EmptyString => EmptyString
  | String c r =>
      match r with
      | EmptyString => if Ascii.eqb c CR then EmptyString else s
      | _ => String c (strip_cr r)
      end
  end.

(** The last binding of a key in a list of pairs. *)
Fixpoint last_assoc {V} (l : list (string * V)) (k : string) : option V :=
  match l with
  | [] => None
  | (k', v) :: r =>
      match last_assoc r k with
      | Some v' => Some v'
      | None => if k' =? k then Some v else None
      end
  end.

(** The pairs [serializeFrontMatter] writes, in the order of its lines. *)
Definition serialize_entries (meta : Record_ (option string))
  : list (string * option string) :=
  flat_map
    (fun key =>
       match obj_get meta key with
       | Some v => [(key, v)]
       | None => []
       end)
    knownKeys
  ++ map (fun key => (key, meta_value meta key))
       (filter (fun key => negb (includes knownKeys key)) (Object_keys meta)).

(** The text a value is written as. *)
Definition rendered (v : option string) : string :=
  match v with Some s => s | None => "null" end.

(** One step of reading back a written pair. *)
Definition assign_decoded (acc : Record_ (option string))
  (kv : string * option string) : Record_ (option string) :=
  obj_set acc (fst kv) (decode_value (snd kv)).

(** The [k]-th candidate of [ensureUniqueColumnId]: the base id, then
    [base-1], [base-2], ... *)
Definition candidate_at (baseId : string) (k : nat) : string :=
  match k with
  | O => baseId
  | S _ => (baseId ++ "-" ++ String_of_N (N.of_nat k))%string
  end.

(** The value is an element [normalizeIndex] keeps as a column: it has a
    string [id] and a string [title]. *)
Definition column_like (v : jsval) : Prop :=
  exists i t, prop v "id" = JStr i /\ prop v "title" = JStr t.

(** The list [normalizeIndex] stores for a column id: the strings of
    [raw.order[id]] when that is an array, the empty list otherwise. *)
Definition raw_order_list (raw : jsval) (id : string) : list string :=
  match prop raw "order" with
  | JUndefined | JNull => []
  | o => match prop o id with JArr l => filter_strings l | _ => [] end
  end.

(** The columns [normalizeIndex] settles on when [DEFAULT_COLUMNS] holds
    [defaults]. *)
Definition normalized_columns_at (defaults : list Column) (raw : jsval)
  : list Column :=
  match prop raw "columns" with
  | JArr l => match parse_columns l with [] => defaults | p => p end
  | _ => defaults
  end.

Definition normalized_columns (raw : jsval) : list Column :=
  normalized_columns_at DEFAULT_COLUMNS raw.

(** No column has the id [__proto__], whose list an order map would hold as
    its prototype and not as a property. *)
Definition no_proto_column (cols : list Column) : Prop :=
  ~ In "__proto__" (map column_id cols).

(** A key [moveCard] can read from an order map as a list: an own key, or a
    name the map does not inherit. *)
Definition listable (o : Record_ (list string)) (k : string) : bool :=
  match obj_get o k with
  | Some _ => true
  | None => negb (inherited_name k)
  end.

(** A card id that names a file of the cards directory: [joinPath] leaves
    a name without a slash or backslash as it is. *)
Definition plain_name (id : string) : bool :=
  str_forallb (fun c => negb (Ascii.eqb c "/" || Ascii.eqb c "\")%char) id.

(** [JSON.parse] reads back what [JSON.stringify] wrote for an index. *)
Class JsonRoundtrip (J : Json) : Prop :=
  JSON_roundtrip :
    forall index, JSON_parse (JSON_stringify index) = Some (json_of_index index).

(** A codec for closed examples: the text of an index file is the value it
    parses to, [None] for a text [JSON.parse] rejects. *)
Definition example_json : Json :=
  {| text := option jsval;
     JSON_parse := fun t => t;
     JSON_stringify := fun index => Some (json_of_index index) |}.

Section StorageVocabulary.
Context {J : Json}.

(** The index the file holds, when the file is there, parses and
    normalizes. *)
Definition loaded_index (fs : FileSystem) : option IndexData :=
  match index_file fs with
  | Some content =>
      match JSON_parse content with
      | Some parsed => normalizeIndex parsed
      | None => None
      end
  | None => None
  end.

(** [normalizeIndex({})] *)
Definition default_index : IndexData :=
  {| columns := DEFAULT_COLUMNS;
     order := [("todo", []); ("doing", []); ("done", [])] |}.

(** The normalized index of a file system: the one [readIndex] returns. *)
Definition current_index (fs : FileSystem) : IndexData :=
  match loaded_index fs with
  | Some index => index
  | None => default_index
  end.

(** The file system [readIndex] leaves: the directories exist, and a
    missing or unusable index file is replaced by the default index. *)
Definition after_readIndex (fs : FileSystem) : FileSystem :=
  {| storage_dirs := true;
     index_file :=
       match loaded_index fs with
       | Some _ => index_file fs
       | None => Some (JSON_stringify default_index)
       end;
     cards_dir := cards_dir fs |}.

(** The discovered ids: the card files of the directory. *)
Definition discovered_ids (fs : FileSystem) : list string :=
  card_file_ids (map (fun e => (fst e, entry_type (snd e))) (cards_dir fs)).

(** The card [loadCard] finds for an id. *)
Definition loaded_card (fs : FileSystem) (cardId : string)
  : option CardData :=
  match fst (loadCard cardId fs) with
  | Ok card => card
  | Throw _ => None
  end.

(** The file system with another text in the index file. *)
Definition with_index (fs : FileSystem) (content : text) : FileSystem :=
  {| storage_dirs := true;
     index_file := Some content;
     cards_dir := cards_dir fs |}.
End StorageVocabulary.

(** A file system for closed examples; the index file is absent ([None]),
    unparsable ([Some None]) or the text of a JSON value. *)
Definition example_fs (dirs : bool) (index : option (option jsval))
  (cards : Record_ DirEntry) : @FileSystem example_json :=
  @Build_FileSystem example_json dirs index cards.

(** The text of an index with the single column todo. *)
Definition one_column_json (ids : list string) : jsval :=
  JObj [("columns", JArr [JObj [("id", JStr "todo"); ("title", JStr "TODO")]]);
        ("order", JObj [("todo", JArr (map JStr ids))])].

(** The order the specification gives to the columns: for each id of
    [orderedIds], once, the columns with that id; then the columns whose id
    [orderedIds] does not mention, as they were. *)
Definition columns_with_id (columns : list Column) (id : string)
  : list Column :=
  filter (fun column => column_id column =? id) columns.

Definition spec_reordered (columns : list Column) (orderedIds : list string)
  : list Column :=
  flat_map (columns_with_id columns) (Set_of orderedIds)
  ++ filter (fun column => negb (includes orderedIds (column_id column)))
       columns.

(** The entries of a [Map] built from columns with distinct ids. *)
Definition column_entries (columns : list Column) : Record_ Column :=
  map (fun column => (column_id column, column)) columns.

(** The columns the ids of [ids] match, each column once: for every id in
    turn, the columns with that id that are still to be placed. *)
Fixpoint matched (remaining : list Column) (ids : list string)
  : list Column :=
  match ids with
  | [] => []
  | id :: r =>
      columns_with_id remaining id
      ++ matched (filter (fun c => negb (column_id c =? id)) remaining) r
  end.

(** *** The reconciliation of [readState], as the specification words it *)

(** The ids of a column's list that have a card file. *)
Definition kept (index : IndexData) (ids : list string) (k : string)
  : list string :=
  filter (fun id => includes ids id) (list_at (order index) k).

(** Some id of some column's list has no card file. *)
Definition some_dropped (index : IndexData) (ids : list string) : bool :=
  existsb
    (fun c =>
       existsb (fun id => negb (includes ids id))
         (list_at (order index) (column_id c)))
    (columns index).

(** The id is in the kept list of some column. *)
Definition listed (index : IndexData) (ids : list string) (x : string)
  : bool :=
  existsb (fun c => includes (kept index ids (column_id c)) x) (columns index).

(** The discovered ids that no column lists, in directory order. *)
Definition unlisted (index : IndexData) (ids : list string) : list string :=
  filter (fun x => negb (listed index ids x)) ids.

(** The column that receives them. *)
Definition fallback_id (index : IndexData) : string :=
  match columns index with
  | column :: _ => column_id column
  | [] => "todo"
  end.

Definition kept_order (index : IndexData) (ids : list string)
  : Record_ (list string) :=
  fold_left
    (fun o c => obj_set o (column_id c) (kept index ids (column_id c)))
    (columns index) [].

(** The order [readState] returns. *)
Definition reconciled_order (index : IndexData) (ids : list string)
  : Record_ (list string) :=
  match unlisted index ids with
  | [] => kept_order index ids
  | u =>
      obj_set (kept_order index ids) (fallback_id index)
        (list_at (kept_order index ids) (fallback_id index) ++ u)
  end.

(** Something was dropped or appended. *)
Definition drift (index : IndexData) (ids : list string) : bool :=
  some_dropped index ids
  || match unlisted index ids with [] => false | _ => true end.

Section ReconciliationVocabulary.
Context {J : Json}.

(** The effect of [load_into] on its accumulator. *)
Definition note_card (fs : FileSystem)
  (acc : Record_ CardData * list string) (cardId : string)
  : Record_ CardData * list string :=
  if includes (snd acc) cardId then acc
  else
    match loaded_card fs cardId with
    | Some c => (obj_set (fst acc) cardId c, Set_add (snd acc) cardId)
    | None => (fst acc, Set_add (snd acc) cardId)
    end.

(** The cards [readState] loads for an order. *)
Definition collect_cards (fs : FileSystem) (cols : list Column)
  (order : Record_ (list string)) : Record_ CardData :=
  fst (fold_left
         (fun acc c =>
            fold_left (note_card fs) (list_at order (column_id c)) acc)
         cols ([], [])).

(** The file system [readState] leaves. *)
Definition after_readState (fs : FileSystem) : FileSystem :=
  let index := current_index fs in
  let ids := discovered_ids fs in
  if drift index ids
  then with_index (after_readIndex fs)
         (JSON_stringify {| columns := columns index;
                            order := reconciled_order index ids |})
  else after_readIndex fs.
End ReconciliationVocabulary.

(** What [normalizeIndex] makes of an index that was written to the file:
    the columns, and for each column its list. *)
Definition normalized_written (index : IndexData) : IndexData :=
  {| columns := columns index;
     order :=
       fold_left
         (fun o c => obj_set o (column_id c)
                       (list_at (order index) (column_id c)))
         (columns index) [] |}.

(** The index [moveCard] writes when the two column ids can be read as lists,
    and the one [reorderCards] writes. *)
Definition index_after_move (index : IndexData)
  (cardId fromColumnId toColumnId : string) (toIndex : number) : IndexData :=
  let order1 :=
    obj_set (order index) fromColumnId
      (filter (fun id => negb (id =? cardId))
         (list_at (order index) fromColumnId)) in
  let toList := list_at order1 toColumnId in
  {| columns := columns index;
     order :=
       obj_set order1 toColumnId
         (splice_insert toList
            (Math_max (number_of_nat 0)
               (Math_min toIndex (number_of_nat (length toList))))
            cardId) |}.

Definition index_after_reorder (index : IndexData) (columnId : string)
  (orderedIds : list string) : IndexData :=
  {| columns := columns index;
     order := obj_set (order index) columnId orderedIds |}.

(** The characters of an ISO-8601 time stamp as [toISOString] writes it. *)
Definition iso_char (c : ascii) : bool :=
  let n := nat_of_ascii c in
  (Nat.leb 48 n && Nat.leb n 57)
  || Nat.eqb n 45 || Nat.eqb n 58 || Nat.eqb n 46
  || Nat.eqb n 84 || Nat.eqb n 90 || Nat.eqb n 43.

Definition timestamp_text (s : string) : bool :=
  negb (s =? "") && str_forallb iso_char s.

(** The file system after a write of one card file. *)
Definition with_card {J : Json} (fs : FileSystem) (name : string)
  (f : FileEntry) : FileSystem :=
  {| storage_dirs := true;
     index_file := index_file fs;
     cards_dir := obj_set (cards_dir fs) name (FileNode f) |}.

(** The metadata [updateCard] writes. *)
Definition updated_meta (old : Record_ (option string)) (now cardId : string)
  (title : string) (due : option string) : Record_ (option string) :=
  let meta := obj_set old "id" (Some cardId) in
  let meta := obj_set meta "title" (Some (trim title)) in
  let meta :=
    obj_set meta "due"
      match due with
      | Some d => if trim d =? "" then None else Some d
      | None => None
      end in
  let meta :=
    obj_set meta "createdAt"
      match meta_value meta "createdAt" with
      | Some c => if c =? "" then Some now else Some c
      | None => Some now
      end in
  obj_set meta "updatedAt" (Some now).

(** A pair of the metadata is well formed: the key reads back as itself,
    and so does the value. *)
Definition wf_pair (k : string) (v : option string) : Prop :=
  wf_key k = true /\ clean_value v = true.


(** ** Vocabulary of the further properties *)

(** The characters of a slug: [[a-z0-9]] and the hyphen. *)
Definition slug_char (c : ascii) : bool :=
  is_lower_alnum c || Ascii.eqb c HYPHEN.

(** The string starts with a hyphen, ends with one, holds two in a row. *)
Definition head_hyphen (s : string) : bool :=
  match s with String c _ => Ascii.eqb c HYPHEN | EmptyString => false end.

Fixpoint last_hyphen (s : string) : bool :=
  match s with
  | EmptyString => false
  | String c r =>
      match r with
      | EmptyString => Ascii.eqb c HYPHEN
      | _ => last_hyphen r
      end
  end.

Fixpoint double_hyphen (s : string) : bool :=
  match s with
  | EmptyString => false
  | String c r => (Ascii.eqb c HYPHEN && head_hyphen r) || double_hyphen r
  end.

(** The shape of a slug: not empty, slug characters only, no hyphen at
    either end and no two hyphens in a row. *)
Definition slug_shaped (s : string) : bool :=
  negb (s =? "") && str_forallb slug_char s
  && negb (head_hyphen s) && negb (last_hyphen s) && negb (double_hyphen s).

(** The characters that open or close markup or an attribute value. *)
Definition html_special (c : ascii) : bool :=
  Ascii.eqb c LESS || Ascii.eqb c GREATER || Ascii.eqb c DQUOTE
  || Ascii.eqb c SQUOTE.

(** What [escapeHtml] writes for one character. *)
Definition escape_char (c : ascii) : string :=
  if Ascii.eqb c AMPERSAND then "&amp;"
  else if Ascii.eqb c LESS then "&lt;"
  else if Ascii.eqb c GREATER then "&gt;"
  else if Ascii.eqb c DQUOTE then "&quot;"
  else if Ascii.eqb c SQUOTE then "&#39;"
  else String c EmptyString.

(** The keys of an order built column by column: the column ids, each at
    its first occurrence. *)
Definition column_keys (cols : list Column) : list string :=
  fold_left Set_add (map column_id cols) [].

(** What [deleteCardFiles] makes of the directory for one id: the file goes
    when it is there. *)
Definition without_file (dir : Record_ DirEntry) (name : string)
  : Record_ DirEntry :=
  match obj_get dir name with
  | Some (FileNode _) => obj_delete dir name
  | _ => dir
  end.

(** The lists of [deleteCard]: the id goes from the list of every column. *)
Definition order_without (cols : list Column) (o : Record_ (list string))
  (cardId : string) : Record_ (list string) :=
  fold_left
    (fun order column =>
       obj_set order (column_id column)
         (filter (fun id => negb (id =? cardId))
            (list_at order (column_id column))))
    cols o.

(** The card files that no column's list of an order mentions, in directory
    order. *)
Definition unmentioned (cols : list Column) (o : Record_ (list string))
  (ids : list string) : list string :=
  filter
    (fun x =>
       negb (existsb (fun c => includes (list_at o (column_id c)) x) cols))
    ids.

(** A card file for closed examples. *)
Definition example_note (content : string) : DirEntry :=
  FileNode {| data := content;
              ctime := Some "2024-01-01T00:00:00.000Z";
              mtime := Some "2024-01-02T00:00:00.000Z" |}.

(** The text of an index with the columns a and b. *)
Definition two_column_json (a b : list string) : jsval :=
  JObj [("columns",
         JArr [JObj [("id", JStr "a"); ("title", JStr "A")];
               JObj [("id", JStr "b"); ("title", JStr "B")]]);
        ("order", JObj [("a", JArr (map JStr a)); ("b", JArr (map JStr b))])].

(* ===================================================================== *)
(** * Part III - properties                                                *)
(* ===================================================================== *)

(** ** Strings *)

Lemma String_eqb_false_iff (a b : string) : (a =? b) = false <-> a <> b.
Proof.
  split; intros H.
  - intros E. subst. rewrite String.eqb_refl in H. discriminate.
  - destruct (String.eqb_spec a b); [contradiction | reflexivity].
Qed.

Lemma append_nil_r (s : string) : (s ++ "")%string = s.
Proof. induction s; simpl; [reflexivity | now rewrite IHs]. Qed.

Lemma append_assoc (a b c : string) :
  ((a ++ b) ++ c)%string = (a ++ b ++ c)%string.
Proof. induction a; simpl; [reflexivity | now rewrite IHa]. Qed.

Lemma trimStart_length (s : string) :
  String.length (trimStart s) <= String.length s.
Proof.
  induction s as [|c r IH]; simpl; [lia|].
  destruct (is_ws c); simpl; lia.
Qed.

Lemma trimEnd_length (s : string) :
  String.length (trimEnd s) <= String.length s.
Proof.
  induction s as [|c r IH]; simpl; [lia|].
  destruct (trimEnd r); simpl in *; [destruct (is_ws c); simpl; lia | lia].
Qed.

Lemma trimEnd_head (c : ascii) (r : string) :
  is_ws c = false -> exists r', trimEnd (String c r) = String c r'.
Proof.
  intros H. simpl. destruct (trimEnd r).
  - rewrite H. now exists "".
  - now eexists.
Qed.

(** A non-empty string that is its own trim starts with a visible
    character. *)
Lemma trim_fix_head (c : ascii) (r : string) :
  trim (String c r) = String c r -> is_ws c = false.
Proof.
  unfold trim. simpl. destruct (is_ws c) eqn:E; [|reflexivity].
  intros H.
  pose proof (trimEnd_length (trimStart r)) as H1.
  pose proof (trimStart_length r) as H2.
  rewrite H in H1. simpl in H1. lia.
Qed.

Lemma trimEnd_strip_cr (s : string) : trimEnd (strip_cr s) = trimEnd s.
Proof.
  induction s as [|c r IH]; [reflexivity|].
  destruct r as [|c' r'].
  - simpl. destruct (Ascii.eqb_spec c CR) as [->|]; reflexivity.
  - change (strip_cr (String c (String c' r')))
      with (String c (strip_cr (String c' r'))).
    change (trimEnd (String c (strip_cr (String c' r'))))
      with (match trimEnd (strip_cr (String c' r')) with
            | EmptyString => if is_ws c then EmptyString else String c EmptyString
            | r0 => String c r0 end).
    rewrite IH. reflexivity.
Qed.

Lemma trimStart_strip_cr (s : string) :
  trimStart (strip_cr s) = strip_cr (trimStart s).
Proof.
  induction s as [|c r IH]; [reflexivity|].
  destruct r as [|c' r'].
  - simpl. destruct (Ascii.eqb_spec c CR) as [->|Hc]; [reflexivity|].
    simpl. destruct (is_ws c); [reflexivity|].
    simpl. destruct (Ascii.eqb_spec c CR); [contradiction | reflexivity].
  - change (strip_cr (String c (String c' r')))
      with (String c (strip_cr (String c' r'))).
    change (trimStart (String c (strip_cr (String c' r'))))
      with (if is_ws c then trimStart (strip_cr (String c' r'))
            else String c (strip_cr (String c' r'))).
    change (trimStart (String c (String c' r')))
      with (if is_ws c then trimStart (String c' r')
            else String c (String c' r')).
    destruct (is_ws c); [exact IH | reflexivity].
Qed.

Lemma trim_strip_cr (s : string) : trim (strip_cr s) = trim s.
Proof.
  unfold trim. now rewrite trimStart_strip_cr, trimEnd_strip_cr.
Qed.

Lemma strip_cr_app_space (a b : string) :
  strip_cr (a ++ String " " b) = (a ++ String " " (strip_cr b))%string.
Proof.
  induction a as [|c r IH].
  - simpl. destruct b; reflexivity.
  - change (String c r ++ String " " b)%string
      with (String c (r ++ String " " b)).
    destruct (r ++ String " " b)%string eqn:E.
    + destruct r; discriminate.
    + change (strip_cr (String c (String a s)))
        with (String c (strip_cr (String a s))).
      rewrite IH. reflexivity.
Qed.

(** ** Lines *)

Lemma split_lines_nonempty (s : string) : split_lines s <> [].
Proof.
  destruct s as [|c r]; simpl; [discriminate|].
  destruct (Ascii.eqb c LF); [discriminate|].
  destruct (split_lines r); [discriminate|].
  destruct (_ && _); discriminate.
Qed.

Lemma join_cons (sep x : string) (l : list string) :
  l <> [] -> join sep (x :: l) = (x ++ sep ++ join sep l)%string.
Proof. destruct l; [contradiction | reflexivity]. Qed.

Lemma join_String (sep : string) (c : ascii) (x : string) (l : list string) :
  join sep (String c x :: l) = String c (join sep (x :: l)).
Proof. destruct l; reflexivity. Qed.

(** A line without LF, followed by LF and more text, is split off (less
    the CR that may end it). *)
Lemma split_lines_app (s t : string) :
  no_LF s = true ->
  split_lines (s ++ String LF t) = strip_cr s :: split_lines t.
Proof.
  induction s as [|c r IH]; intros H.
  - reflexivity.
  - simpl in H. apply andb_true_iff in H as [Hc Hr].
    apply negb_true_iff in Hc.
    change (split_lines (String c r ++ String LF t))
      with (if Ascii.eqb c LF then EmptyString :: split_lines (r ++ String LF t)
            else match split_lines (r ++ String LF t) with
                 | [] => [String c EmptyString]
                 | l :: ls =>
                     if Ascii.eqb c CR && (l =? EmptyString)
                        && match (r ++ String LF t)%string with
                           | String c' _ => Ascii.eqb c' LF
                           | _ => false
                           end
                     then EmptyString :: ls
                     else String c l :: ls
                 end).
    rewrite Hc, (IH Hr).
    destruct r as [|c' r'].
    + simpl. destruct (Ascii.eqb c CR); reflexivity.
    + simpl in Hr. apply andb_true_iff in Hr as [Hc' _].
      apply negb_true_iff in Hc'.
      change ((String c' r' ++ String LF t)%string)
        with (String c' (r' ++ String LF t)).
      cbv iota. rewrite Hc', !andb_false_r. reflexivity.
Qed.

Lemma split_lines_join (ls : list string) (b : string) :
  forallb no_LF ls = true ->
  split_lines (join (String LF "") (ls ++ [b]))
  = map strip_cr ls ++ split_lines b.
Proof.
  induction ls as [|l ls IH]; intros H.
  - reflexivity.
  - simpl in H. apply andb_true_iff in H as [Hl Hls].
    change ((l :: ls) ++ [b]) with (l :: (ls ++ [b])).
    rewrite join_cons by (destruct ls; discriminate).
    change (String LF "" ++ join (String LF "") (ls ++ [b]))%string
      with (String LF (join (String LF "") (ls ++ [b]))).
    rewrite split_lines_app by assumption.
    rewrite IH by assumption. reflexivity.
Qed.

(** Splitting and joining gives the text back, unless it holds a CR-LF. *)
Lemma join_split_lines (b : string) :
  has_CRLF b = false -> join (String LF "") (split_lines b) = b.
Proof.
  induction b as [|c r IH]; intros H; [reflexivity|].
  simpl in H. apply orb_false_iff in H as [H1 H2].
  specialize (IH H2).
  simpl split_lines.
  destruct (Ascii.eqb_spec c LF) as [->|Hc].
  - rewrite join_cons by apply split_lines_nonempty.
    rewrite IH. reflexivity.
  - destruct (split_lines r) as [|l ls] eqn:E.
    + now apply split_lines_nonempty in E.
    + destruct (Ascii.eqb c CR); simpl in H1.
      * rewrite H1, andb_false_r. cbv iota.
        rewrite join_String, IH. reflexivity.
      * cbn [andb]. rewrite join_String, IH. reflexivity.
Qed.

(** ** Objects *)

Lemma obj_get_set {V} (o : Record_ V) (k k' : string) (v : V) :
  obj_get (obj_set o k v) k' = if k =? k' then Some v else obj_get o k'.
Proof.
  induction o as [|[k0 v0] r IH]; simpl.
  - reflexivity.
  - destruct (String.eqb_spec k0 k) as [->|Hk]; simpl.
    + destruct (k =? k'); reflexivity.
    + rewrite IH. destruct (String.eqb_spec k0 k') as [->|Hk'].
      * rewrite (proj2 (String_eqb_false_iff k k')) by congruence.
        reflexivity.
      * reflexivity.
Qed.

Lemma obj_get_set_same {V} (o : Record_ V) (k : string) (v : V) :
  obj_get (obj_set o k v) k = Some v.
Proof. now rewrite obj_get_set, String.eqb_refl. Qed.

Lemma obj_get_set_other {V} (o : Record_ V) (k k' : string) (v : V) :
  k <> k' -> obj_get (obj_set o k v) k' = obj_get o k'.
Proof.
  intros H. rewrite obj_get_set.
  now rewrite (proj2 (String_eqb_false_iff k k')).
Qed.

Lemma obj_get_In_keys {V} (o : Record_ V) (k : string) :
  In k (Object_keys o) <-> exists v, obj_get o k = Some v.
Proof.
  induction o as [|[k0 v0] r IH]; simpl.
  - split; [contradiction | intros [v H]; discriminate].
  - destruct (String.eqb_spec k0 k) as [->|Hk].
    + split; [now exists v0 | now left].
    + rewrite <- IH. split; [intros [H|H]; [contradiction|assumption] | now right].
Qed.

Lemma includes_In (l : list string) (x : string) :
  includes l x = true <-> In x l.
Proof.
  unfold includes. rewrite existsb_exists. split.
  - intros [y [H1 H2]]. apply String.eqb_eq in H2. now subst.
  - intros H. exists x. split; [assumption | apply String.eqb_refl].
Qed.

Lemma includes_false (l : list string) (x : string) :
  includes l x = false <-> ~ In x l.
Proof.
  rewrite <- includes_In. destruct (includes l x); split; congruence.
Qed.

(** ** One line of front matter *)

Lemma String_indexOf_app (c : ascii) (k x : string) :
  str_forallb (fun a => negb (Ascii.eqb a c)) k = true ->
  String_indexOf c (k ++ String c x) = Some (String.length k).
Proof.
  induction k as [|a r IH]; simpl; intros H.
  - now rewrite Ascii.eqb_refl.
  - apply andb_true_iff in H as [Ha Hr]. apply negb_true_iff in Ha.
    rewrite Ha, (IH Hr). reflexivity.
Qed.

Lemma str_take_app (k x : string) : str_take (String.length k) (k ++ x) = k.
Proof. induction k; simpl; [now destruct x | now rewrite IHk]. Qed.

Lemma str_drop_app (k x : string) (c : ascii) :
  str_drop (S (String.length k)) (k ++ String c x) = x.
Proof. induction k; simpl; [reflexivity | exact IHk]. Qed.

Lemma no_LF_app (a b : string) :
  no_LF (a ++ b) = no_LF a && no_LF b.
Proof.
  unfold no_LF. induction a as [|c r IH]; simpl; [reflexivity|].
  now rewrite IH, andb_assoc.
Qed.

Lemma meta_line_eq (k : string) (v : option string) :
  meta_line k v = (k ++ String COLON (String " " (rendered v)))%string.
Proof. reflexivity. Qed.

Lemma no_LF_meta_line (k : string) (v : option string) :
  wf_key k = true -> wf_value v = true -> no_LF (meta_line k v) = true.
Proof.
  intros Hk Hv. rewrite meta_line_eq, no_LF_app.
  unfold wf_key in Hk. rewrite !andb_true_iff in Hk.
  destruct Hk as [_ Hk]. rewrite Hk. simpl.
  destruct v; [exact Hv | reflexivity].
Qed.

Lemma strip_cr_meta_line (k : string) (v : option string) :
  strip_cr (meta_line k v)
  = (k ++ String COLON (String " " (strip_cr (rendered v))))%string.
Proof.
  rewrite meta_line_eq.
  change (k ++ String COLON (String " " (rendered v)))%string
    with (k ++ (String COLON "" ++ String " " (rendered v)))%string.
  rewrite <- append_assoc, strip_cr_app_space, append_assoc. reflexivity.
Qed.

(** The parser reads a written line back as an assignment of the decoded
    value to the key. *)
Lemma parse_meta_line_written (m : Record_ (option string)) (k : string)
  (v : option string) :
  wf_key k = true ->
  parse_meta_line m (strip_cr (meta_line k v)) = obj_set m k (decode_value v).
Proof.
  intros Hk. rewrite strip_cr_meta_line.
  unfold wf_key in Hk. rewrite !andb_true_iff in Hk.
  destruct Hk as [[[Hne Htrim] Hcolon] _].
  apply negb_true_iff in Hne. apply String.eqb_eq in Htrim.
  destruct k as [|c r]; [discriminate|].
  pose proof (trim_fix_head _ _ Htrim) as Hc.
  unfold parse_meta_line.
  set (w := strip_cr (rendered v)).
  assert (Hline : (trim (String c r ++ String COLON (String " " w)) =? "")
                  = false).
  { unfold trim. simpl trimStart. rewrite Hc.
    destruct (trimEnd_head c (r ++ String COLON (String " " w))%string Hc)
      as [r' E].
    simpl append. rewrite E. reflexivity. }
  rewrite Hline, (String_indexOf_app _ _ _ Hcolon).
  rewrite str_take_app, str_drop_app, Htrim. rewrite Hne.
  assert (Hval : trim (String " " w) = trim (rendered v)).
  { unfold w. unfold trim at 1. simpl trimStart.
    fold (trim (strip_cr (rendered v))). apply trim_strip_cr. }
  rewrite Hval. reflexivity.
Qed.

(** ** The whole block *)

Lemma fold_parse_written (E : list (string * option string))
  (acc : Record_ (option string)) :
  (forall kv, In kv E -> wf_key (fst kv) = true) ->
  fold_left parse_meta_line
    (map strip_cr (map (fun kv => meta_line (fst kv) (snd kv)) E)) acc
  = fold_left assign_decoded E acc.
Proof.
  revert acc. induction E as [|[k v] E IH]; intros acc H; [reflexivity|].
  simpl. rewrite parse_meta_line_written by (apply (H (k, v)); now left).
  apply IH. intros kv Hkv. apply H. now right.
Qed.

Lemma fold_assign_get (E : list (string * option string))
  (acc : Record_ (option string)) (k : string) :
  obj_get (fold_left assign_decoded E acc) k
  = match last_assoc E k with
    | Some v => Some (decode_value v)
    | None => obj_get acc k
    end.
Proof.
  revert acc. induction E as [|[k0 v0] E IH]; intros acc; [reflexivity|].
  simpl. rewrite IH. destruct (last_assoc E k); [reflexivity|].
  unfold assign_decoded. simpl. rewrite obj_get_set.
  destruct (k0 =? k); reflexivity.
Qed.

Lemma last_assoc_app {V} (l1 l2 : list (string * V)) (k : string) :
  last_assoc (l1 ++ l2) k
  = match last_assoc l2 k with
    | Some v => Some v
    | None => last_assoc l1 k
    end.
Proof.
  induction l1 as [|[k0 v0] l1 IH]; simpl.
  - destruct (last_assoc l2 k); reflexivity.
  - rewrite IH. destruct (last_assoc l2 k); reflexivity.
Qed.

Lemma last_assoc_known (m : Record_ (option string)) (K : list string)
  (k : string) :
  last_assoc
    (flat_map (fun key => match obj_get m key with
                          | Some v => [(key, v)]
                          | None => []
                          end) K) k
  = if includes K k then obj_get m k else None.
Proof.
  induction K as [|k0 K IH]; [reflexivity|].
  simpl flat_map. rewrite last_assoc_app, IH.
  unfold includes. simpl existsb. fold (includes K k).
  rewrite (String.eqb_sym k k0).
  destruct (String.eqb_spec k0 k) as [->|Hk].
  - simpl. destruct (includes K k).
    + destruct (obj_get m k); reflexivity.
    + destruct (obj_get m k); simpl; [now rewrite String.eqb_refl | reflexivity].
  - simpl. destruct (includes K k).
    + destruct (obj_get m k); [reflexivity|].
      destruct (obj_get m k0); simpl; [|reflexivity].
      now rewrite (proj2 (String_eqb_false_iff k0 k)).
    + destruct (obj_get m k0); simpl; [|reflexivity].
      now rewrite (proj2 (String_eqb_false_iff k0 k)).
Qed.

Lemma last_assoc_tagged {V} (f : string -> V) (L : list string) (k : string) :
  last_assoc (map (fun key => (key, f key)) L) k
  = if includes L k then Some (f k) else None.
Proof.
  induction L as [|k0 L IH]; [reflexivity|].
  simpl. rewrite IH. unfold includes. simpl existsb. fold (includes L k).
  rewrite (String.eqb_sym k k0).
  destruct (String.eqb_spec k0 k) as [->|Hk]; simpl.
  - destruct (includes L k); reflexivity.
  - destruct (includes L k); reflexivity.
Qed.

Lemma includes_filter (p : string -> bool) (L : list string) (k : string) :
  includes (filter p L) k = includes L k && p k.
Proof.
  induction L as [|k0 L IH]; [reflexivity|].
  simpl. unfold includes in *. simpl.
  destruct (p k0) eqn:E; simpl; rewrite IH.
  - destruct (String.eqb_spec k k0) as [->|]; simpl; [now rewrite E | reflexivity].
  - destruct (String.eqb_spec k k0) as [->|]; simpl; [rewrite E|]; 
      try reflexivity.
    now rewrite andb_false_r.
Qed.

(** What the serializer writes for a key is what the mapping holds. *)
Lemma last_assoc_serialize_entries (m : Record_ (option string)) (k : string) :
  last_assoc (serialize_entries m) k = obj_get m k.
Proof.
  unfold serialize_entries.
  rewrite last_assoc_app, last_assoc_tagged, last_assoc_known, includes_filter.
  destruct (includes knownKeys k) eqn:Ek; simpl.
  - rewrite andb_false_r. reflexivity.
  - rewrite andb_true_r. destruct (includes (Object_keys m) k) eqn:Em.
    + apply includes_In, obj_get_In_keys in Em as [v Hv].
      unfold meta_value. rewrite Hv. reflexivity.
    + destruct (obj_get m k) eqn:Hv; [|reflexivity].
      apply includes_false in Em. exfalso. apply Em.
      apply obj_get_In_keys. now exists o.
Qed.

Lemma serialize_lines_entries (m : Record_ (option string)) :
  serialize_lines m
  = map (fun kv => meta_line (fst kv) (snd kv)) (serialize_entries m).
Proof.
  unfold serialize_lines, serialize_entries.
  rewrite map_app, map_map. f_equal.
  induction knownKeys as [|k0 K IH]; [reflexivity|].
  simpl. rewrite map_app, IH. destruct (obj_get m k0); reflexivity.
Qed.

Lemma serialize_entries_bound (m : Record_ (option string))
  (kv : string * option string) :
  In kv (serialize_entries m) -> obj_get m (fst kv) = Some (snd kv).
Proof.
  unfold serialize_entries. rewrite in_app_iff, in_flat_map, in_map_iff.
  intros [[key [_ H]] | [key [<- H]]].
  - destruct (obj_get m key) eqn:E; [|contradiction].
    destruct H as [<-|[]]. exact E.
  - apply filter_In in H as [H _].
    apply obj_get_In_keys in H as [v Hv].
    simpl. unfold meta_value. now rewrite Hv.
Qed.
Lemma indexOf_aux_skip (L rest : list string) (x : string) (from pos : nat) :
  from <= pos ->
  (forall y, In y L -> y <> x) ->
  indexOf_aux (L ++ x :: rest) x from pos = Some (pos + length L).
Proof.
  revert pos. induction L as [|y L IH]; intros pos Hpos HL; simpl.
  - rewrite (proj2 (Nat.leb_le from pos) Hpos), String.eqb_refl.
    simpl. f_equal. lia.
  - rewrite (proj2 (String_eqb_false_iff y x)) by (apply HL; now left).
    rewrite andb_false_r, IH; [f_equal; lia | lia |].
    intros z Hz. apply HL. now right.
Qed.

Lemma written_line_not_delimiter (k : string) (v : option string) :
  wf_key k = true -> strip_cr (meta_line k v) <> "---".
Proof.
  intros Hk E.
  unfold wf_key in Hk. rewrite !andb_true_iff in Hk.
  destruct Hk as [[_ Hcolon] _].
  pose proof (String_indexOf_app COLON k
                (String " " (strip_cr (rendered v))) Hcolon) as H.
  rewrite <- strip_cr_meta_line, E in H. discriminate.
Qed.

Lemma obj_get_In {V} (o : Record_ V) (k : string) (v : V) :
  obj_get o k = Some v -> In (k, v) o.
Proof.
  induction o as [|[k0 v0] r IH]; simpl; [discriminate|].
  destruct (String.eqb_spec k0 k) as [->|Hk].
  - intros [= ->]. now left.
  - intros H. right. now apply IH.
Qed.

Lemma decode_clean (v : option string) :
  clean_value v = true -> decode_value v = v.
Proof.
  destruct v as [s|]; [|reflexivity].
  unfold clean_value, decode_value. rewrite !andb_true_iff.
  intros [[[_ Ht] Hne] Hnn].
  apply String.eqb_eq in Ht. rewrite Ht.
  apply negb_true_iff in Hne, Hnn. now rewrite Hne, Hnn.
Qed.

(** The shape of what [parseFrontMatter] returns on a text that
    [serializeFrontMatter] wrote. *)
Lemma parse_serialize (m : Record_ (option string)) (b : string) :
  (forall k v, obj_get m k = Some v -> wf_key k = true /\ wf_value v = true) ->
  parseFrontMatter (serializeFrontMatter m b)
  = {| meta := fold_left assign_decoded (serialize_entries m) [];
       body := join (String LF "") (split_lines b) |}.
Proof.
  intros Hm.
  assert (Hwf : forall kv, In kv (serialize_entries m) ->
                           wf_key (fst kv) = true /\ wf_value (snd kv) = true).
  { intros [k v] H. apply serialize_entries_bound in H. now apply Hm. }
  unfold parseFrontMatter, serializeFrontMatter.
  set (E := serialize_entries m) in *.
  set (L := map strip_cr (map (fun kv => meta_line (fst kv) (snd kv)) E)).
  assert (Hsplit :
    split_lines (join (String LF "") ("---" :: serialize_lines m ++ ["---"; b]))
    = "---" :: L ++ "---" :: split_lines b).
  { rewrite serialize_lines_entries. fold E.
    { replace ("---" :: map (fun kv => meta_line (fst kv) (snd kv)) E
                 ++ ["---"; b])
        with (("---" :: map (fun kv => meta_line (fst kv) (snd kv)) E
                 ++ ["---"]) ++ [b])
        by (simpl; now rewrite <- app_assoc).
      rewrite split_lines_join.
      + simpl. rewrite map_app, <- app_assoc. reflexivity.
      + simpl. rewrite forallb_app. simpl. rewrite andb_true_r.
        apply forallb_forall. intros x Hx.
        apply in_map_iff in Hx as [kv [<- Hkv]].
        destruct (Hwf kv Hkv). now apply no_LF_meta_line. } }
  change (String LF "") with "
" in Hsplit. rewrite Hsplit.
  simpl nth. rewrite String.eqb_refl. simpl negb. cbv iota.
  unfold Array_indexOf.
  change (indexOf_aux ("---" :: L ++ "---" :: split_lines b) "---" 1 0)
    with (indexOf_aux (L ++ "---" :: split_lines b) "---" 1 1).
  rewrite indexOf_aux_skip; [| lia |].
  - assert (Hslice : slice 1 (1 + length L) ("---" :: L ++ "---" :: split_lines b)
                     = L).
    { unfold slice. change (skipn 1 ("---" :: L ++ "---" :: split_lines b))
        with (L ++ "---" :: split_lines b).
      replace (1 + length L - 1) with (length L + 0) by lia.
      rewrite firstn_app_2. simpl. apply app_nil_r. }
    assert (Hrest : skipn (S (1 + length L))
                      ("---" :: L ++ "---" :: split_lines b)
                    = split_lines b).
    { change (skipn (S (1 + length L)) ("---" :: L ++ "---" :: split_lines b))
        with (skipn (1 + length L) (L ++ "---" :: split_lines b)).
      replace (1 + length L) with (length L + 1) by lia.
      rewrite skipn_app, skipn_all2 by lia.
      replace (length L + 1 - length L) with 1 by lia. reflexivity. }
    rewrite Hslice, Hrest. unfold L.
    rewrite fold_parse_written; [reflexivity|].
    intros kv Hkv. now destruct (Hwf kv Hkv).
  - intros y Hy. unfold L in Hy.
    apply in_map_iff in Hy as [l [<- Hl]].
    apply in_map_iff in Hl as [kv [<- Hkv]].
    apply written_line_not_delimiter. now destruct (Hwf kv Hkv).
Qed.

(** C1 (amended).  For a mapping whose keys are non-empty, trimmed, free
    of colons and line feeds and other than [__proto__], and whose values
    hold no line feed, [parseFrontMatter (serializeFrontMatter m b)] maps
    every key to the trimmed value of [m] (null when that is empty or the
    text "null") and returns [b] with each CR-LF turned into LF; it
    returns [m] and [b] themselves when moreover the values are null or
    non-empty, trimmed and different from "null", and [b] holds no
    CR-LF. *)
Theorem parse_serialize_roundtrip (m : Record_ (option string)) (b : string) :
  (forall k v, obj_get m k = Some v -> wf_key k = true /\ wf_value v = true) ->
  obj_get m "__proto__" = None ->
  let p := parseFrontMatter (serializeFrontMatter m b) in
  (forall k, obj_get (meta p) k = option_map decode_value (obj_get m k))
  /\ body p = join (String LF "") (split_lines b)
  /\ ((forall k v, obj_get m k = Some v -> clean_value v = true) ->
      forall k, obj_get (meta p) k = obj_get m k)
  /\ (has_CRLF b = false -> body p = b).
Proof.
  intros Hm _ p. unfold p. rewrite (parse_serialize m b Hm). simpl.
  assert (Hget : forall k,
             obj_get (fold_left assign_decoded (serialize_entries m) []) k
             = option_map decode_value (obj_get m k)).
  { intros k. rewrite fold_assign_get, last_assoc_serialize_entries.
    destruct (obj_get m k); reflexivity. }
  repeat split.
  - exact Hget.
  - intros Hclean k. rewrite Hget.
    destruct (obj_get m k) as [v|] eqn:E; [|reflexivity].
    simpl. now rewrite (decode_clean v (Hclean k v E)).
  - apply join_split_lines.
Qed.

Lemma obj_get_forallb {V} (p : string * V -> bool) (o : Record_ V) :
  forallb p o = true -> forall k v, obj_get o k = Some v -> p (k, v) = true.
Proof.
  intros H k v Hv. apply obj_get_In in Hv.
  rewrite forallb_forall in H. now apply H.
Qed.

Lemma parse_serialize_roundtrip_witness :
  let m := [("title", Some "Hello"); ("id", Some "1");
            ("extra", Some "a: b"); ("due", None)] in
  let b := ("first: line" ++ String LF (String LF "second line"))%string in
  let p := parseFrontMatter (serializeFrontMatter m b) in
  (forall k, obj_get (meta p) k = obj_get m k) /\ body p = b.
Proof.
  intros m b p.
  assert (Hm : forall k v, obj_get m k = Some v ->
                           wf_key k = true /\ wf_value v = true).
  { intros k v H.
    apply (obj_get_forallb
             (fun kv => wf_key (fst kv) && wf_value (snd kv))) in H;
      [now apply andb_true_iff in H | reflexivity]. }
  destruct (parse_serialize_roundtrip m b Hm eq_refl)
    as (_ & _ & Hmeta & Hbody).
  split.
  - apply Hmeta. intros k v H.
    now apply (obj_get_forallb (fun kv => clean_value (snd kv))) in H.
  - apply Hbody. reflexivity.
Defined.

(** Without these conditions the round trip is not exact: a value with
    surrounding blanks comes back trimmed, the text "null" comes back as
    null, and a body with a CR-LF comes back with a bare LF. *)
Lemma parse_serialize_not_exact :
  let m := [("title", Some " x"); ("note", Some "null")] in
  let b := ("a" ++ String CR (String LF "b"))%string in
  let p := parseFrontMatter (serializeFrontMatter m b) in
  obj_get (meta p) "title" = Some (Some "x")
  /\ obj_get (meta p) "title" <> obj_get m "title"
  /\ obj_get (meta p) "note" = Some None
  /\ obj_get (meta p) "note" <> obj_get m "note"
  /\ body p = ("a" ++ String LF "b")%string
  /\ body p <> b.
Proof.
  cbv zeta. repeat split; try reflexivity; vm_compute; discriminate.
Qed.
(** ** ensureUniqueColumnId *)

Lemma String_of_N_inj (a b : N) : String_of_N a = String_of_N b -> a = b.
Proof.
  unfold String_of_N. intros H.
  assert (Hn : forall n, N.to_uint n <> Decimal.Nil).
  { intros [|p]; [discriminate | apply DecimalPos.Unsigned.to_uint_nonnil]. }
  pose proof (NilZero.usu (N.to_uint a) (Hn a)) as Ha.
  pose proof (NilZero.usu (N.to_uint b) (Hn b)) as Hb.
  rewrite H, Hb in Ha. injection Ha as Ha.
  symmetry. now apply DecimalN.Unsigned.to_uint_inj.
Qed.

Lemma append_inj_l (a b c : string) : (a ++ b)%string = (a ++ c)%string -> b = c.
Proof. induction a; simpl; intros H; [assumption | injection H; auto]. Qed.

Lemma append_length (a b : string) :
  String.length (a ++ b) = String.length a + String.length b.
Proof. induction a; simpl; [reflexivity | now rewrite IHa]. Qed.

Lemma candidate_at_inj (baseId : string) (j k : nat) :
  candidate_at baseId j = candidate_at baseId k -> j = k.
Proof.
  destruct j as [|j], k as [|k]; unfold candidate_at; intros H.
  - reflexivity.
  - apply (f_equal String.length) in H. rewrite append_length in H.
    simpl in H. lia.
  - apply (f_equal String.length) in H. rewrite append_length in H.
    simpl in H. lia.
  - apply append_inj_l in H. simpl in H. injection H as H.
    apply String_of_N_inj in H. lia.
Qed.

Lemma loop_at (fuel : nat) (existing : list string) (baseId : string)
  (i : nat) :
  ensureUniqueColumnId_loop (S fuel) existing baseId
    (candidate_at baseId i) (N.of_nat (S i))
  = if includes existing (candidate_at baseId i)
    then ensureUniqueColumnId_loop fuel existing baseId
           (candidate_at baseId (S i)) (N.of_nat (S (S i)))
    else Some (candidate_at baseId i).
Proof.
  cbn [ensureUniqueColumnId_loop].
  rewrite (Nat2N.inj_succ (S i)). reflexivity.
Qed.

(** The loop returns the first free candidate once the fuel covers the
    candidates tested before it. *)
Lemma loop_reaches (existing : list string) (baseId : string) (d : nat) :
  forall i fuel,
    (forall j, i <= j < i + d ->
               includes existing (candidate_at baseId j) = true) ->
    includes existing (candidate_at baseId (i + d)) = false ->
    d < fuel ->
    ensureUniqueColumnId_loop fuel existing baseId
      (candidate_at baseId i) (N.of_nat (S i))
    = Some (candidate_at baseId (i + d)).
Proof.
  induction d as [|d IH]; intros i fuel Hocc Hfree Hfuel;
    (destruct fuel as [|fuel]; [lia|]); rewrite loop_at.
  - rewrite Nat.add_0_r in *. now rewrite Hfree.
  - rewrite Hocc by lia.
    replace (i + S d) with (S i + d) in * by lia.
    apply IH; [intros j Hj; apply Hocc; lia | assumption | lia].
Qed.

Lemma candidates_NoDup (baseId : string) (n : nat) :
  NoDup (map (candidate_at baseId) (seq 0 n)).
Proof.
  apply Injective_map_NoDup; [|apply seq_NoDup].
  intros j k. apply candidate_at_inj.
Qed.

Lemma forallb_false_witness {A} (p : A -> bool) (l : list A) :
  forallb p l = false -> exists x, In x l /\ p x = false.
Proof.
  induction l as [|a l IH]; simpl; [discriminate|].
  destruct (p a) eqn:E; simpl.
  - intros H. destruct (IH H) as [x [Hx Hp]]. exists x. auto.
  - intros _. exists a. auto.
Qed.

(** Some candidate among the first [length existing + 1] is free, and
    there is a first one. *)
Lemma first_free_candidate (existing : list string) (baseId : string) :
  exists k, k <= length existing
    /\ includes existing (candidate_at baseId k) = false
    /\ forall j, j < k -> includes existing (candidate_at baseId j) = true.
Proof.
  set (taken := fun k => includes existing (candidate_at baseId k)).
  assert (Hex : exists k, k <= length existing /\ taken k = false).
  { destruct (forallb taken (seq 0 (S (length existing)))) eqn:E.
    - exfalso. rewrite forallb_forall in E.
      assert (Hincl : incl (map (candidate_at baseId)
                              (seq 0 (S (length existing)))) existing).
      { intros x Hx. apply in_map_iff in Hx as [k [<- Hk]].
        apply includes_In. now apply E. }
      apply NoDup_incl_length in Hincl; [|apply candidates_NoDup].
      rewrite length_map, length_seq in Hincl. lia.
    - apply forallb_false_witness in E as [k [Hk Hf]].
      apply in_seq in Hk. exists k. split; [lia | assumption]. }
  destruct Hex as [k0 [Hk0 Hfree0]].
  revert Hk0 Hfree0.
  induction k0 as [k0 IH] using lt_wf_ind. intros Hk0 Hfree0.
  destruct (forallb taken (seq 0 k0)) eqn:E.
  - exists k0. repeat split; [assumption | assumption |].
    intros j Hj. rewrite forallb_forall in E. apply E, in_seq. lia.
  - apply forallb_false_witness in E as [j [Hj Hf]].
    apply in_seq in Hj. apply (IH j); [lia | lia | assumption].
Qed.

(** C8.  [ensureUniqueColumnId] terminates: with any fuel above the number
    of columns the loop returns an id that is no column id, the base id when
    that is free and otherwise the first free one of [base-1], [base-2],
    ...; with the ids todo and todo-1 and the base todo it returns todo-2. *)
Theorem ensureUniqueColumnId_first_free (columns : list Column)
  (baseId : string) :
  (exists k,
      (forall fuel, length columns < fuel ->
         ensureUniqueColumnId fuel columns baseId
         = Some (candidate_at baseId k))
      /\ ~ In (candidate_at baseId k) (map column_id columns)
      /\ (forall j, j < k -> In (candidate_at baseId j) (map column_id columns))
      /\ (~ In baseId (map column_id columns) -> k = 0))
  /\ ensureUniqueColumnId 3
       [ {| column_id := "todo"; column_title := "TODO" |};
         {| column_id := "todo-1"; column_title := "TODO 1" |} ] "todo"
     = Some "todo-2".
Proof.
  split; [|reflexivity].
  destruct (first_free_candidate (map column_id columns) baseId)
    as [k [Hk [Hfree Hocc]]].
  rewrite length_map in Hk.
  exists k. repeat split.
  - intros fuel Hfuel. unfold ensureUniqueColumnId.
    apply (loop_reaches (map column_id columns) baseId k 0 fuel).
    + intros j Hj. apply Hocc. lia.
    + exact Hfree.
    + lia.
  - now apply includes_false.
  - intros j Hj. apply includes_In. now apply Hocc.
  - intros Hbase. destruct k as [|k]; [reflexivity|].
    exfalso. apply Hbase. apply includes_In. apply (Hocc 0). lia.
Qed.
(** ** normalizeIndex *)

Lemma Object_keys_set {V} (o : Record_ V) (k k' : string) (v : V) :
  In k' (Object_keys (obj_set o k v)) <-> k' = k \/ In k' (Object_keys o).
Proof.
  split.
  - intros H. apply obj_get_In_keys in H as [x Hx].
    rewrite obj_get_set in Hx. destruct (String.eqb_spec k k') as [->|Hk].
    + now left.
    + right. apply obj_get_In_keys. now exists x.
  - intros H. apply obj_get_In_keys. rewrite obj_get_set.
    destruct (String.eqb_spec k k') as [->|Hk]; [now eexists|].
    destruct H as [->|H]; [contradiction|].
    now apply obj_get_In_keys.
Qed.

Section FoldSet.
Context {V : Type} (f : Column -> V).

Lemma fold_set_keys (cols : list Column) (o : Record_ V) (k : string) :
  In k (Object_keys
          (fold_left (fun o c => obj_set o (column_id c) (f c)) cols o))
  <-> In k (Object_keys o) \/ In k (map column_id cols).
Proof.
  revert o. induction cols as [|c cols IH]; intros o; simpl.
  - tauto.
  - rewrite IH. rewrite Object_keys_set.
    split; [intros [[->|H]|H] | intros [H|[<-|H]]]; auto.
Qed.

(** When the value depends on the column id only, the fold binds every
    column id to that value. *)
Lemma fold_set_get (g : string -> V) (cols : list Column) (o : Record_ V)
  (k : string) :
  (forall c, f c = g (column_id c)) ->
  obj_get (fold_left (fun o c => obj_set o (column_id c) (f c)) cols o) k
  = if includes (map column_id cols) k then Some (g k) else obj_get o k.
Proof.
  intros Hf. revert o. induction cols as [|c cols IH]; intros o; simpl.
  - reflexivity.
  - rewrite IH. unfold includes. simpl existsb.
    fold (includes (map column_id cols) k).
    destruct (includes (map column_id cols) k); [now rewrite orb_true_r|].
    rewrite orb_false_r. rewrite obj_get_set, Hf.
    rewrite (String.eqb_sym k).
    destruct (String.eqb_spec (column_id c) k) as [->|]; reflexivity.
Qed.
End FoldSet.

Lemma parse_columns_none (l : list jsval) :
  (forall c, In c l -> ~ column_like c) -> parse_columns l = [].
Proof.
  induction l as [|c l IH]; intros H; [reflexivity|].
  simpl. destruct (parse_column c) as [col|] eqn:E.
  - exfalso. apply (H c); [now left|].
    unfold parse_column in E. destruct (truthy c); [|discriminate].
    destruct (prop c "id") as [| | | |i| |] eqn:Ei; try discriminate.
    destruct (prop c "title") as [| | | |t| |] eqn:Et; try discriminate.
    now exists i, t.
  - apply IH. intros c' Hc'. apply H. now right.
Qed.

Lemma normalizeIndex_at_defined (defaults : list Column) (raw : jsval) :
  raw <> JUndefined -> raw <> JNull ->
  exists idx, normalizeIndex_at defaults raw = Some idx
    /\ columns idx = normalized_columns_at defaults raw
    /\ forall k, obj_get (order idx) k
                 = if includes (map column_id (columns idx)) k
                   then Some (raw_order_list raw k) else None.
Proof.
  intros Hu Hn.
  set (cols := normalized_columns_at defaults raw).
  set (rawOrder := match prop raw "order" with
                   | JUndefined | JNull => JObj []
                   | o => o
                   end).
  set (lst := fun id => match prop rawOrder id with
                        | JArr l => filter_strings l
                        | _ => []
                        end).
  assert (Hlst : forall id, lst id = raw_order_list raw id).
  { intros id. unfold lst, rawOrder, raw_order_list.
    destruct (prop raw "order"); reflexivity. }
  assert (Hcols : match prop raw "columns" with
                  | JArr (c :: l) =>
                      match parse_columns (c :: l) with
                      | [] => defaults
                      | parsed => parsed
                      end
                  | _ => defaults
                  end = cols).
  { unfold cols, normalized_columns_at.
    destruct (prop raw "columns") as [| | | | |[|c l]|]; reflexivity. }
  exists {| columns := cols;
            order := fold_left
                       (fun o c => obj_set o (column_id c) (lst (column_id c)))
                       cols [] |}.
  split; [|split].
  - unfold normalizeIndex_at. rewrite Hcols. fold rawOrder.
    destruct raw; try reflexivity; contradiction.
  - reflexivity.
  - intros k. simpl.
    rewrite (fold_set_get (fun c => lst (column_id c)) lst)
      by reflexivity.
    now rewrite Hlst.
Qed.

Lemma normalizeIndex_defined (raw : jsval) :
  raw <> JUndefined -> raw <> JNull ->
  exists idx, normalizeIndex raw = Some idx
    /\ columns idx = normalized_columns raw
    /\ forall k, obj_get (order idx) k
                 = if includes (map column_id (columns idx)) k
                   then Some (raw_order_list raw k) else None.
Proof. apply normalizeIndex_at_defined. Qed.

Lemma obj_get_keys_iff {V} (o : Record_ V) (l : list string) (g : string -> V) :
  (forall k, obj_get o k = if includes l k then Some (g k) else None) ->
  forall k, In k (Object_keys o) <-> In k l.
Proof.
  intros H k. rewrite obj_get_In_keys, H.
  destruct (includes l k) eqn:E.
  - apply includes_In in E. split; [auto | now eexists].
  - apply includes_false in E. split; [intros [v Hv]; discriminate | tauto].
Qed.

(** C5 (amended).  For every value [raw] other than [null] and
    [undefined], and whatever the module array [DEFAULT_COLUMNS] holds at
    the call, [normalizeIndex] returns an index; when none of its columns
    has the id [__proto__], its order map has exactly the ids of its
    columns as keys and binds each of them to the strings of
    [raw.order[id]].  The columns are the content of [DEFAULT_COLUMNS]
    whenever [raw.columns] is no array or holds no element with a string id
    and a string title; the array is declared with the columns todo, doing
    and done. *)
Theorem normalizeIndex_total (defaults : list Column) (raw : jsval) :
  raw <> JUndefined -> raw <> JNull ->
  exists idx,
    normalizeIndex_at defaults raw = Some idx
    /\ (no_proto_column (columns idx) ->
        (forall k, In k (Object_keys (order idx))
                   <-> In k (map column_id (columns idx)))
        /\ (forall c, In c (columns idx) ->
              obj_get (order idx) (column_id c)
              = Some (raw_order_list raw (column_id c))))
    /\ ((forall l, prop raw "columns" = JArr l ->
                   forall c, In c l -> ~ column_like c) ->
        columns idx = defaults)
    /\ DEFAULT_COLUMNS
       = [ {| column_id := "todo"; column_title := "TODO" |};
           {| column_id := "doing"; column_title := "Doing" |};
           {| column_id := "done"; column_title := "Done" |} ].
Proof.
  intros Hu Hn.
  destruct (normalizeIndex_at_defined defaults raw Hu Hn)
    as [idx [Hidx [Hcols Hget]]].
  exists idx. split; [exact Hidx|]. split; [|split].
  - intros _. split.
    + intros k. apply (obj_get_keys_iff _ _ _ Hget k).
    + intros c Hc. rewrite Hget.
      rewrite (proj2 (includes_In _ _)); [reflexivity|].
      now apply in_map.
  - intros Hnone. rewrite Hcols. unfold normalized_columns_at.
    destruct (prop raw "columns") as [| | | | |l|] eqn:E; try reflexivity.
    now rewrite (parse_columns_none l (Hnone l eq_refl)).
  - reflexivity.
Qed.

Lemma normalizeIndex_total_witness :
  let raw :=
    JObj [("columns",
           JArr [JObj [("id", JStr "a"); ("title", JStr "A")];
                 JObj [("id", JNum (number_of_nat 1)); ("title", JStr "B")]]);
          ("order",
           JObj [("a", JArr [JStr "x"; JNum (number_of_nat 2); JStr "y"]);
                 ("zzz", JArr [JStr "w"])])] in
  exists idx,
    normalizeIndex_at DEFAULT_COLUMNS raw = Some idx
    /\ no_proto_column (columns idx)
    /\ (forall k, In k (Object_keys (order idx))
                  <-> In k (map column_id (columns idx))).
Proof.
  intros raw.
  destruct (normalizeIndex_total DEFAULT_COLUMNS raw) as [idx (H1 & H2 & _)];
    [discriminate | discriminate |].
  exists idx.
  assert (Hp : no_proto_column (columns idx)).
  { assert (E : idx = {| columns := [{| column_id := "a"; column_title := "A" |}];
                         order := [("a", ["x"; "y"])] |})
      by (vm_compute in H1; congruence).
    rewrite E. intros [H|[]]. discriminate H. }
  split; [exact H1|]. split; [exact Hp|]. exact (proj1 (H2 Hp)).
Defined.

(** On the value that [JSON.parse("null")] returns the function throws: reading
    [raw.columns] raises a [TypeError]. *)
Lemma normalizeIndex_null_throws :
  normalizeIndex JNull = None /\ normalizeIndex JUndefined = None.
Proof. split; reflexivity. Qed.
(** ** The index store *)

Section IndexStore.
Context {J : Json}.

Lemma normalizeIndex_empty : normalizeIndex (JObj []) = Some default_index.
Proof. reflexivity. Qed.

(** [readIndex] never throws: it returns the normalized index and heals a
    missing or unusable file. *)
Lemma readIndex_eq (fs : FileSystem) :
  readIndex fs = (Ok (current_index fs), after_readIndex fs).
Proof.
  unfold readIndex, bind, try_catch, ensureStorage, bind,
    createDirectory_storage, readFile_index, current_index,
    after_readIndex, loaded_index.
  simpl. destruct (index_file fs) as [content|]; simpl.
  - destruct (JSON_parse content) as [parsed|]; simpl.
    + destruct (normalizeIndex parsed); reflexivity.
    + reflexivity.
  - reflexivity.
Qed.

Lemma after_readIndex_loaded (fs : FileSystem) (index : IndexData) :
  loaded_index fs = Some index ->
  index_file (after_readIndex fs) = index_file fs.
Proof. intros H. unfold after_readIndex. simpl. now rewrite H. Qed.

Lemma default_index_columns :
  length (columns default_index) = 3.
Proof. reflexivity. Qed.

(** An index loaded from the file has at least one column. *)
Lemma normalizeIndex_columns_nonempty (raw : jsval) (index : IndexData) :
  normalizeIndex raw = Some index -> columns index <> [].
Proof.
  intros H.
  assert (Hu : raw <> JUndefined) by (intros ->; discriminate).
  assert (Hn : raw <> JNull) by (intros ->; discriminate).
  destruct (normalizeIndex_defined raw Hu Hn) as [idx [Hidx [Hcols _]]].
  rewrite H in Hidx. injection Hidx as <-.
  rewrite Hcols. unfold normalized_columns, normalized_columns_at.
  destruct (prop raw "columns"); try discriminate.
  destruct (parse_columns l); discriminate.
Qed.

Lemma current_index_columns_nonempty (fs : FileSystem) :
  columns (current_index fs) <> [].
Proof.
  unfold current_index, loaded_index.
  destruct (index_file fs) as [content|]; [|discriminate].
  destruct (JSON_parse content) as [parsed|]; [|discriminate].
  destruct (normalizeIndex parsed) eqn:E; [|discriminate].
  now apply normalizeIndex_columns_nonempty in E.
Qed.
End IndexStore.

(** ** deleteColumn *)

Section DeleteColumn.
Context {J : Json}.

Lemma findIndex_none (cols : list Column) (columnId : string) (pos : nat) :
  (forall c, In c cols -> column_id c <> columnId) ->
  findIndex cols columnId pos = None.
Proof.
  revert pos. induction cols as [|c cols IH]; intros pos H; [reflexivity|].
  simpl. rewrite (proj2 (String_eqb_false_iff _ _)) by (apply H; now left).
  apply IH. intros c' Hc'. apply H. now right.
Qed.


(** C10 (amended).  For an input whose [columnId] is a non-empty string
    that matches no column, [deleteColumn] reports "Cannot delete the last
    column." when the normalized index has one column and "Column not
    found." when it has more; in both cases the file system is the one
    [readIndex] leaves, whose index file is the original one whenever that
    was usable. *)
Theorem deleteColumn_guard_order (data : Record_ jsval) (columnId : string)
  (fs : FileSystem) :
  nonempty_string (field data "columnId") = Some columnId ->
  (forall c, In c (columns (current_index fs)) -> column_id c <> columnId) ->
  (length (columns (current_index fs)) <= 1 ->
     deleteColumn data fs
     = (Throw "Cannot delete the last column.", after_readIndex fs))
  /\ (1 < length (columns (current_index fs)) ->
        deleteColumn data fs = (Throw "Column not found.", after_readIndex fs))
  /\ snd (readIndex fs) = after_readIndex fs
  /\ (forall index, loaded_index fs = Some index ->
        index_file (after_readIndex fs) = index_file fs)
  /\ cards_dir (after_readIndex fs) = cards_dir fs.
Proof.
  intros Hid Hnone. unfold deleteColumn, bind.
  rewrite Hid, readIndex_eq. repeat split.
  - intros Hlen. now rewrite (proj2 (Nat.leb_le _ 1) Hlen).
  - intros Hlen. rewrite (proj2 (Nat.leb_gt _ 1) Hlen).
    now rewrite (findIndex_none _ _ 0 Hnone).
  - intros index. apply after_readIndex_loaded.
Qed.

End DeleteColumn.



Lemma deleteColumn_guard_order_witness :
  let fs := example_fs true (Some (Some (one_column_json ["c1"]))) [] in
  deleteColumn [("columnId", JStr "nope")] fs
  = (Throw "Cannot delete the last column.", fs).
Proof.
  intros fs.
  destruct (deleteColumn_guard_order [("columnId", JStr "nope")] "nope" fs)
    as (H & _).
  - reflexivity.
  - intros c [<-|[]]. discriminate.
  - apply H. simpl. lia.
Defined.

(** The guard order is not seen for a [columnId] that is the empty string: it
    matches no column, one column remains, and the error is the one of the
    missing id. *)
Lemma deleteColumn_empty_id :
  let fs := example_fs true (Some (Some (one_column_json []))) [] in
  map column_id (columns (current_index fs)) = ["todo"]
  /\ deleteColumn [("columnId", JStr "")] fs
     = (Throw "Missing column ID.", fs).
Proof. split; reflexivity. Qed.
(** ** moveCard *)





Lemma list_at_set (o : Record_ (list string)) (k k' : string)
  (l : list string) :
  list_at (obj_set o k l) k' = if k =? k' then l else list_at o k'.
Proof.
  unfold list_at. rewrite obj_get_set. destruct (k =? k'); reflexivity.
Qed.


Section MoveCard.
Context {J : Json}.

Lemma order_value_listable (o : Record_ (list string)) (k : string) :
  listable o k = true -> order_value o k = Some (list_at o k).
Proof.
  unfold listable, order_value, list_at.
  destruct (obj_get o k); [reflexivity|].
  destruct (inherited_name k); [discriminate | reflexivity].
Qed.

Lemma order_value_unlistable (o : Record_ (list string)) (k : string) :
  listable o k = false -> order_value o k = None.
Proof.
  unfold listable, order_value.
  destruct (obj_get o k); [discriminate|].
  destruct (inherited_name k); [reflexivity | discriminate].
Qed.

Lemma listable_set (o : Record_ (list string)) (k k' : string)
  (l : list string) :
  listable (obj_set o k l) k' = (k =? k') || listable o k'.
Proof.
  unfold listable. rewrite obj_get_set.
  destruct (k =? k'); reflexivity.
Qed.


(** When both column ids can be read as lists, [moveCard] writes the index
    with the card moved. *)
Lemma moveCard_eq (data : Record_ jsval)
  (cardId fromColumnId toColumnId : string) (toIndex : number)
  (fs : FileSystem) :
  nonempty_string (field data "cardId") = Some cardId ->
  nonempty_string (field data "fromColumnId") = Some fromColumnId ->
  nonempty_string (field data "toColumnId") = Some toColumnId ->
  number_or_null (field data "toIndex") = Some toIndex ->
  listable (order (current_index fs)) fromColumnId = true ->
  listable (order (current_index fs)) toColumnId = true ->
  moveCard data fs
  = (Ok tt,
     with_index fs
       (JSON_stringify
          (index_after_move (current_index fs) cardId fromColumnId toColumnId
             toIndex))).
Proof.
  intros Hcard Hfrom Hto Hidx Lfrom Lto.
  unfold moveCard, bind. rewrite Hcard, Hfrom, Hto, Hidx, readIndex_eq.
  rewrite (order_value_listable _ _ Lfrom).
  rewrite order_value_listable
    by (rewrite listable_set, Lto; apply orb_true_r).
  reflexivity.
Qed.

(** Otherwise it throws after [readIndex], with nothing written. *)
Lemma moveCard_throws (data : Record_ jsval)
  (cardId fromColumnId toColumnId : string) (toIndex : number)
  (fs : FileSystem) :
  nonempty_string (field data "cardId") = Some cardId ->
  nonempty_string (field data "fromColumnId") = Some fromColumnId ->
  nonempty_string (field data "toColumnId") = Some toColumnId ->
  number_or_null (field data "toIndex") = Some toIndex ->
  listable (order (current_index fs)) fromColumnId = false
  \/ (toColumnId <> fromColumnId
      /\ listable (order (current_index fs)) toColumnId = false) ->
  moveCard data fs = (Throw "TypeError", after_readIndex fs).
Proof.
  intros Hcard Hfrom Hto Hidx H.
  unfold moveCard, bind. rewrite Hcard, Hfrom, Hto, Hidx, readIndex_eq.
  destruct (listable (order (current_index fs)) fromColumnId) eqn:Lfrom.
  - destruct H as [H|[Hne Lto]]; [discriminate|].
    rewrite (order_value_listable _ _ Lfrom).
    rewrite order_value_unlistable; [reflexivity|].
    rewrite listable_set, Lto.
    now rewrite (proj2 (String_eqb_false_iff fromColumnId toColumnId))
      by congruence.
  - now rewrite (order_value_unlistable _ _ Lfrom).
Qed.

End MoveCard.


(** ** reorderColumns *)

Lemma obj_set_fresh {V} (o : Record_ V) (k : string) (v : V) :
  ~ In k (Object_keys o) -> obj_set o k v = o ++ [(k, v)].
Proof.
  induction o as [|[k0 v0] r IH]; simpl; intros H; [reflexivity|].
  destruct (String.eqb_spec k0 k) as [->|Hk]; [tauto|].
  rewrite IH by tauto. reflexivity.
Qed.

Lemma column_entries_keys (cols : list Column) :
  Object_keys (column_entries cols) = map column_id cols.
Proof. unfold Object_keys, column_entries. now rewrite map_map. Qed.

Lemma columnMap_entries_from (cols : list Column) :
  forall acc,
    NoDup (map column_id (acc ++ cols)) ->
    fold_left (fun m column => obj_set m (column_id column) column)
      cols (column_entries acc)
    = column_entries (acc ++ cols).
Proof.
  induction cols as [|c cols IH]; intros acc Hnd; simpl.
  - now rewrite app_nil_r.
  - rewrite obj_set_fresh.
    + replace (column_entries acc ++ [(column_id c, c)])
        with (column_entries (acc ++ [c]))
        by (unfold column_entries; now rewrite map_app).
      rewrite (IH (acc ++ [c])).
      * now rewrite <- app_assoc.
      * rewrite <- app_assoc. exact Hnd.
    + rewrite column_entries_keys. rewrite map_app in Hnd.
      apply NoDup_remove_2 in Hnd. intros Hin. apply Hnd.
      apply in_or_app. now left.
Qed.

(** [new Map(columns.map((column) => [column.id, column]))] for distinct
    ids. *)
Lemma columnMap_entries (cols : list Column) :
  NoDup (map column_id cols) ->
  fold_left (fun m column => obj_set m (column_id column) column) cols []
  = column_entries cols.
Proof. intros H. now apply (columnMap_entries_from cols []). Qed.

Lemma obj_get_column_entries_none (cols : list Column) (id : string) :
  obj_get (column_entries cols) id = None <->
  forall c, In c cols -> column_id c <> id.
Proof.
  induction cols as [|c cols IH]; simpl.
  - split; [intros _ c [] | reflexivity].
  - destruct (String.eqb_spec (column_id c) id) as [E|E].
    + split; [discriminate|]. intros H. exfalso. apply (H c); auto.
    + rewrite IH. split.
      * intros H c' [<-|Hc']; auto.
      * intros H c' Hc'. apply H. now right.
Qed.

Lemma without_id_fixed (cols : list Column) (id : string) :
  (forall c, In c cols -> column_id c <> id) ->
  columns_with_id cols id = []
  /\ filter (fun c => negb (column_id c =? id)) cols = cols
  /\ obj_delete (column_entries cols) id = column_entries cols.
Proof.
  induction cols as [|c cols IH]; intros H; [auto|].
  destruct IH as (H1 & H2 & H3); [intros c' Hc'; apply H; now right|].
  unfold columns_with_id in *. simpl.
  rewrite (proj2 (String_eqb_false_iff (column_id c) id))
    by (apply H; now left).
  simpl. now rewrite H1, H2, H3.
Qed.

Lemma obj_get_column_entries_some (cols : list Column) (id : string)
  (c : Column) :
  NoDup (map column_id cols) ->
  obj_get (column_entries cols) id = Some c ->
  columns_with_id cols id = [c]
  /\ obj_delete (column_entries cols) id
     = column_entries (filter (fun c' => negb (column_id c' =? id)) cols).
Proof.
  induction cols as [|c0 cols IH]; simpl; intros Hnd H; [discriminate|].
  inversion Hnd as [|? ? Hnotin Hnd']; subst.
  unfold columns_with_id. simpl.
  destruct (String.eqb_spec (column_id c0) id) as [E|E].
  - injection H as <-. subst id.
    destruct (without_id_fixed cols (column_id c0)) as (H1 & H2 & H3).
    { intros c Hc E. apply Hnotin. rewrite <- E. now apply in_map. }
    unfold columns_with_id in H1. simpl. now rewrite H1, H2, H3.
  - simpl. destruct (IH Hnd' H) as [H1 H2].
    unfold columns_with_id in H1. now rewrite H1, H2.
Qed.

Lemma filter_filter {A} (p q : A -> bool) (l : list A) :
  filter p (filter q l) = filter (fun x => q x && p x) l.
Proof.
  induction l as [|a l IH]; simpl; [reflexivity|].
  destruct (q a); simpl; [destruct (p a); now rewrite IH | exact IH].
Qed.

Lemma filter_ext_in_bool {A} (p q : A -> bool) (l : list A) :
  (forall x, In x l -> p x = q x) -> filter p l = filter q l.
Proof.
  induction l as [|a l IH]; simpl; intros H; [reflexivity|].
  rewrite (H a) by auto. rewrite IH by auto. reflexivity.
Qed.

Lemma NoDup_map_filter (p : Column -> bool) (cols : list Column) :
  NoDup (map column_id cols) -> NoDup (map column_id (filter p cols)).
Proof.
  induction cols as [|c cols IH]; simpl; intros H; [constructor|].
  inversion H as [|? ? Hn Hd]; subst.
  destruct (p c); simpl; [constructor|]; auto.
  intros Hin. apply Hn. apply in_map_iff in Hin as [c' [E Hc']].
  apply filter_In in Hc' as [Hc' _]. apply in_map_iff. now exists c'.
Qed.

Lemma filter_not_mentioned (cols : list Column) (id : string)
  (ids : list string) :
  filter (fun c => negb (includes ids (column_id c)))
    (filter (fun c => negb (column_id c =? id)) cols)
  = filter (fun c => negb (includes (id :: ids) (column_id c))) cols.
Proof.
  rewrite filter_filter. apply filter_ext_in_bool. intros c _.
  unfold includes. simpl. now rewrite negb_orb.
Qed.

(** The loop over [orderedIds] on a map of columns with distinct ids. *)
Lemma take_column_fold (ids : list string) :
  forall remaining next,
    NoDup (map column_id remaining) ->
    fold_left take_column ids (next, column_entries remaining)
    = (next ++ matched remaining ids,
       column_entries
         (filter (fun c => negb (includes ids (column_id c))) remaining)).
Proof.
  induction ids as [|id ids IH]; intros remaining next Hnd.
  - simpl. rewrite app_nil_r. f_equal. f_equal.
    induction remaining as [|c r IHr]; simpl; [reflexivity|].
    inversion Hnd; subst. now rewrite <- IHr.
  - cbn [fold_left take_column matched].
    rewrite <- filter_not_mentioned.
    destruct (obj_get (column_entries remaining) id) as [c|] eqn:E.
    + destruct (obj_get_column_entries_some remaining id c Hnd E) as [H1 H2].
      rewrite H1, H2, IH by now apply NoDup_map_filter.
      now rewrite <- app_assoc.
    + pose proof (proj1 (obj_get_column_entries_none remaining id) E) as Hno.
      destruct (without_id_fixed remaining id Hno) as (H1 & H2 & _).
      rewrite H1, H2, IH by assumption. reflexivity.
Qed.

Lemma column_entries_values (cols : list Column) :
  map snd (column_entries cols) = cols.
Proof.
  unfold column_entries. rewrite map_map. simpl. apply map_id.
Qed.

(** For distinct ids the program computes the matched columns followed by
    the unmentioned ones. *)
Lemma reordered_columns_eq (cols : list Column) (ids : list string) :
  NoDup (map column_id cols) ->
  reordered_columns cols ids
  = matched cols ids
    ++ filter (fun c => negb (includes ids (column_id c))) cols.
Proof.
  intros Hnd. unfold reordered_columns.
  rewrite (columnMap_entries cols Hnd).
  rewrite (take_column_fold ids cols [] Hnd).
  now rewrite column_entries_values.
Qed.

(** *** The matched columns, by first occurrences *)

Lemma Set_of_aux_ext (l : list string) :
  forall s1 s2,
    (forall y, includes s1 y = includes s2 y) ->
    Set_of_aux s1 l = Set_of_aux s2 l.
Proof.
  induction l as [|x l IH]; intros s1 s2 H; simpl; [reflexivity|].
  rewrite <- (H x). destruct (includes s1 x).
  - now apply IH.
  - f_equal. apply IH. intros y. unfold includes in *. simpl.
    now rewrite (H y).
Qed.

Lemma Set_of_aux_cons (x : string) (l : list string) :
  forall seen,
    Set_of_aux (x :: seen) l
    = filter (fun y => negb (y =? x)) (Set_of_aux seen l).
Proof.
  induction l as [|y l IH]; intros seen; simpl; [reflexivity|].
  unfold includes at 1. simpl. fold (includes seen y).
  destruct (includes seen y) eqn:Es.
  - rewrite orb_true_r. apply IH.
  - rewrite orb_false_r. destruct (String.eqb_spec y x) as [->|Hxy]; simpl.
    + rewrite String.eqb_refl. simpl. rewrite <- IH.
      apply Set_of_aux_ext. intros z. unfold includes. simpl.
      now destruct (z =? x).
    + rewrite (proj2 (String_eqb_false_iff y x) Hxy). simpl. f_equal.
      rewrite <- IH. apply Set_of_aux_ext. intros z. unfold includes. simpl.
      destruct (z =? y), (z =? x); reflexivity.
Qed.

Lemma columns_with_id_without (cols : list Column) (id x : string) :
  columns_with_id (filter (fun c => negb (column_id c =? id)) cols) x
  = if x =? id then [] else columns_with_id cols x.
Proof.
  unfold columns_with_id. rewrite filter_filter.
  destruct (String.eqb_spec x id) as [->|Hx].
  - induction cols as [|c cols IH]; simpl; [reflexivity|].
    destruct (column_id c =? id); simpl; exact IH.
  - apply filter_ext_in_bool. intros c _.
    destruct (String.eqb_spec (column_id c) x) as [->|];
      [|now rewrite andb_false_r].
    now rewrite (proj2 (String_eqb_false_iff x id) Hx).
Qed.

Lemma flat_map_without (cols : list Column) (id : string) (l : list string) :
  flat_map
    (columns_with_id (filter (fun c => negb (column_id c =? id)) cols)) l
  = flat_map (columns_with_id cols) (filter (fun y => negb (y =? id)) l).
Proof.
  induction l as [|x l IH]; [reflexivity|].
  simpl. rewrite columns_with_id_without, IH.
  destruct (x =? id); reflexivity.
Qed.

(** The matched columns are, for each id of [ids] at its first occurrence,
    the columns with that id. *)
Lemma matched_first_occurrences (ids : list string) :
  forall cols,
    matched cols ids = flat_map (columns_with_id cols) (Set_of ids).
Proof.
  induction ids as [|id ids IH]; intros cols; [reflexivity|].
  unfold Set_of. simpl. rewrite IH, Set_of_aux_cons. f_equal.
  apply flat_map_without.
Qed.

Lemma Permutation_filter_split {A} (p : A -> bool) (l : list A) :
  Permutation l (filter p l ++ filter (fun x => negb (p x)) l).
Proof.
  induction l as [|a l IH]; simpl; [constructor|].
  destruct (p a); simpl.
  - now constructor.
  - now apply Permutation_cons_app.
Qed.

Lemma matched_Permutation (ids : list string) :
  forall cols,
    Permutation cols
      (matched cols ids
       ++ filter (fun c => negb (includes ids (column_id c))) cols).
Proof.
  induction ids as [|id ids IH]; intros cols.
  - simpl. induction cols; simpl; constructor; assumption.
  - cbn [matched]. rewrite <- filter_not_mentioned, <- app_assoc.
    eapply Permutation_trans;
      [apply (Permutation_filter_split (fun c => column_id c =? id))|].
    apply Permutation_app_head. apply IH.
Qed.

Section ReorderColumns.
Context {J : Json}.

(** C6 (amended).  When the ids of the columns are pairwise distinct,
    [reorderColumns] persists a permutation of the columns: first, for
    each id of [orderedIds] at its first occurrence, the column with that
    id (an id of no column contributes nothing), then the columns that
    [orderedIds] does not mention, in their original order. *)
Theorem reorderColumns_permutation (data : Record_ jsval)
  (orderedIds : list string) (fs : FileSystem) :
  string_array_or_null (field data "orderedIds") = Some orderedIds ->
  NoDup (map column_id (columns (current_index fs))) ->
  let index := current_index fs in
  let next := reordered_columns (columns index) orderedIds in
  reorderColumns data fs
  = (Ok tt,
     with_index fs
       (JSON_stringify {| columns := next; order := order index |}))
  /\ next = spec_reordered (columns index) orderedIds
  /\ Permutation (columns index) next
  /\ (forall id, In id orderedIds ->
        (forall c, In c (columns index) -> column_id c <> id) ->
        columns_with_id (columns index) id = []).
Proof.
  intros Hids Hnd index next.
  assert (Hnext : next
                  = matched (columns index) orderedIds
                    ++ filter (fun c => negb (includes orderedIds
                                                (column_id c)))
                         (columns index)).
  { apply reordered_columns_eq. exact Hnd. }
  repeat split.
  - unfold reorderColumns, bind. rewrite Hids, readIndex_eq. reflexivity.
  - rewrite Hnext. unfold spec_reordered.
    now rewrite matched_first_occurrences.
  - rewrite Hnext. apply matched_Permutation.
  - intros id _ Hno. now apply without_id_fixed.
Qed.
End ReorderColumns.

Lemma reorderColumns_permutation_witness :
  let fs := example_fs true None [] in
  let data := [("orderedIds", JArr [JStr "done"; JStr "x"; JStr "done"])] in
  reorderColumns data fs
  = (Ok tt,
     with_index fs
       (JSON_stringify
          {| columns := [ {| column_id := "done"; column_title := "Done" |};
                          {| column_id := "todo"; column_title := "TODO" |};
                          {| column_id := "doing"; column_title := "Doing" |} ];
             order := [("todo", []); ("doing", []); ("done", [])] |})).
Proof.
  intros fs data.
  destruct (reorderColumns_permutation data ["done"; "x"; "done"] fs eq_refl)
    as (H & _).
  - repeat constructor; simpl; intuition discriminate.
  - exact H.
Defined.

(** A column is lost when two columns share an id: the map keyed by id
    keeps one of them, and the column list written has lost the other. *)
Lemma reorderColumns_loses_duplicate :
  let raw :=
    JObj [("columns",
           JArr [JObj [("id", JStr "a"); ("title", JStr "First")];
                 JObj [("id", JStr "a"); ("title", JStr "Second")]])] in
  let fs := example_fs true (Some (Some raw)) [] in
  columns (current_index fs)
  = [ {| column_id := "a"; column_title := "First" |};
      {| column_id := "a"; column_title := "Second" |} ]
  /\ reorderColumns [("orderedIds", JArr [])] fs
     = (Ok tt,
        with_index fs
          (JSON_stringify
             {| columns := [ {| column_id := "a"; column_title := "Second" |} ];
                order := [("a", [])] |}))
  /\ ~ Permutation (columns (current_index fs))
         (reordered_columns (columns (current_index fs)) []).
Proof.
  repeat split. intros H. apply Permutation_length in H. discriminate.
Qed.
(** ** The discovered ids *)

Lemma Set_of_aux_In (l : list string) :
  forall seen x,
    In x (Set_of_aux seen l) <-> In x l /\ ~ In x seen.
Proof.
  induction l as [|y l IH]; intros seen x; simpl; [tauto|].
  destruct (includes seen y) eqn:E.
  - apply includes_In in E. rewrite IH. split.
    + intros [H1 H2]. tauto.
    + intros [[->|H1] H2]; tauto.
  - apply includes_false in E. simpl. rewrite IH. simpl. split.
    + intros [->|[H1 H2]]; [tauto|]. split; [tauto|]. tauto.
    + intros [[->|H1] H2]; [tauto|].
      destruct (string_dec y x) as [->|Hne]; [tauto|]. right. tauto.
Qed.

Lemma Set_of_aux_NoDup (l : list string) :
  forall seen, NoDup (Set_of_aux seen l).
Proof.
  induction l as [|y l IH]; intros seen; simpl; [constructor|].
  destruct (includes seen y); [apply IH|].
  constructor; [|apply IH].
  intros H. apply Set_of_aux_In in H as [_ H]. apply H. now left.
Qed.

Lemma str_take_drop (n : nat) (s : string) :
  (str_take n s ++ str_drop n s)%string = s.
Proof.
  revert s. induction n as [|n IH]; intros [|c r]; simpl; try reflexivity.
  now rewrite IH.
Qed.

Lemma str_drop_length_app (x y : string) :
  str_drop (String.length x) (x ++ y) = y.
Proof. induction x as [|c r IH]; simpl; [now destruct y | exact IH]. Qed.

Lemma endsWith_app (x suffix : string) :
  endsWith (x ++ suffix) suffix = true
  /\ strip_suffix (x ++ suffix) suffix = x.
Proof.
  assert (Hlen : String.length (x ++ suffix) - String.length suffix
                 = String.length x)
    by (rewrite append_length; lia).
  assert (He : endsWith (x ++ suffix) suffix = true).
  { unfold endsWith. rewrite Hlen, str_drop_length_app, String.eqb_refl.
    rewrite append_length.
    now rewrite (proj2 (Nat.leb_le _ _)) by lia. }
  split; [exact He|].
  unfold strip_suffix. rewrite He, Hlen. apply str_take_app.
Qed.

Lemma endsWith_strip (name suffix : string) :
  endsWith name suffix = true ->
  name = (strip_suffix name suffix ++ suffix)%string.
Proof.
  intros H. unfold strip_suffix. rewrite H. unfold endsWith in H.
  apply andb_true_iff in H as [_ H]. apply String.eqb_eq in H.
  set (n := String.length name - String.length suffix) in *.
  rewrite <- H. symmetry. apply str_take_drop.
Qed.

(** An id is discovered exactly when the directory holds a file of that
    name with the suffix [.md]. *)
Lemma discovered_ids_In {J : Json} (fs : FileSystem) (x : string) :
  In x (discovered_ids fs)
  <-> exists f, In ((x ++ ".md")%string, FileNode f) (cards_dir fs).
Proof.
  unfold discovered_ids, card_file_ids, Set_of.
  rewrite Set_of_aux_In, in_map_iff. split.
  - intros [[name [Hx Hname]] _].
    apply filter_In in Hname as [Hname Hends].
    apply in_map_iff in Hname as [[n t] [Hn Hin]]. simpl in Hn. subst n.
    apply filter_In in Hin as [Hin Ht]. simpl in Ht.
    apply in_map_iff in Hin as [[n e] [He Hin]].
    injection He as -> Ht'.
    destruct e as [f|]; [|subst t; discriminate].
    exists f. rewrite <- Hx, <- (endsWith_strip name ".md" Hends).
    exact Hin.
  - intros [f Hin]. split; [|tauto].
    exists (x ++ ".md")%string.
    destruct (endsWith_app x ".md") as [He Hs]. split; [exact Hs|].
    apply filter_In. split; [|exact He].
    apply in_map_iff. exists ((x ++ ".md")%string, fileType_File).
    split; [reflexivity|].
    apply filter_In. split; [|reflexivity].
    apply in_map_iff. exists ((x ++ ".md")%string, FileNode f).
    split; [reflexivity | exact Hin].
Qed.

(** ** readState *)

Section LoadCard.
Context {J : Json}.

(** [loadCard] never throws and leaves the file system alone. *)
Lemma loadCard_eq (cardId : string) (fs : FileSystem) :
  loadCard cardId fs = (Ok (loaded_card fs cardId), fs).
Proof.
  assert (H : exists c, loadCard cardId fs = (Ok c, fs)).
  { unfold loadCard, try_catch, bind, readFile_card, stat_card, toISOString,
      ret, throw.
    destruct (obj_get (cards_dir fs) (cardId ++ ".md")) as [[f|]|] eqn:E;
      [|eexists; reflexivity..].
    cbv beta iota. rewrite E.
    destruct (meta_value (meta (parseFrontMatter (data f))) "createdAt")
      as [c|]; [destruct (c =? "")|];
      destruct (meta_value (meta (parseFrontMatter (data f))) "updatedAt")
        as [u|]; try destruct (u =? "");
      destruct (ctime f), (mtime f); eexists; reflexivity. }
  destruct H as [c H]. unfold loaded_card. now rewrite H.
Qed.

Lemma load_into_eq (fs : FileSystem) (acc : Record_ CardData * list string)
  (cardId : string) :
  load_into acc cardId fs = (Ok (note_card fs acc cardId), fs).
Proof.
  destruct acc as [cs seen]. unfold load_into, note_card, bind. simpl.
  destruct (includes seen cardId); [reflexivity|].
  rewrite loadCard_eq. destruct (loaded_card fs cardId); reflexivity.
Qed.

Lemma foldM_load_into (fs : FileSystem) (l : list string) :
  forall acc,
    foldM load_into l acc fs = (Ok (fold_left (note_card fs) l acc), fs).
Proof.
  induction l as [|x l IH]; intros acc; [reflexivity|].
  simpl. unfold bind. rewrite load_into_eq. apply IH.
Qed.

Lemma foldM_columns (fs : FileSystem) (order : Record_ (list string))
  (cols : list Column) :
  forall acc,
    foldM (fun acc column =>
             foldM load_into (list_at order (column_id column)) acc)
      cols acc fs
    = (Ok (fold_left
             (fun acc c =>
                fold_left (note_card fs) (list_at order (column_id c)) acc)
             cols acc), fs).
Proof.
  induction cols as [|c cols IH]; intros acc; [reflexivity|].
  simpl. unfold bind. rewrite foldM_load_into. apply IH.
Qed.


End LoadCard.

(** *** The two loops over the order *)

Lemma includes_app (a b : list string) (x : string) :
  includes (a ++ b) x = includes a x || includes b x.
Proof. unfold includes. apply existsb_app. Qed.

Lemma includes_Set_add (s : list string) (y x : string) :
  includes (Set_add s y) x = includes s x || (x =? y).
Proof.
  unfold Set_add. destruct (includes s y) eqn:E.
  - destruct (String.eqb_spec x y) as [->|]; [now rewrite E | now rewrite orb_false_r].
  - rewrite includes_app. unfold includes at 2. simpl. now rewrite orb_false_r.
Qed.

Lemma includes_fold_Set_add (l s : list string) (x : string) :
  includes (fold_left Set_add l s) x = includes s x || includes l x.
Proof.
  revert s. induction l as [|y l IH]; intros s; simpl.
  - now rewrite orb_false_r.
  - rewrite IH, includes_Set_add. unfold includes at 3. simpl.
    fold (includes l x). now rewrite orb_assoc.
Qed.

(** The loop over the columns: the kept lists, whether something was
    dropped, and the ids that are listed. *)
Lemma keep_existing_fold (index : IndexData) (ids : list string)
  (cols : list Column) :
  forall o ch s,
    exists s',
      fold_left (keep_existing index ids) cols (o, ch, s)
      = (fold_left
           (fun o c => obj_set o (column_id c) (kept index ids (column_id c)))
           cols o,
         ch || existsb
                 (fun c =>
                    existsb (fun id => negb (includes ids id))
                      (list_at (order index) (column_id c)))
                 cols,
         s')
      /\ forall x,
           includes s' x
           = includes s x
             || existsb (fun c => includes (kept index ids (column_id c)) x)
                  cols.
Proof.
  induction cols as [|c cols IH]; intros o ch s.
  - exists s. simpl. rewrite orb_false_r. split; [reflexivity|].
    intros x. now rewrite orb_false_r.
  - cbn [fold_left]. unfold keep_existing at 2.
    fold (kept index ids (column_id c)).
    destruct (IH (obj_set o (column_id c) (kept index ids (column_id c)))
                (ch || existsb (fun id => negb (includes ids id))
                         (list_at (order index) (column_id c)))
                (fold_left Set_add (kept index ids (column_id c)) s))
      as [s' [H1 H2]].
    exists s'. split.
    + rewrite H1. simpl. now rewrite orb_assoc.
    + intros x. rewrite H2, includes_fold_Set_add. simpl.
      now rewrite orb_assoc.
Qed.

Lemma obj_set_set {V} (o : Record_ V) (k : string) (a b : V) :
  obj_set (obj_set o k a) k b = obj_set o k b.
Proof.
  induction o as [|[k0 v0] r IH]; simpl.
  - now rewrite String.eqb_refl.
  - destruct (String.eqb_spec k0 k) as [->|Hk]; simpl.
    + now rewrite String.eqb_refl.
    + rewrite (proj2 (String_eqb_false_iff k0 k) Hk). now rewrite IH.
Qed.

(** The loop over the discovered ids: the unlisted ones go to the end of
    the fallback column's list. *)
Lemma append_unlisted_fold (fb : string) (s : list string)
  (ids : list string) :
  forall o ch,
    fold_left (append_unlisted fb s) ids (o, ch)
    = match filter (fun x => negb (includes s x)) ids with
      | [] => (o, ch)
      | u => (obj_set o fb (list_at o fb ++ u), true)
      end.
Proof.
  induction ids as [|x ids IH]; intros o ch; [reflexivity|].
  cbn [fold_left filter]. unfold append_unlisted at 2.
  destruct (includes s x); cbn [negb].
  - apply IH.
  - rewrite IH.
    destruct (filter (fun x => negb (includes s x)) ids) as [|y u];
      [reflexivity|].
    rewrite list_at_set, String.eqb_refl, obj_set_set, <- app_assoc.
    reflexivity.
Qed.

Section ReadState.
Context {J : Json}.

Lemma readDirectory_after_readIndex (fs : FileSystem) :
  try_catch readDirectory_cards (ret []) (after_readIndex fs)
  = (Ok (map (fun e => (fst e, entry_type (snd e))) (cards_dir fs)),
     after_readIndex fs).
Proof. reflexivity. Qed.

(** What [readState] returns and leaves. *)
Lemma readState_eq (fs : FileSystem) :
  let index := current_index fs in
  let ids := discovered_ids fs in
  readState fs
  = (Ok {| state_columns := columns index;
           state_order := reconciled_order index ids;
           cards := collect_cards (after_readState fs) (columns index)
                      (reconciled_order index ids) |},
     after_readState fs).
Proof.
  intros index ids. unfold readState, bind.
  rewrite readIndex_eq, readDirectory_after_readIndex.
  cbv beta iota zeta.
  fold index. fold (discovered_ids fs). fold ids. fold (fallback_id index).
  destruct (keep_existing_fold index ids (columns index) [] false [])
    as [s [Hfold Hs]].
  match goal with
  | |- context [fold_left (keep_existing ?i ?d) ?c ?a] =>
      destruct (fold_left (keep_existing i d) c a) as [[o ch] s0] eqn:E
  end.
  assert (E' : (o, ch, s0)
               = (kept_order index ids, some_dropped index ids, s))
    by (rewrite <- E; exact Hfold).
  injection E' as -> -> ->. clear E Hfold.
  assert (Hunl : filter (fun x => negb (includes s x)) ids
                 = unlisted index ids).
  { unfold unlisted, listed. apply filter_ext_in_bool. intros x _.
    now rewrite Hs. }
  pose proof (append_unlisted_fold (fallback_id index) s ids
                (kept_order index ids) (some_dropped index ids)) as Hfold.
  rewrite Hunl in Hfold.
  match goal with
  | |- context [fold_left (append_unlisted ?f ?t) ?c ?a] =>
      destruct (fold_left (append_unlisted f t) c a) as [o ch] eqn:E
  end.
  assert (E' : (o, ch)
               = (reconciled_order index ids, drift index ids)).
  { etransitivity; [exact Hfold|].
    unfold reconciled_order, drift.
    destruct (unlisted index ids); [|now rewrite orb_true_r].
    now rewrite orb_false_r. }
  injection E' as -> ->. clear E Hfold.
  unfold after_readState. fold index. fold ids.
  destruct (drift index ids);
    unfold writeIndex, writeFile_index, ret; cbv beta iota;
    rewrite foldM_columns; reflexivity.
Qed.
End ReadState.

(** *** The reconciled order *)

Lemma kept_order_get (index : IndexData) (ids : list string) (k : string) :
  obj_get (kept_order index ids) k
  = if includes (map column_id (columns index)) k
    then Some (kept index ids k) else None.
Proof.
  unfold kept_order.
  now rewrite (fold_set_get (fun c => kept index ids (column_id c))
                 (kept index ids)).
Qed.

Lemma kept_In (index : IndexData) (ids : list string) (k x : string) :
  In x (kept index ids k) <-> In x (list_at (order index) k) /\ In x ids.
Proof.
  unfold kept. rewrite filter_In, includes_In. tauto.
Qed.

Lemma unlisted_In (index : IndexData) (ids : list string) (x : string) :
  In x (unlisted index ids)
  <-> In x ids
      /\ forall c, In c (columns index) ->
                   ~ In x (list_at (order index) (column_id c)).
Proof.
  unfold unlisted, listed. rewrite filter_In, negb_true_iff. split.
  - intros [Hx Hl]. split; [assumption|]. intros c Hc Hin.
    apply Bool.not_true_iff_false in Hl. apply Hl.
    apply existsb_exists. exists c. split; [assumption|].
    apply includes_In, kept_In. now split.
  - intros [Hx Hl]. split; [assumption|].
    apply Bool.not_true_iff_false. intros He.
    apply existsb_exists in He as [c [Hc Hin]].
    apply includes_In, kept_In in Hin as [Hin _]. now apply (Hl c).
Qed.

Lemma some_dropped_iff (index : IndexData) (ids : list string) :
  some_dropped index ids = true
  <-> exists c x, In c (columns index)
                  /\ In x (list_at (order index) (column_id c))
                  /\ ~ In x ids.
Proof.
  unfold some_dropped. rewrite existsb_exists. split.
  - intros [c [Hc He]]. apply existsb_exists in He as [x [Hx Hn]].
    apply negb_true_iff, includes_false in Hn. now exists c, x.
  - intros [c [x [Hc [Hx Hn]]]]. exists c. split; [assumption|].
    apply existsb_exists. exists x. split; [assumption|].
    now apply negb_true_iff, includes_false.
Qed.

Lemma drift_iff (index : IndexData) (ids : list string) :
  drift index ids = true
  <-> (exists c x, In c (columns index)
                   /\ In x (list_at (order index) (column_id c))
                   /\ ~ In x ids)
      \/ (exists x, In x ids
                    /\ forall c, In c (columns index) ->
                         ~ In x (list_at (order index) (column_id c))).
Proof.
  unfold drift. rewrite orb_true_iff, some_dropped_iff. split.
  - intros [H|H]; [now left|]. right.
    destruct (unlisted index ids) as [|x u] eqn:E; [discriminate|].
    exists x. apply unlisted_In. rewrite E. now left.
  - intros [H|[x H]]; [now left|]. right.
    apply unlisted_In in H. now destruct (unlisted index ids).
Qed.

Lemma reconciled_order_at (index : IndexData) (ids : list string)
  (k : string) :
  list_at (reconciled_order index ids) k
  = list_at (kept_order index ids) k
    ++ (if k =? fallback_id index then unlisted index ids else []).
Proof.
  unfold reconciled_order.
  destruct (unlisted index ids) as [|y u].
  - destruct (k =? fallback_id index); now rewrite app_nil_r.
  - rewrite list_at_set, (String.eqb_sym (fallback_id index) k).
    destruct (String.eqb_spec k (fallback_id index)) as [->|];
      [reflexivity | now rewrite app_nil_r].
Qed.

Lemma kept_order_at (index : IndexData) (ids : list string) (k : string) :
  list_at (kept_order index ids) k
  = if includes (map column_id (columns index)) k
    then kept index ids k else [].
Proof.
  unfold list_at. rewrite kept_order_get.
  now destruct (includes (map column_id (columns index)) k).
Qed.

Lemma reconciled_order_within (index : IndexData) (ids : list string)
  (k x : string) :
  In x (list_at (reconciled_order index ids) k) -> In x ids.
Proof.
  rewrite reconciled_order_at, kept_order_at, in_app_iff.
  intros [H|H].
  - destruct (includes (map column_id (columns index)) k); [|contradiction].
    now apply kept_In in H.
  - destruct (k =? fallback_id index); [|contradiction].
    now apply unlisted_In in H.
Qed.

Lemma reconciled_order_keys (index : IndexData) (ids : list string)
  (k : string) :
  columns index <> [] ->
  In k (Object_keys (reconciled_order index ids))
  <-> In k (map column_id (columns index)).
Proof.
  intros Hne.
  assert (Hk : forall k', In k' (Object_keys (kept_order index ids))
                          <-> In k' (map column_id (columns index))).
  { intros k'. unfold kept_order. rewrite fold_set_keys. simpl. tauto. }
  unfold reconciled_order. destruct (unlisted index ids); [apply Hk|].
  rewrite Object_keys_set, Hk. split; [|tauto].
  intros [->|H]; [|assumption].
  unfold fallback_id. destruct (columns index); [contradiction | now left].
Qed.

Section Reconciliation.
Context {J : Json}.

End Reconciliation.
(** ** Writing an index and reading it back *)

Lemma parse_columns_written (cols : list Column) :
  parse_columns (map json_of_column cols) = cols.
Proof.
  induction cols as [|[i t] cols IH]; [reflexivity|].
  simpl. unfold parse_column. simpl. now rewrite IH.
Qed.

Lemma filter_strings_written (l : list string) :
  filter_strings (map JStr l) = l.
Proof. induction l as [|x l IH]; simpl; [reflexivity | now rewrite IH]. Qed.

Lemma obj_get_map {V W} (f : V -> W) (o : Record_ V) (k : string) :
  obj_get (map (fun kv => (fst kv, f (snd kv))) o) k
  = option_map f (obj_get o k).
Proof.
  induction o as [|[k0 v0] r IH]; simpl; [reflexivity|].
  destruct (k0 =? k); [reflexivity | exact IH].
Qed.

Lemma prop_columns (a b : jsval) :
  prop (JObj [("columns", a); ("order", b)]) "columns" = a.
Proof. reflexivity. Qed.

Lemma prop_order (a b : jsval) :
  prop (JObj [("columns", a); ("order", b)]) "order" = b.
Proof. reflexivity. Qed.

Lemma normalizeIndex_written (index : IndexData) :
  columns index <> [] ->
  normalizeIndex (json_of_index index) = Some (normalized_written index).
Proof.
  intros Hne.
  unfold normalizeIndex, normalizeIndex_at, json_of_index, normalized_written.
  rewrite prop_columns, prop_order.
  destruct (columns index) as [|c cols] eqn:E; [contradiction|].
  cbn [map]. change (json_of_column c :: map json_of_column cols)
    with (map json_of_column (c :: cols)).
  rewrite parse_columns_written. f_equal. f_equal.
  clear E Hne. generalize (@nil (string * list string)).
  induction (c :: cols) as [|c' l IH]; intros o; [reflexivity|].
  simpl fold_left. rewrite <- IH. f_equal. f_equal.
  unfold list_at, prop.
  rewrite (obj_get_map (fun l => JArr (map JStr l))).
  destruct (obj_get (order index) (column_id c')); simpl;
    [apply filter_strings_written | reflexivity].
Qed.

Lemma normalized_written_at (index : IndexData) (k : string) :
  list_at (order (normalized_written index)) k
  = if includes (map column_id (columns index)) k
    then list_at (order index) k else [].
Proof.
  unfold list_at at 1, normalized_written. cbn [order].
  rewrite (fold_set_get (fun c => list_at (order index) (column_id c))
             (list_at (order index))) by reflexivity.
  now destruct (includes (map column_id (columns index)) k).
Qed.

(** In a list without repetition, the elements equal to [x] are [x] alone. *)
Lemma filter_only (p : string -> bool) (x : string) (l : list string) :
  NoDup l -> In x l -> p x = true ->
  (forall y, In y l -> y <> x -> p y = false) ->
  filter p l = [x].
Proof.
  induction l as [|y l IH]; intros Hnd Hin Hp Hq; [contradiction|].
  inversion Hnd as [|? ? Hn Hd]; subst. simpl.
  destruct (string_dec y x) as [->|Hne].
  - rewrite Hp. f_equal.
    assert (G : forall l', (forall y, In y l' -> p y = false) ->
                           filter p l' = []).
    { induction l' as [|z l' IH']; intros H; [reflexivity|].
      simpl. rewrite (H z) by now left. apply IH'. intros w Hw. apply H.
      now right. }
    apply G. intros y Hy. apply Hq; [now right|].
    intros ->. contradiction.
  - rewrite (Hq y) by (auto; now left).
    destruct Hin as [->|Hin]; [contradiction|].
    apply IH; auto. intros z Hz. apply Hq. now right.
Qed.

Section WrittenIndex.
Context {J : Json} {R : JsonRoundtrip J}.

Lemma current_index_written (fs : FileSystem) (index : IndexData) :
  columns index <> [] ->
  current_index (with_index fs (JSON_stringify index))
  = normalized_written index.
Proof.
  intros Hne. unfold current_index, loaded_index, with_index.
  cbn [index_file]. rewrite JSON_roundtrip.
  now rewrite normalizeIndex_written.
Qed.

(** [readState] after an index with the current columns was written: the
    keys of the order are the column ids again, whatever keys were
    written, and a discovered id that no column lists ends up, with the
    others of its kind, behind the kept ids of the first column. *)
Lemma readState_after_write (fs : FileSystem) (written : IndexData) :
  columns written = columns (current_index fs) ->
  let fs1 := with_index fs (JSON_stringify written) in
  let ids := discovered_ids fs in
  let first := fallback_id (current_index fs) in
  exists st fs2,
    readState fs1 = (Ok st, fs2)
    /\ state_columns st = columns (current_index fs)
    /\ (forall k, In k (Object_keys (state_order st))
                  <-> In k (map column_id (columns (current_index fs))))
    /\ forall x,
         In x ids ->
         (forall c, In c (columns (current_index fs)) ->
                    ~ In x (list_at (order written) (column_id c))) ->
         exists kept_part appended,
           list_at (state_order st) first = kept_part ++ appended
           /\ ~ In x kept_part
           /\ In x appended
           /\ ((forall y, In y ids -> y <> x ->
                  exists c, In c (columns (current_index fs))
                            /\ In y (list_at (order written) (column_id c))) ->
               appended = [x])
           /\ index_file fs2
              = Some (JSON_stringify
                        {| columns := columns (current_index fs);
                           order := state_order st |}).
Proof.
  intros Hcols fs1 ids first.
  pose proof (current_index_columns_nonempty fs) as Hne.
  assert (Hidx : current_index fs1 = normalized_written written).
  { apply current_index_written. now rewrite Hcols. }
  assert (Hids : discovered_ids fs1 = ids) by reflexivity.
  assert (Hat : forall c, In c (columns (current_index fs)) ->
            list_at (order (normalized_written written)) (column_id c)
            = list_at (order written) (column_id c)).
  { intros c Hc. rewrite normalized_written_at, Hcols.
    now rewrite (proj2 (includes_In _ _)) by now apply in_map. }
  eexists. eexists. split; [apply readState_eq|].
  rewrite Hidx, Hids. cbn [state_columns state_order cards].
  assert (Hcols' : columns (normalized_written written)
                   = columns (current_index fs)) by exact Hcols.
  assert (Hfirst : fallback_id (normalized_written written) = first).
  { unfold first, fallback_id. now rewrite Hcols'. }
  split; [exact Hcols'|].
  split.
  { intros k. rewrite <- Hcols'. apply reconciled_order_keys.
    now rewrite Hcols'. }
  intros x Hx Hno.
  assert (Hunl : In x (unlisted (normalized_written written) ids)).
  { apply unlisted_In. split; [assumption|]. intros c Hc.
    rewrite Hcols' in Hc. rewrite (Hat c Hc). now apply Hno. }
  exists (list_at (kept_order (normalized_written written) ids) first),
    (unlisted (normalized_written written) ids).
  split.
  { rewrite reconciled_order_at, Hfirst, String.eqb_refl. reflexivity. }
  split.
  { rewrite kept_order_at.
    destruct (includes _ first) eqn:E; [|tauto].
    intros H. apply kept_In in H as [H _].
    apply includes_In, in_map_iff in E as [c [Ec Hc]].
    rewrite <- Ec in H. rewrite Hcols' in Hc. rewrite (Hat c Hc) in H.
    now apply (Hno c). }
  split; [exact Hunl|].
  split.
  { intros Hothers. unfold unlisted.
    apply filter_only.
    - apply Set_of_aux_NoDup.
    - exact Hx.
    - apply unlisted_In in Hunl as [_ Hn]. apply negb_true_iff.
      apply Bool.not_true_iff_false. intros He.
      apply existsb_exists in He as [c [Hc Hin]].
      apply includes_In, kept_In in Hin as [Hin _]. now apply (Hn c).
    - intros y Hy Hne'. destruct (Hothers y Hy Hne') as [c [Hc Hin]].
      apply negb_false_iff. apply existsb_exists. exists c.
      split; [now rewrite Hcols'|].
      apply includes_In, kept_In. rewrite (Hat c Hc). now split. }
  unfold after_readState. rewrite Hidx, Hids.
  assert (Hd : drift (normalized_written written) ids = true).
  { apply drift_iff. right. exists x. now apply unlisted_In. }
  rewrite Hd. cbn [index_file with_index]. now rewrite Hcols'.
Qed.
End WrittenIndex.

Lemma splice_insert_In (l : list string) (start : number) (x : string) :
  In x (splice_insert l start x).
Proof. unfold splice_insert. apply in_or_app. right. now left. Qed.

Lemma removed_In (x y : string) (l : list string) :
  In y (filter (fun id => negb (id =? x)) l) <-> In y l /\ y <> x.
Proof.
  rewrite filter_In, negb_true_iff, String_eqb_false_iff. tauto.
Qed.

Lemma example_json_roundtrip : JsonRoundtrip example_json.
Proof. intros index. reflexivity. Qed.

(** ** What the parser returns is written back unchanged *)

Lemma trimEnd_idem (s : string) : trimEnd (trimEnd s) = trimEnd s.
Proof.
  induction s as [|c r IH]; [reflexivity|].
  simpl. destruct (trimEnd r) as [|c' r'] eqn:E.
  - destruct (is_ws c) eqn:Ec; [reflexivity|]. simpl. now rewrite Ec.
  - change (trimEnd (String c (String c' r')))
      with (match trimEnd (String c' r') with
            | EmptyString => if is_ws c then EmptyString else String c EmptyString
            | r0 => String c r0 end).
    now rewrite IH.
Qed.

Lemma trimStart_fixed (s : string) :
  trimStart (trimStart s) = trimStart s.
Proof.
  induction s as [|c r IH]; [reflexivity|].
  simpl. destruct (is_ws c) eqn:E; [exact IH|]. simpl. now rewrite E.
Qed.

Lemma trimStart_trimEnd (u : string) :
  trimStart u = u -> trimStart (trimEnd u) = trimEnd u.
Proof.
  destruct u as [|c r]; [reflexivity|].
  intros H. assert (Hc : is_ws c = false).
  { simpl in H. destruct (is_ws c) eqn:E; [|reflexivity].
    pose proof (trimStart_length r) as Hl. rewrite H in Hl. simpl in Hl. lia. }
  destruct (trimEnd_head c r Hc) as [r' E]. rewrite E. simpl. now rewrite Hc.
Qed.

Lemma trim_idem (s : string) : trim (trim s) = trim s.
Proof.
  unfold trim.
  rewrite (trimStart_trimEnd (trimStart s) (trimStart_fixed s)).
  apply trimEnd_idem.
Qed.

Section Forall.
Variable p : ascii -> bool.

Lemma str_forallb_trimStart (s : string) :
  str_forallb p s = true -> str_forallb p (trimStart s) = true.
Proof.
  induction s as [|c r IH]; [reflexivity|]. simpl. intros H.
  apply andb_true_iff in H as [Hc Hr].
  destruct (is_ws c); [auto | simpl; now rewrite Hc, Hr].
Qed.

Lemma str_forallb_trimEnd (s : string) :
  str_forallb p s = true -> str_forallb p (trimEnd s) = true.
Proof.
  induction s as [|c r IH]; [reflexivity|]. simpl. intros H.
  apply andb_true_iff in H as [Hc Hr]. specialize (IH Hr).
  destruct (trimEnd r).
  - destruct (is_ws c); [reflexivity | simpl; now rewrite Hc].
  - simpl in *. now rewrite Hc, IH.
Qed.

Lemma str_forallb_trim (s : string) :
  str_forallb p s = true -> str_forallb p (trim s) = true.
Proof.
  intros H. unfold trim. now apply str_forallb_trimEnd, str_forallb_trimStart.
Qed.

Lemma str_forallb_take (n : nat) (s : string) :
  str_forallb p s = true -> str_forallb p (str_take n s) = true.
Proof.
  revert s. induction n as [|n IH]; intros [|c r]; simpl; auto.
  intros H. apply andb_true_iff in H as [Hc Hr]. rewrite Hc. now apply IH.
Qed.

Lemma str_forallb_drop (n : nat) (s : string) :
  str_forallb p s = true -> str_forallb p (str_drop n s) = true.
Proof.
  revert s. induction n as [|n IH]; intros [|c r]; simpl; auto.
  intros H. apply andb_true_iff in H as [Hc Hr]. now apply IH.
Qed.
End Forall.

Lemma take_before_first (c : ascii) (s : string) (i : nat) :
  String_indexOf c s = Some i ->
  str_forallb (fun a => negb (Ascii.eqb a c)) (str_take i s) = true.
Proof.
  revert i. induction s as [|a r IH]; intros i; simpl; [discriminate|].
  destruct (Ascii.eqb a c) eqn:E.
  - intros [= <-]. reflexivity.
  - destruct (String_indexOf c r) as [j|]; [|discriminate].
    intros [= <-]. simpl. rewrite E. simpl. now apply IH.
Qed.

(** The lines [split_lines] returns hold no line feed. *)
Lemma split_lines_no_LF (s : string) :
  forallb no_LF (split_lines s) = true.
Proof.
  induction s as [|c r IH]; [reflexivity|].
  simpl. destruct (Ascii.eqb c LF) eqn:Ec; [exact IH|].
  destruct (split_lines r) as [|l ls]; simpl.
  - unfold no_LF. simpl. now rewrite Ec.
  - simpl in IH. apply andb_true_iff in IH as [Hl Hls].
    destruct (_ && _); simpl; [exact Hls|].
    unfold no_LF in *. simpl. now rewrite Ec, Hl, Hls.
Qed.

Lemma parse_meta_line_wf (m : Record_ (option string)) (line : string) :
  no_LF line = true ->
  (forall k v, obj_get m k = Some v -> wf_pair k v) ->
  forall k v, obj_get (parse_meta_line m line) k = Some v -> wf_pair k v.
Proof.
  intros Hline Hm k v. unfold parse_meta_line.
  destruct (trim line =? ""); [apply Hm|].
  destruct (String_indexOf COLON line) as [i|] eqn:Ei; [|apply Hm].
  set (key := trim (str_take i line)).
  set (value := trim (str_drop (S i) line)).
  destruct (key =? "") eqn:Ek; [apply Hm|].
  rewrite obj_get_set. destruct (String.eqb_spec key k) as [<-|]; [|apply Hm].
  intros [= <-]. split.
  - unfold wf_key. rewrite Ek. unfold key at 1. rewrite trim_idem.
    fold key. rewrite String.eqb_refl. simpl.
    apply andb_true_iff. split.
    + apply str_forallb_trim. now apply take_before_first.
    + apply str_forallb_trim, str_forallb_take. exact Hline.
  - destruct (value =? "") eqn:E1; [reflexivity|].
    destruct (value =? "null") eqn:E2; [reflexivity|].
    simpl. rewrite E1, E2. unfold value at 2. rewrite trim_idem.
    fold value. rewrite String.eqb_refl. simpl.
    rewrite !andb_true_r.
    apply str_forallb_trim, str_forallb_drop. exact Hline.
Qed.

Lemma fold_parse_meta_wf (lines : list string) :
  forall m,
    forallb no_LF lines = true ->
    (forall k v, obj_get m k = Some v -> wf_pair k v) ->
    forall k v,
      obj_get (fold_left parse_meta_line lines m) k = Some v -> wf_pair k v.
Proof.
  induction lines as [|l lines IH]; intros m Hl Hm; [exact Hm|].
  simpl in Hl. apply andb_true_iff in Hl as [H1 H2].
  simpl. apply IH; [exact H2|]. now apply parse_meta_line_wf.
Qed.

Lemma forallb_firstn {A} (p : A -> bool) (n : nat) (l : list A) :
  forallb p l = true -> forallb p (firstn n l) = true.
Proof.
  revert l. induction n as [|n IH]; intros [|a l]; simpl; auto.
  intros H. apply andb_true_iff in H as [Ha Hl]. rewrite Ha. now apply IH.
Qed.

Lemma forallb_skipn {A} (p : A -> bool) (n : nat) (l : list A) :
  forallb p l = true -> forallb p (skipn n l) = true.
Proof.
  revert l. induction n as [|n IH]; intros [|a l]; simpl; auto.
  intros H. apply andb_true_iff in H as [Ha Hl]. now apply IH.
Qed.

(** Every pair [parseFrontMatter] returns is well formed. *)
Lemma parseFrontMatter_wf (content : string) (k : string)
  (v : option string) :
  obj_get (meta (parseFrontMatter content)) k = Some v -> wf_pair k v.
Proof.
  unfold parseFrontMatter.
  destruct (negb (nth 0 (split_lines content) "" =? "---"));
    [discriminate|].
  destruct (Array_indexOf (split_lines content) "---" 1) as [e|];
    [|discriminate].
  cbn [meta]. apply fold_parse_meta_wf; [|discriminate].
  unfold slice. apply forallb_firstn, forallb_skipn, split_lines_no_LF.
Qed.

(** ** updateCard *)

Lemma str_forallb_impl (p q : ascii -> bool) (s : string) :
  (forall c, p c = true -> q c = true) ->
  str_forallb p s = true -> str_forallb q s = true.
Proof.
  intros Hpq. induction s as [|c r IH]; [reflexivity|]. simpl. intros H.
  apply andb_true_iff in H as [Hc Hr]. now rewrite (Hpq c Hc), IH.
Qed.

Lemma iso_char_visible (c : ascii) :
  iso_char c = true -> negb (is_ws c) = true.
Proof.
  destruct c as [[] [] [] [] [] [] [] []]; vm_compute; congruence.
Qed.

Lemma iso_char_not_LF (c : ascii) :
  iso_char c = true -> negb (Ascii.eqb c LF) = true.
Proof.
  destruct c as [[] [] [] [] [] [] [] []]; vm_compute; congruence.
Qed.

Lemma trimEnd_visible (s : string) :
  str_forallb (fun c => negb (is_ws c)) s = true -> trimEnd s = s.
Proof.
  induction s as [|c r IH]; [reflexivity|]. simpl. intros H.
  apply andb_true_iff in H as [Hc Hr]. apply negb_true_iff in Hc.
  rewrite (IH Hr). destruct r; [now rewrite Hc | reflexivity].
Qed.

Lemma trim_visible (s : string) :
  str_forallb (fun c => negb (is_ws c)) s = true -> trim s = s.
Proof.
  intros H. unfold trim.
  assert (Hs : trimStart s = s).
  { destruct s as [|c r]; [reflexivity|]. simpl in *.
    apply andb_true_iff in H as [Hc _]. apply negb_true_iff in Hc.
    now rewrite Hc. }
  rewrite Hs. now apply trimEnd_visible.
Qed.

(** A time stamp is read back as it is. *)
Lemma timestamp_clean (now : string) :
  timestamp_text now = true -> clean_value (Some now) = true.
Proof.
  unfold timestamp_text, clean_value. intros H.
  apply andb_true_iff in H as [Hne Hiso].
  rewrite Hne.
  rewrite (trim_visible now (str_forallb_impl _ _ now iso_char_visible Hiso)).
  rewrite String.eqb_refl.
  unfold no_LF. rewrite (str_forallb_impl _ _ now iso_char_not_LF Hiso).
  simpl. destruct (String.eqb_spec now "null") as [->|]; [discriminate|].
  reflexivity.
Qed.

Lemma clean_wf_value (v : option string) :
  clean_value v = true -> wf_value v = true.
Proof.
  destruct v as [s|]; [|reflexivity]. simpl.
  rewrite !andb_true_iff. tauto.
Qed.

Lemma clean_nonempty (s : string) :
  clean_value (Some s) = true -> (s =? "") = false.
Proof.
  simpl. rewrite !andb_true_iff, !negb_true_iff. tauto.
Qed.

Lemma meta_value_set (m : Record_ (option string)) (k k' : string)
  (v : option string) :
  meta_value (obj_set m k v) k' = if k =? k' then v else meta_value m k'.
Proof.
  unfold meta_value. rewrite obj_get_set. now destruct (k =? k').
Qed.

(** What the parser reads in a text the serializer wrote. *)
Lemma parse_serialize_meta (m : Record_ (option string)) (b k : string) :
  (forall k v, obj_get m k = Some v -> wf_key k = true /\ wf_value v = true) ->
  meta_value (meta (parseFrontMatter (serializeFrontMatter m b))) k
  = match obj_get m k with
    | Some v => decode_value v
    | None => None
    end.
Proof.
  intros Hm. rewrite (parse_serialize m b Hm). cbn [meta].
  unfold meta_value.
  rewrite fold_assign_get, last_assoc_serialize_entries.
  now destruct (obj_get m k).
Qed.

Section UpdatedMeta.
Variables (old : Record_ (option string)) (now cardId title : string)
  (due : option string) (created : string).
Hypothesis old_wf : forall k v, obj_get old k = Some v -> wf_pair k v.
Hypothesis old_created : meta_value old "createdAt" = Some created.
Hypothesis now_ok : timestamp_text now = true.
Hypothesis id_ok : no_LF cardId = true.
Hypothesis title_ok : no_LF (trim title) = true.
Hypothesis due_ok : wf_value due = true.

Lemma created_clean : clean_value (Some created) = true.
Proof.
  unfold meta_value in old_created.
  destruct (obj_get old "createdAt") as [v|] eqn:E; [|discriminate].
  subst v. now destruct (old_wf _ _ E).
Qed.

Lemma updated_meta_title :
  obj_get (updated_meta old now cardId title due) "title"
  = Some (Some (trim title)).
Proof. unfold updated_meta. now rewrite !obj_get_set. Qed.

Lemma updated_meta_updatedAt :
  obj_get (updated_meta old now cardId title due) "updatedAt"
  = Some (Some now).
Proof. unfold updated_meta. now rewrite !obj_get_set. Qed.

Lemma updated_meta_createdAt :
  obj_get (updated_meta old now cardId title due) "createdAt"
  = Some (Some created).
Proof.
  unfold updated_meta. rewrite !obj_get_set. cbn.
  rewrite !meta_value_set. cbn. rewrite old_created.
  now rewrite (clean_nonempty created created_clean).
Qed.

Lemma updated_meta_wf (k : string) (v : option string) :
  obj_get (updated_meta old now cardId title due) k = Some v ->
  wf_key k = true /\ wf_value v = true.
Proof.
  unfold updated_meta. rewrite !obj_get_set.
  destruct ("updatedAt" =? k) eqn:E5.
  { apply String.eqb_eq in E5 as <-. intros [= <-].
    split; [reflexivity | apply clean_wf_value, timestamp_clean, now_ok]. }
  destruct ("createdAt" =? k) eqn:E4.
  { apply String.eqb_eq in E4 as <-. intros [= <-].
    split; [reflexivity|].
    rewrite !meta_value_set. cbn. rewrite old_created.
    rewrite (clean_nonempty created created_clean).
    apply clean_wf_value, created_clean. }
  destruct ("due" =? k) eqn:E3.
  { apply String.eqb_eq in E3 as <-. intros [= <-].
    split; [reflexivity|].
    destruct due as [d|]; [|reflexivity].
    destruct (trim d =? ""); [reflexivity | exact due_ok]. }
  destruct ("title" =? k) eqn:E2.
  { apply String.eqb_eq in E2 as <-. intros [= <-].
    split; [reflexivity | exact title_ok]. }
  destruct ("id" =? k) eqn:E1.
  { apply String.eqb_eq in E1 as <-. intros [= <-].
    split; [reflexivity | exact id_ok]. }
  intros H. destruct (old_wf _ _ H) as [Hk Hv].
  split; [exact Hk | now apply clean_wf_value].
Qed.
End UpdatedMeta.

Section UpdateCard.
Context {J : Json}.

(** The card [loadCard] builds from a file whose metadata holds both time
    stamps. *)
Lemma loaded_card_stamped (fs : FileSystem) (cardId : string)
  (f : FileEntry) (c u : string) :
  obj_get (cards_dir fs) (cardId ++ ".md") = Some (FileNode f) ->
  meta_value (meta (parseFrontMatter (data f))) "createdAt" = Some c ->
  (c =? "") = false ->
  meta_value (meta (parseFrontMatter (data f))) "updatedAt" = Some u ->
  (u =? "") = false ->
  exists card,
    loaded_card fs cardId = Some card
    /\ createdAt card = c
    /\ updatedAt card = u
    /\ detail card = body (parseFrontMatter (data f))
    /\ card_title card
       = match meta_value (meta (parseFrontMatter (data f))) "title" with
         | Some t =>
             if trim t =? ""
             then match firstNonEmptyLine (body (parseFrontMatter (data f)))
                  with Some line => line | None => "Untitled" end
             else t
         | None =>
             match firstNonEmptyLine (body (parseFrontMatter (data f)))
             with Some line => line | None => "Untitled" end
         end.
Proof.
  intros Hf Hc Hc' Hu Hu'. eexists. split.
  - unfold loaded_card, loadCard, try_catch, bind, readFile_card, stat_card.
    rewrite Hf. cbv beta iota. rewrite Hf. cbv beta iota zeta.
    rewrite Hc, Hc', Hu, Hu'. reflexivity.
  - repeat split.
Qed.

(** The creation time of a loaded card is the one its metadata holds. *)
Lemma loaded_card_createdAt (fs : FileSystem) (cardId : string)
  (f : FileEntry) (c : string) (card : CardData) :
  obj_get (cards_dir fs) (cardId ++ ".md") = Some (FileNode f) ->
  meta_value (meta (parseFrontMatter (data f))) "createdAt" = Some c ->
  (c =? "") = false ->
  loaded_card fs cardId = Some card ->
  createdAt card = c.
Proof.
  intros Hf Hc Hc'.
  unfold loaded_card, loadCard, try_catch, bind, readFile_card, stat_card.
  rewrite Hf. cbv beta iota. rewrite Hf. cbv beta iota zeta.
  rewrite Hc, Hc'. unfold ret at 1.
  destruct (meta_value (meta (parseFrontMatter (data f))) "updatedAt")
    as [u|]; [destruct (u =? "")|]; unfold toISOString;
    destruct (mtime f); unfold ret, throw; cbn; intros [= <-]; reflexivity.
Qed.

(** C7 (amended).  For a card file that exists, loads, and holds a
    createdAt in its metadata, [updateCard] with a non-blank title
    rewrites that file and nothing else; the card then loads with the
    same createdAt, the operation's time stamp as updatedAt, the trimmed
    title, and the detail with each CR-LF turned into LF (the detail
    itself when it holds no CR-LF).  The card id, the trimmed title and
    the due date hold no line feed, and the trimmed title is not the
    text "null". *)
Theorem updateCard_keeps_createdAt (now : string) (stamp : option string)
  (input : Record_ jsval) (cardId : string) (fs : FileSystem)
  (f : FileEntry) (before : CardData) :
  let title := string_or (field input "title") "" in
  let text := string_or (field input "detail") "" in
  nonempty_string (field input "cardId") = Some cardId ->
  (trim title =? "") = false ->
  obj_get (cards_dir fs) (cardId ++ ".md") = Some (FileNode f) ->
  loaded_card fs cardId = Some before ->
  meta_value (meta (parseFrontMatter (data f))) "createdAt" <> None ->
  no_LF cardId = true ->
  no_LF (trim title) = true ->
  (trim title =? "null") = false ->
  wf_value (string_or_null (field input "due")) = true ->
  timestamp_text now = true ->
  exists content after,
    let fs' :=
      with_card fs (cardId ++ ".md")
        {| data := content; ctime := ctime f; mtime := stamp |} in
    updateCard now stamp input fs = (Ok tt, fs')
    /\ loaded_card fs' cardId = Some after
    /\ createdAt after = createdAt before
    /\ updatedAt after = now
    /\ card_title after = trim title
    /\ detail after = join (String LF "") (split_lines text)
    /\ (has_CRLF text = false -> detail after = text)
    /\ index_file fs' = index_file fs
    /\ forall name, name <> (cardId ++ ".md")%string ->
         obj_get (cards_dir fs') name = obj_get (cards_dir fs) name.
Proof.
  intros title text Hid Htitle Hf Hbefore Hcreated Hcard Hline Hnull Hdue
    Hnow.
  set (old := meta (parseFrontMatter (data f))) in *.
  destruct (meta_value old "createdAt") as [created|] eqn:Ec;
    [clear Hcreated | contradiction].
  assert (Hold : forall k v, obj_get old k = Some v -> wf_pair k v)
    by (intros k v; apply parseFrontMatter_wf).
  pose proof (created_clean old created Hold Ec) as Hcc.
  set (m := updated_meta old now cardId title
              (string_or_null (field input "due"))).
  assert (Hm : forall k v, obj_get m k = Some v ->
                           wf_key k = true /\ wf_value v = true).
  { intros k v. now apply (updated_meta_wf old now cardId title _ created). }
  set (content := serializeFrontMatter m text).
  exists content.
  set (fs' := with_card fs (cardId ++ ".md")
                {| data := content; ctime := ctime f; mtime := stamp |}).
  assert (Hf' : obj_get (cards_dir fs') (cardId ++ ".md")
                = Some (FileNode {| data := content; ctime := ctime f;
                                    mtime := stamp |})).
  { unfold fs', with_card. cbn [cards_dir]. apply obj_get_set_same. }
  assert (Hclean_now := timestamp_clean now Hnow).
  assert (HT : meta_value (meta (parseFrontMatter content)) "title"
               = Some (trim title)).
  { unfold content. rewrite (parse_serialize_meta m text "title" Hm).
    unfold m. rewrite updated_meta_title.
    unfold decode_value. rewrite trim_idem, Htitle, Hnull. reflexivity. }
  assert (HC : meta_value (meta (parseFrontMatter content)) "createdAt"
               = Some created).
  { unfold content. rewrite (parse_serialize_meta m text "createdAt" Hm).
    unfold m. rewrite (updated_meta_createdAt old now cardId title _ created
                         Hold Ec).
    now apply decode_clean. }
  assert (HU : meta_value (meta (parseFrontMatter content)) "updatedAt"
               = Some now).
  { unfold content. rewrite (parse_serialize_meta m text "updatedAt" Hm).
    unfold m. rewrite updated_meta_updatedAt. now apply decode_clean. }
  assert (HB : body (parseFrontMatter content)
               = join (String LF "") (split_lines text)).
  { unfold content. now rewrite (parse_serialize m text Hm). }
  destruct (loaded_card_stamped fs' cardId _ created now Hf' HC
              (clean_nonempty created Hcc) HU (clean_nonempty now Hclean_now))
    as (after & Hafter & H1 & H2 & H3 & H4).
  cbn [data] in H3, H4.
  exists after. cbv zeta. fold fs'.
  split.
  { unfold updateCard, bind, try_catch, readFile_card, writeFile_card, ret.
    rewrite Hid. fold title. rewrite Htitle, Hf. cbv beta iota.
    rewrite Hf. reflexivity. }
  split; [exact Hafter|].
  split.
  { rewrite H1. symmetry.
    apply (loaded_card_createdAt fs cardId f created before Hf Ec
             (clean_nonempty created Hcc) Hbefore). }
  split; [exact H2|].
  split.
  { rewrite H4, HT. cbv beta iota. now rewrite trim_idem, Htitle. }
  split; [now rewrite H3, HB|].
  split.
  { intros Hcrlf. rewrite H3, HB. now apply join_split_lines. }
  split; [reflexivity|].
  intros name Hname. unfold fs', with_card. cbn [cards_dir].
  apply obj_get_set_other. congruence.
Qed.
End UpdateCard.

Lemma updateCard_keeps_createdAt_witness :
  let content :=
    join (String LF "")
      ["---"; "id: c1"; "title: First"; "due: null";
       "createdAt: 2024-01-01T00:00:00.000Z";
       "updatedAt: 2024-01-01T00:00:00.000Z"; "---"; "Hello"] in
  let f := {| data := content; ctime := Some "2024-01-01T00:00:00.000Z";
              mtime := Some "2024-01-01T00:00:00.000Z" |} in
  let fs := example_fs true None [("c1.md", FileNode f)] in
  let input := [("cardId", JStr "c1"); ("title", JStr "Updated");
                ("detail", JStr "Next")] in
  exists fs' after,
    updateCard "2024-06-01T12:00:00.000Z" (Some "2024-06-01T12:00:00.001Z")
      input fs = (Ok tt, fs')
    /\ loaded_card fs' "c1" = Some after
    /\ createdAt after = "2024-01-01T00:00:00.000Z"
    /\ updatedAt after = "2024-06-01T12:00:00.000Z"
    /\ card_title after = "Updated"
    /\ detail after = "Next".
Proof.
  intros content f fs input.
  destruct (loaded_card fs "c1") as [before|] eqn:Eb; [|discriminate].
  destruct (updateCard_keeps_createdAt
              "2024-06-01T12:00:00.000Z" (Some "2024-06-01T12:00:00.001Z")
              input "c1" fs f before)
    as (c & after & H1 & H2 & H3 & H4 & H5 & _ & H7 & _);
    try reflexivity; try exact Eb; try discriminate.
  eexists. exists after. split; [exact H1|].
  split; [exact H2|].
  split; [|split; [exact H4 | split; [exact H5 | now apply H7]]].
  rewrite H3. injection Eb as <-. reflexivity.
Defined.

(** A card file written by hand, without metadata,
    updated with a title that has blanks around it and a detail that holds
    a CR-LF: the creation time changes from the file's to the operation's,
    the title comes back trimmed and the detail with a bare LF. *)
Lemma updateCard_changes_createdAt :
  let f := {| data := "Hello"; ctime := Some "2020-01-01T00:00:00.000Z";
              mtime := Some "2020-01-01T00:00:00.000Z" |} in
  let fs := example_fs true None [("c1.md", FileNode f)] in
  let given_title := " Updated " in
  let given_detail := ("a" ++ String CR (String LF "b"))%string in
  let input := [("cardId", JStr "c1"); ("title", JStr given_title);
                ("detail", JStr given_detail)] in
  let fs' := snd (updateCard "2024-06-01T12:00:00.000Z"
                    (Some "2024-06-01T12:00:00.001Z") input fs) in
  exists before after,
    loaded_card fs "c1" = Some before
    /\ fst (updateCard "2024-06-01T12:00:00.000Z"
              (Some "2024-06-01T12:00:00.001Z") input fs) = Ok tt
    /\ loaded_card fs' "c1" = Some after
    /\ createdAt before = "2020-01-01T00:00:00.000Z"
    /\ createdAt after = "2024-06-01T12:00:00.000Z"
    /\ createdAt after <> createdAt before
    /\ card_title after = "Updated"
    /\ card_title after <> given_title
    /\ detail after = ("a" ++ String LF "b")%string
    /\ detail after <> given_detail.
Proof.
  cbv zeta. eexists. eexists.
  split; [vm_compute; reflexivity|].
  split; [vm_compute; reflexivity|].
  split; [vm_compute; reflexivity|].
  repeat split; try reflexivity; vm_compute; discriminate.
Qed.

(** * Further properties of the text functions *)

Lemma Object_keys_obj_set {V} (o : Record_ V) (k : string) (v : V) :
  Object_keys (obj_set o k v)
  = if includes (Object_keys o) k then Object_keys o else Object_keys o ++ [k].
Proof.
  induction o as [|[k' v'] r IH]; cbn [obj_set Object_keys map includes existsb fst app].
  - reflexivity.
  - rewrite (String.eqb_sym k k').
    destruct (k' =? k) eqn:E; cbn [orb map fst].
    + apply String.eqb_eq in E. subst. reflexivity.
    + unfold Object_keys, includes in IH. rewrite IH.
      destruct (existsb (String.eqb k) (map fst r)); reflexivity.
Qed.

Lemma obj_set_NoDup {V} (o : Record_ V) (k : string) (v : V) :
  NoDup (Object_keys o) -> NoDup (Object_keys (obj_set o k v)).
Proof.
  intros H. rewrite Object_keys_obj_set.
  destruct (includes (Object_keys o) k) eqn:E; [exact H|].
  apply includes_false in E.
  apply NoDup_app; [exact H | constructor; [intros []|constructor] | ].
  intros x Hx [<-|[]]. exact (E Hx).
Qed.

Lemma In_obj_get {V} (o : Record_ V) (k : string) (v : V) :
  NoDup (Object_keys o) -> In (k, v) o -> obj_get o k = Some v.
Proof.
  induction o as [|[k' v'] r IH]; cbn [Object_keys map fst obj_get]; intros H HI.
  - destruct HI.
  - inversion H as [|? ? Hn Hr]; subst.
    destruct HI as [E|HI].
    + inversion E; subst. rewrite String.eqb_refl. reflexivity.
    + destruct (k' =? k) eqn:E.
      * apply String.eqb_eq in E. subst. exfalso. apply Hn.
        apply (in_map fst) in HI. exact HI.
      * apply IH; assumption.
Qed.

Lemma parse_meta_line_NoDup (m : Record_ (option string)) (line : string) :
  NoDup (Object_keys m) -> NoDup (Object_keys (parse_meta_line m line)).
Proof.
  intros H. unfold parse_meta_line.
  destruct (trim line =? ""); [exact H|].
  destruct (String_indexOf COLON line); [|exact H].
  destruct (trim (str_take n line) =? ""); [exact H|].
  apply obj_set_NoDup, H.
Qed.

Lemma fold_parse_meta_NoDup (lines : list string) :
  forall m, NoDup (Object_keys m) ->
            NoDup (Object_keys (fold_left parse_meta_line lines m)).
Proof.
  induction lines as [|l r IH]; intros m H; cbn [fold_left]; [exact H|].
  apply IH, parse_meta_line_NoDup, H.
Qed.

Lemma parseFrontMatter_NoDup (content : string) :
  NoDup (Object_keys (meta (parseFrontMatter content))).
Proof.
  unfold parseFrontMatter.
  destruct (negb _); [constructor|].
  destruct (Array_indexOf _ _ _); [|constructor].
  cbn [meta]. apply fold_parse_meta_NoDup. constructor.
Qed.

(** X1.  The metadata [parseFrontMatter] returns is well formed whatever the
    text: every key is non-empty, trimmed and free of colons and line feeds,
    every value is null or a non-empty trimmed one-line string other than
    the text null, and no key occurs twice. *)
Theorem parseFrontMatter_meta_well_formed (content : string) :
  forallb (fun kv => wf_key (fst kv) && clean_value (snd kv))
    (meta (parseFrontMatter content)) = true
  /\ NoDup (Object_keys (meta (parseFrontMatter content))).
Proof.
  split; [|apply parseFrontMatter_NoDup].
  apply forallb_forall. intros [k v] HI. cbn [fst snd].
  apply In_obj_get in HI; [|apply parseFrontMatter_NoDup].
  apply parseFrontMatter_wf in HI. destruct HI as [H1 H2].
  rewrite H1, H2. reflexivity.
Qed.




Lemma first_line_prefix (s : string) :
  exists rest, s = (nth 0 (split_lines s) "" ++ rest)%string.
Proof.
  induction s as [|c r IH]; [exists ""; reflexivity|].
  cbn [split_lines].
  destruct (Ascii.eqb c LF); [exists (String c r); reflexivity|].
  destruct (split_lines r) as [|l ls] eqn:E.
  - exfalso. exact (split_lines_nonempty r E).
  - cbn [nth] in IH. destruct IH as [rest IH].
    destruct (Ascii.eqb c CR && (l =? "") && _).
    + exists (String c r). reflexivity.
    + exists rest. cbn [nth append]. f_equal. exact IH.
Qed.

Lemma parseFrontMatter_without_prefix (content : string) :
  String.prefix "---" content = false ->
  parseFrontMatter content = {| meta := []; body := content |}.
Proof.
  intros H. unfold parseFrontMatter.
  destruct (nth 0 (split_lines content) "" =? "---") eqn:E; [|reflexivity].
  exfalso. apply String.eqb_eq in E.
  destruct (first_line_prefix content) as [rest Hr]. rewrite E in Hr.
  rewrite Hr in H. cbn in H.
  repeat (rewrite Ascii.eqb_refl in H
          || (destruct (ascii_dec _ _) as [_|n] in H;
              [|exfalso; apply n; reflexivity])).
  destruct rest; discriminate.
Qed.

(** X3.  A text that does not begin with three hyphens has no front matter:
    [parseFrontMatter] returns no metadata and the whole text as the body. *)
Theorem parseFrontMatter_plain_text (content : string) :
  String.prefix "---" content = false ->
  parseFrontMatter content = {| meta := []; body := content |}.
Proof. apply parseFrontMatter_without_prefix. Qed.

Lemma trimStart_blank (s : string) :
  str_forallb is_ws s = true <-> trimStart s = "".
Proof.
  induction s as [|c r IH]; cbn [str_forallb trimStart]; [tauto|].
  destruct (is_ws c) eqn:E; cbn [andb]; [exact IH|].
  split; discriminate.
Qed.

Lemma trimStart_head (s : string) :
  trimStart s = "" \/ exists c r, trimStart s = String c r /\ is_ws c = false.
Proof.
  induction s as [|c r IH]; cbn [trimStart]; [left; reflexivity|].
  destruct (is_ws c) eqn:E; [exact IH|].
  right. exists c, r. split; [reflexivity | exact E].
Qed.

Lemma trim_blank (s : string) :
  trim s = "" <-> str_forallb is_ws s = true.
Proof.
  unfold trim. rewrite trimStart_blank.
  destruct (trimStart_head s) as [H|(c & r & H & Hc)].
  - rewrite H. cbn. tauto.
  - rewrite H. destruct (trimEnd_head c r Hc) as [r' Hr]. rewrite Hr.
    split; discriminate.
Qed.

Lemma split_lines_blank (s : string) :
  forallb (str_forallb is_ws) (split_lines s) = str_forallb is_ws s.
Proof.
  induction s as [|c r IH]; [reflexivity|].
  cbn [split_lines str_forallb].
  destruct (Ascii.eqb c LF) eqn:EL.
  - apply Ascii.eqb_eq in EL. subst c. cbn [forallb str_forallb]. exact IH.
  - destruct (split_lines r) as [|l ls] eqn:E.
    + exfalso. exact (split_lines_nonempty r E).
    + cbn [forallb] in IH.
      destruct (Ascii.eqb c CR && (l =? "") && _) eqn:EC.
      * apply andb_prop in EC. destruct EC as [EC _].
        apply andb_prop in EC. destruct EC as [EC El].
        apply Ascii.eqb_eq in EC. apply String.eqb_eq in El. subst.
        cbn [forallb str_forallb] in *. exact IH.
      * cbn [forallb str_forallb]. rewrite <- IH.
        rewrite andb_assoc. reflexivity.
Qed.

Lemma first_truthy_spec (l : list string) :
  match first_truthy l with
  | Some x =>
      exists before after,
        l = before ++ x :: after /\ (x =? "") = false
        /\ forall b, In b before -> b = ""
  | None => forall b, In b l -> b = ""
  end.
Proof.
  induction l as [|y r IH]; cbn [first_truthy]; [intros b []|].
  destruct (y =? "") eqn:E.
  - apply String.eqb_eq in E. subst y.
    destruct (first_truthy r) as [x|].
    + destruct IH as (before & after & -> & Hx & Hb).
      exists ("" :: before), after. split; [reflexivity|]. split; [exact Hx|].
      intros b [<-|Hin]; [reflexivity | apply Hb, Hin].
    + intros b [<-|Hin]; [reflexivity | apply IH, Hin].
  - exists [], r. split; [reflexivity|]. split; [exact E|]. intros b [].
Qed.

Lemma map_eq_app_cons {A B} (f : A -> B) (l : list A) (l1 : list B) (y : B)
  (l2 : list B) :
  map f l = l1 ++ y :: l2 ->
  exists a1 x a2, l = a1 ++ x :: a2 /\ map f a1 = l1 /\ f x = y /\ map f a2 = l2.
Proof.
  revert l1. induction l as [|a r IH]; intros l1 H.
  - destruct l1; discriminate.
  - destruct l1 as [|b l1]; cbn [map app] in H; inversion H; subst.
    + exists [], a, r. repeat split.
    + destruct (IH _ H2) as (a1 & x & a2 & -> & <- & <- & <-).
      exists (a :: a1), x, a2. repeat split.
Qed.

Lemma firstNonEmptyLine_spec (text : string) :
  match firstNonEmptyLine text with
  | Some line =>
      (line =? "") = false /\ trim line = line /\ no_LF line = true
      /\ exists before l after,
           split_lines text = before ++ l :: after
           /\ line = trim l
           /\ forall b, In b before -> trim b = ""
  | None => trim text = ""
  end
  /\ (trim text = "" -> firstNonEmptyLine text = None).
Proof.
  unfold firstNonEmptyLine.
  pose proof (first_truthy_spec (map trim (split_lines text))) as H.
  pose proof (split_lines_blank text) as HB.
  pose proof (split_lines_no_LF text) as HL.
  destruct (first_truthy (map trim (split_lines text))) as [line|] eqn:E.
  - destruct H as (before & after & Hm & Hne & Hb).
    apply map_eq_app_cons in Hm.
    destruct Hm as (a1 & l & a2 & Hs & H1 & H2 & H3). subst line before.
    split.
    + split; [exact Hne|]. split; [apply trim_idem|]. split.
      * apply str_forallb_trim. rewrite Hs in HL.
        rewrite forallb_app in HL. apply andb_prop in HL. destruct HL as [_ HL].
        cbn [forallb] in HL. apply andb_prop in HL. exact (proj1 HL).
      * exists a1, l, a2. split; [exact Hs|]. split; [reflexivity|].
        intros b Hin. apply Hb. apply in_map, Hin.
    + intros Ht. exfalso. apply trim_blank in Ht. rewrite <- HB, Hs in Ht.
      rewrite forallb_app in Ht. apply andb_prop in Ht. destruct Ht as [_ Ht].
      cbn [forallb] in Ht. apply andb_prop in Ht. destruct Ht as [Ht _].
      apply trim_blank in Ht. rewrite Ht in Hne. discriminate.
  - split; [|reflexivity].
    apply trim_blank. rewrite <- HB. apply forallb_forall. intros l Hin.
    apply trim_blank. apply H. apply in_map, Hin.
Qed.

(** X4.  [firstNonEmptyLine] returns the trimmed form of the first line that
    is not blank: the result is not empty, is its own trim, holds no line
    feed, and every line before it is blank; it returns null exactly when
    the whole text is blank. *)
Theorem firstNonEmptyLine_result (text : string) :
  match firstNonEmptyLine text with
  | Some line =>
      (line =? "") = false /\ trim line = line /\ no_LF line = true
      /\ exists before l after,
           split_lines text = before ++ l :: after
           /\ line = trim l
           /\ forall b, In b before -> trim b = ""
  | None => trim text = ""
  end
  /\ (trim text = "" -> firstNonEmptyLine text = None).
Proof. apply firstNonEmptyLine_spec. Qed.

(** ** slugify *)

Lemma replace_runs_shape (s : string) :
  forall b,
    str_forallb slug_char (replace_runs b s) = true
    /\ double_hyphen (replace_runs b s) = false
    /\ (b = true -> head_hyphen (replace_runs b s) = false).
Proof.
  induction s as [|c r IH]; intros b; cbn [replace_runs].
  - repeat split.
  - destruct (is_lower_alnum c) eqn:Ec.
    + destruct (IH false) as (H1 & H2 & _).
      cbn [str_forallb double_hyphen head_hyphen]. unfold slug_char at 1.
      rewrite Ec, H1, H2. cbn [orb andb].
      assert (Hh : Ascii.eqb c HYPHEN = false).
      { destruct (Ascii.eqb c HYPHEN) eqn:E; [|reflexivity].
        apply Ascii.eqb_eq in E. subst c. discriminate Ec. }
      rewrite Hh. repeat split.
    + destruct b.
      * destruct (IH true) as (H1 & H2 & H3). repeat split; auto.
      * destruct (IH true) as (H1 & H2 & H3).
        cbn [str_forallb double_hyphen head_hyphen].
        rewrite H1, H2, (H3 eq_refl). repeat split. discriminate.
Qed.

Lemma strip_hyphens_start_shape (s : string) :
  (str_forallb slug_char s = true ->
   str_forallb slug_char (strip_hyphens_start s) = true)
  /\ (double_hyphen s = false -> double_hyphen (strip_hyphens_start s) = false)
  /\ head_hyphen (strip_hyphens_start s) = false.
Proof.
  induction s as [|c r IH]; cbn [strip_hyphens_start]; [repeat split|].
  destruct IH as (I1 & I2 & I3).
  destruct (Ascii.eqb c HYPHEN) eqn:E.
  - cbn [str_forallb double_hyphen]. repeat split.
    + intros H. apply andb_prop in H. apply I1, H.
    + intros H. apply orb_false_elim in H. apply I2, H.
    + exact I3.
  - cbn [head_hyphen]. repeat split; auto.
Qed.

Lemma strip_hyphens_end_head (s : string) (a : ascii) (t : string) :
  strip_hyphens_end s = String a t -> exists t', s = String a t'.
Proof.
  destruct s as [|c r]; cbn [strip_hyphens_end]; [discriminate|].
  destruct (strip_hyphens_end r).
  - destruct (Ascii.eqb c HYPHEN); [discriminate|].
    intros H. inversion H; subst. eauto.
  - intros H. inversion H; subst. eauto.
Qed.

Lemma strip_hyphens_end_shape (s : string) :
  (str_forallb slug_char s = true ->
   str_forallb slug_char (strip_hyphens_end s) = true)
  /\ (double_hyphen s = false -> double_hyphen (strip_hyphens_end s) = false)
  /\ (head_hyphen s = false -> head_hyphen (strip_hyphens_end s) = false)
  /\ last_hyphen (strip_hyphens_end s) = false.
Proof.
  induction s as [|c r IH]; cbn [strip_hyphens_end]; [repeat split|].
  destruct IH as (I1 & I2 & I3 & I4).
  destruct (strip_hyphens_end r) as [|a t] eqn:E.
  - destruct (Ascii.eqb c HYPHEN) eqn:Ec; [repeat split|].
    cbn [str_forallb double_hyphen head_hyphen last_hyphen]. rewrite Ec.
    repeat split; auto.
    intros H. apply andb_prop in H. rewrite (proj1 H). reflexivity.
  - destruct (strip_hyphens_end_head _ _ _ E) as [t' ->].
    cbn [str_forallb double_hyphen head_hyphen last_hyphen] in *.
    repeat split.
    + intros H. apply andb_prop in H. destruct H as [H1 H2].
      rewrite H1. cbn [andb]. apply I1, H2.
    + intros H. apply orb_false_elim in H. destruct H as [H1 H2].
      rewrite H1. cbn [orb]. apply I2, H2.
    + auto.
    + exact I4.
Qed.

Lemma slugify_slug_shaped (value : string) : slug_shaped (slugify value) = true.
Proof.
  unfold slugify.
  set (t := trim (toLowerCase value)).
  destruct (replace_runs_shape t false) as (H1 & H2 & _).
  destruct (strip_hyphens_start_shape (replace_runs false t)) as (S1 & S2 & S3).
  destruct (strip_hyphens_end_shape
              (strip_hyphens_start (replace_runs false t)))
    as (E1 & E2 & E3 & E4).
  set (n := strip_hyphens_end (strip_hyphens_start (replace_runs false t))) in *.
  destruct (n =? "") eqn:En; [reflexivity|].
  unfold slug_shaped. rewrite En, (E1 (S1 H1)), (E2 (S2 H2)), (E3 S3), E4.
  reflexivity.
Qed.

(** X5.  Whatever the title, [slugify] returns a slug: a non-empty string of
    the characters a-z, 0-9 and hyphen that neither starts nor ends with a
    hyphen and has no two hyphens in a row. *)
Theorem slugify_shape (value : string) : slug_shaped (slugify value) = true.
Proof. apply slugify_slug_shaped. Qed.

Lemma slug_char_lower (c : ascii) :
  slug_char c = true -> toLowerCase_char c = c.
Proof.
  destruct c as [[] [] [] [] [] [] [] []]; vm_compute; intros H;
    first [reflexivity | discriminate H].
Qed.

Lemma slug_char_visible (c : ascii) :
  slug_char c = true -> negb (is_ws c) = true.
Proof.
  destruct c as [[] [] [] [] [] [] [] []]; vm_compute; intros H;
    first [reflexivity | discriminate H].
Qed.

Lemma toLowerCase_slug (s : string) :
  str_forallb slug_char s = true -> toLowerCase s = s.
Proof.
  induction s as [|c r IH]; cbn [str_forallb toLowerCase]; [reflexivity|].
  intros H. apply andb_prop in H. destruct H as [H1 H2].
  rewrite (slug_char_lower c H1), (IH H2). reflexivity.
Qed.

Lemma replace_runs_fixed (s : string) :
  forall b,
    str_forallb slug_char s = true ->
    double_hyphen s = false ->
    (b = true -> head_hyphen s = false) ->
    replace_runs b s = s.
Proof.
  induction s as [|c r IH]; intros b H1 H2 H3; cbn [replace_runs]; [reflexivity|].
  cbn [str_forallb double_hyphen head_hyphen] in *.
  apply andb_prop in H1. destruct H1 as [Hc H1].
  apply orb_false_elim in H2. destruct H2 as [Hd H2].
  destruct (is_lower_alnum c) eqn:Ec.
  - f_equal. apply IH; auto. discriminate.
  - unfold slug_char in Hc. rewrite Ec in Hc. cbn [orb] in Hc.
    rewrite Hc in Hd. cbn [andb] in Hd.
    destruct b.
    + rewrite (H3 eq_refl) in Hc. discriminate.
    + apply Ascii.eqb_eq in Hc. subst c. f_equal. apply IH; auto.
Qed.

Lemma strip_hyphens_start_fixed (s : string) :
  head_hyphen s = false -> strip_hyphens_start s = s.
Proof.
  destruct s as [|c r]; cbn [head_hyphen strip_hyphens_start]; [reflexivity|].
  intros ->. reflexivity.
Qed.

Lemma strip_hyphens_end_fixed (s : string) :
  last_hyphen s = false -> strip_hyphens_end s = s.
Proof.
  induction s as [|c r IH]; cbn [last_hyphen strip_hyphens_end]; [reflexivity|].
  destruct r as [|a t].
  - intros ->. reflexivity.
  - intros H. rewrite (IH H). reflexivity.
Qed.

Lemma slugify_fixed (s : string) : slug_shaped s = true -> slugify s = s.
Proof.
  unfold slug_shaped. intros H.
  repeat (apply andb_prop in H; let H' := fresh "H" in destruct H as [H H']).
  apply negb_true_iff in H0, H1, H2, H.
  unfold slugify.
  rewrite (toLowerCase_slug s H3).
  rewrite (trim_visible s)
    by (eapply str_forallb_impl; [apply slug_char_visible | exact H3]).
  rewrite (replace_runs_fixed s false H3 H0) by discriminate.
  rewrite (strip_hyphens_start_fixed s H2), (strip_hyphens_end_fixed s H1).
  rewrite H. reflexivity.
Qed.

(** X6.  [slugify] is idempotent: a slug is its own slug. *)
Theorem slugify_idempotent (value : string) :
  slugify (slugify value) = slugify value.
Proof. apply slugify_fixed, slugify_slug_shaped. Qed.

(** ** escapeHtml *)

Lemma escapeHtml_cons (c : ascii) (r : string) :
  escapeHtml (String c r) = (escape_char c ++ escapeHtml r)%string.
Proof.
  unfold escapeHtml.
  destruct c as [[] [] [] [] [] [] [] []]; reflexivity.
Qed.

Lemma str_forallb_app (p : ascii -> bool) (a b : string) :
  str_forallb p (a ++ b) = str_forallb p a && str_forallb p b.
Proof.
  induction a as [|c r IH]; cbn [append str_forallb]; [reflexivity|].
  rewrite IH, andb_assoc. reflexivity.
Qed.

Lemma escape_char_safe (c : ascii) :
  str_forallb (fun a => negb (html_special a)) (escape_char c) = true.
Proof.
  destruct c as [[] [] [] [] [] [] [] []]; reflexivity.
Qed.

(** X7.  The text [escapeHtml] returns holds none of the characters
    less-than, greater-than, double quote and single quote. *)
Theorem escapeHtml_no_markup (value : string) :
  str_forallb (fun c => negb (html_special c)) (escapeHtml value) = true.
Proof.
  induction value as [|c r IH]; [reflexivity|].
  rewrite escapeHtml_cons, str_forallb_app, escape_char_safe, IH. reflexivity.
Qed.

Lemma escape_char_cases (c : ascii) :
  (escape_char c = String c "" /\ c <> AMPERSAND)
  \/ (exists a t, escape_char c = String AMPERSAND (String a t)).
Proof.
  destruct c as [[] [] [] [] [] [] [] []];
    first [ left; split; [reflexivity | discriminate]
          | right; eexists; eexists; reflexivity ].
Qed.

Lemma escape_char_inj (c d : ascii) (x y : string) :
  (escape_char c ++ x)%string = (escape_char d ++ y)%string ->
  c = d /\ x = y.
Proof.
  unfold escape_char.
  destruct (Ascii.eqb_spec c AMPERSAND) as [->|Hc1];
  [|destruct (Ascii.eqb_spec c LESS) as [->|Hc2];
    [|destruct (Ascii.eqb_spec c GREATER) as [->|Hc3];
      [|destruct (Ascii.eqb_spec c DQUOTE) as [->|Hc4];
        [|destruct (Ascii.eqb_spec c SQUOTE) as [->|Hc5]]]]];
  (destruct (Ascii.eqb_spec d AMPERSAND) as [->|Hd1];
   [|destruct (Ascii.eqb_spec d LESS) as [->|Hd2];
     [|destruct (Ascii.eqb_spec d GREATER) as [->|Hd3];
       [|destruct (Ascii.eqb_spec d DQUOTE) as [->|Hd4];
         [|destruct (Ascii.eqb_spec d SQUOTE) as [->|Hd5]]]]]);
  cbn [append]; intros H;
  try discriminate H;
  inversion H; subst;
  try (split; reflexivity);
  exfalso;
  match goal with
  | Hn : ?a <> ?b |- _ => apply Hn; reflexivity
  end.
Qed.

(** X8.  [escapeHtml] is injective: two texts with the same escaped form are
    the same text. *)
Theorem escapeHtml_injective (a b : string) :
  escapeHtml a = escapeHtml b -> a = b.
Proof.
  revert b. induction a as [|c r IH]; intros [|d r'] H.
  - reflexivity.
  - exfalso. rewrite escapeHtml_cons in H.
    destruct (escape_char_cases d) as [[E _]|(x & t & E)]; rewrite E in H;
      discriminate H.
  - exfalso. rewrite escapeHtml_cons in H.
    destruct (escape_char_cases c) as [[E _]|(x & t & E)]; rewrite E in H;
      discriminate H.
  - rewrite !escapeHtml_cons in H. apply escape_char_inj in H.
    destruct H as [-> H]. f_equal. apply IH, H.
Qed.

Lemma parseFrontMatter_plain_text_witness :
  parseFrontMatter "Buy milk"
  = {| meta := []; body := "Buy milk" |}.
Proof. apply parseFrontMatter_plain_text. reflexivity. Defined.

Lemma escapeHtml_injective_witness :
  escapeHtml "a<b" = escapeHtml ("a" ++ "<b") /\ "a<b" = ("a" ++ "<b")%string.
Proof.
  split; [reflexivity|].
  apply (escapeHtml_injective "a<b" ("a" ++ "<b")). reflexivity.
Defined.

(** * Further properties of the index store and of readState *)


Lemma Object_keys_set_add {V} (o : Record_ V) (k : string) (v : V) :
  Object_keys (obj_set o k v) = Set_add (Object_keys o) k.
Proof. apply Object_keys_obj_set. Qed.

Lemma fold_set_Object_keys {V} (f : Column -> V) (cols : list Column) :
  forall o,
    Object_keys (fold_left (fun o c => obj_set o (column_id c) (f c)) cols o)
    = fold_left Set_add (map column_id cols) (Object_keys o).
Proof.
  induction cols as [|c r IH]; intros o; cbn [fold_left map]; [reflexivity|].
  rewrite IH, Object_keys_set_add. reflexivity.
Qed.

Lemma Set_add_NoDup (s : list string) (x : string) :
  NoDup s -> NoDup (Set_add s x).
Proof.
  intros H. unfold Set_add. destruct (includes s x) eqn:E; [exact H|].
  apply includes_false in E.
  apply NoDup_app; [exact H | constructor; [intros []|constructor] |].
  intros y Hy [<-|[]]. exact (E Hy).
Qed.

Lemma fold_Set_add_NoDup (l : list string) :
  forall s, NoDup s -> NoDup (fold_left Set_add l s).
Proof.
  induction l as [|x r IH]; intros s H; cbn [fold_left]; [exact H|].
  apply IH, Set_add_NoDup, H.
Qed.

Lemma column_keys_NoDup (cols : list Column) : NoDup (column_keys cols).
Proof. apply fold_Set_add_NoDup. constructor. Qed.

Lemma column_keys_In (cols : list Column) (k : string) :
  In k (column_keys cols) <-> In k (map column_id cols).
Proof.
  unfold column_keys. rewrite <- !includes_In.
  rewrite includes_fold_Set_add. cbn. tauto.
Qed.

(** An object with distinct keys is the table of its lookups. *)
Lemma obj_table (o : Record_ (list string)) :
  NoDup (Object_keys o) ->
  map (fun k => (k, list_at o k)) (Object_keys o) = o.
Proof.
  intros H. unfold Object_keys. rewrite map_map.
  rewrite <- (map_id o) at 2. apply map_ext_in. intros [k v] Hin.
  cbn [fst]. unfold list_at. rewrite (In_obj_get o k v H Hin). reflexivity.
Qed.

Lemma obj_set_table (g : string -> list string) (l : list string) (k : string) :
  obj_set (map (fun k => (k, g k)) l) k (g k)
  = map (fun k => (k, g k)) (Set_add l k).
Proof.
  unfold Set_add. induction l as [|x r IH]; cbn [map obj_set includes existsb app].
  - reflexivity.
  - rewrite (String.eqb_sym k x). destruct (x =? k) eqn:E; cbn [orb].
    + apply String.eqb_eq in E. subst. reflexivity.
    + unfold includes in IH. rewrite IH.
      destruct (existsb (String.eqb k) r); reflexivity.
Qed.

Lemma fold_set_table (g : string -> list string) (cols : list Column) :
  forall l,
    fold_left (fun o c => obj_set o (column_id c) (g (column_id c))) cols
      (map (fun k => (k, g k)) l)
    = map (fun k => (k, g k)) (fold_left Set_add (map column_id cols) l).
Proof.
  induction cols as [|c r IH]; intros l; cbn [fold_left map]; [reflexivity|].
  rewrite obj_set_table. apply IH.
Qed.

(** An order whose keys are the column keys is what normalization makes of
    it. *)
Lemma fold_list_at_fixed (cols : list Column) (o : Record_ (list string)) :
  Object_keys o = column_keys cols ->
  fold_left (fun o' c => obj_set o' (column_id c) (list_at o (column_id c)))
    cols []
  = o.
Proof.
  intros H.
  pose proof (fold_set_table (list_at o) cols []) as E.
  cbn [map] in E. rewrite E. clear E.
  fold (column_keys cols). rewrite <- H. apply obj_table.
  rewrite H. apply column_keys_NoDup.
Qed.

Lemma normalized_written_fixed (index : IndexData) :
  Object_keys (order index) = column_keys (columns index) ->
  normalized_written index = index.
Proof.
  intros H. unfold normalized_written. rewrite (fold_list_at_fixed _ _ H).
  destruct index; reflexivity.
Qed.

Lemma normalizeIndex_keys (raw : jsval) (index : IndexData) :
  normalizeIndex raw = Some index ->
  Object_keys (order index) = column_keys (columns index).
Proof.
  unfold normalizeIndex.
  destruct raw; try discriminate; intros H; inversion H; subst; clear H;
    cbn [order columns]; cbv zeta;
    first [ reflexivity
          | match goal with
            | |- Object_keys (fold_left ?f ?c []) = _ =>
                exact (fold_set_Object_keys _ c [])
            end ].
Qed.

(** X10.  [normalizeIndex] is idempotent through the file: an index it
    returns that has no column of id [__proto__], written as JSON and
    normalized again, is the same index. *)
Theorem normalizeIndex_idempotent (raw : jsval) (index : IndexData) :
  normalizeIndex raw = Some index ->
  no_proto_column (columns index) ->
  normalizeIndex (json_of_index index) = Some index.
Proof.
  intros H _.
  rewrite normalizeIndex_written
    by (eapply normalizeIndex_columns_nonempty; exact H).
  f_equal. apply normalized_written_fixed.
  eapply normalizeIndex_keys; exact H.
Qed.

Section IndexStoreMore.
Context {J : Json}.

Lemma current_index_keys (fs : FileSystem) :
  Object_keys (order (current_index fs))
  = column_keys (columns (current_index fs)).
Proof.
  unfold current_index, loaded_index.
  destruct (index_file fs) as [content|]; [|reflexivity].
  destruct (JSON_parse content) as [parsed|]; [|reflexivity].
  destruct (normalizeIndex parsed) as [index|] eqn:E; [|reflexivity].
  eapply normalizeIndex_keys; exact E.
Qed.

Lemma current_index_fixed (fs : FileSystem) :
  normalized_written (current_index fs) = current_index fs.
Proof. apply normalized_written_fixed, current_index_keys. Qed.

Lemma loaded_index_dirs (fs fs' : FileSystem) :
  index_file fs = index_file fs' -> loaded_index fs = loaded_index fs'.
Proof. unfold loaded_index. intros ->. reflexivity. Qed.

Lemma discovered_ids_dirs (fs fs' : FileSystem) :
  cards_dir fs = cards_dir fs' -> discovered_ids fs = discovered_ids fs'.
Proof. unfold discovered_ids. intros ->. reflexivity. Qed.

Lemma loaded_card_dirs (fs fs' : FileSystem) (cardId : string) :
  cards_dir fs = cards_dir fs' -> loaded_card fs cardId = loaded_card fs' cardId.
Proof.
  intros H. unfold loaded_card, loadCard, try_catch, bind, readFile_card,
    stat_card, toISOString, ret, throw.
  rewrite <- H.
  destruct (obj_get (cards_dir fs) (cardId ++ ".md")) as [[f|]|] eqn:E;
    [|reflexivity..].
  cbv beta iota. rewrite <- H, E.
  destruct (meta_value (meta (parseFrontMatter (data f))) "createdAt")
    as [c|]; [destruct (c =? "")|];
    destruct (meta_value (meta (parseFrontMatter (data f))) "updatedAt")
      as [u|]; try destruct (u =? "");
    destruct (ctime f), (mtime f); reflexivity.
Qed.

Lemma note_card_dirs (fs fs' : FileSystem) :
  cards_dir fs = cards_dir fs' ->
  forall acc x, note_card fs acc x = note_card fs' acc x.
Proof.
  intros H acc x. unfold note_card. rewrite (loaded_card_dirs fs fs' x H).
  reflexivity.
Qed.

Lemma fold_left_ext_in {A B} (f g : A -> B -> A) (l : list B) :
  (forall a x, In x l -> f a x = g a x) ->
  forall a, fold_left f l a = fold_left g l a.
Proof.
  induction l as [|x r IH]; intros H a; cbn [fold_left]; [reflexivity|].
  rewrite H by (left; reflexivity). apply IH.
  intros a' y Hy. apply H. right. exact Hy.
Qed.

Lemma collect_cards_dirs (fs fs' : FileSystem) (cols : list Column)
  (o o' : Record_ (list string)) :
  cards_dir fs = cards_dir fs' ->
  (forall c, In c cols -> list_at o (column_id c) = list_at o' (column_id c)) ->
  collect_cards fs cols o = collect_cards fs' cols o'.
Proof.
  intros H Ho. unfold collect_cards. f_equal.
  apply fold_left_ext_in. intros acc c Hc. rewrite (Ho c Hc).
  apply fold_left_ext_in. intros a x _. apply note_card_dirs, H.
Qed.
End IndexStoreMore.

Section SelfHealing.
Context {J : Json} {RT : JsonRoundtrip J}.

Lemma loaded_after_readIndex (fs : FileSystem) :
  loaded_index (after_readIndex fs) = Some (current_index fs).
Proof.
  unfold current_index, after_readIndex.
  destruct (loaded_index fs) as [index|] eqn:E.
  - unfold loaded_index in *. cbn [index_file]. exact E.
  - unfold loaded_index. cbn [index_file]. rewrite JSON_roundtrip.
    reflexivity.
Qed.

Lemma current_after_readIndex (fs : FileSystem) :
  current_index (after_readIndex fs) = current_index fs.
Proof.
  unfold current_index at 1. rewrite loaded_after_readIndex. reflexivity.
Qed.

Lemma after_readIndex_fixed (fs : FileSystem) (index : IndexData) :
  storage_dirs fs = true -> loaded_index fs = Some index ->
  after_readIndex fs = fs.
Proof.
  intros Hd Hl. unfold after_readIndex. rewrite Hl, <- Hd.
  destruct fs; reflexivity.
Qed.

Lemma after_readIndex_idem (fs : FileSystem) :
  after_readIndex (after_readIndex fs) = after_readIndex fs.
Proof.
  eapply after_readIndex_fixed; [reflexivity | apply loaded_after_readIndex].
Qed.

(** X9.  [readIndex] never throws and heals the store.  It returns an index
    with at least one column, whose order keys are the column ids when no
    column has the id [__proto__]: the stored index when the file is
    usable, which it leaves alone, and otherwise an index that it writes
    to the file.  A second [readIndex] returns the same index and changes
    nothing; the card files are never touched. *)
Theorem readIndex_self_healing (fs : FileSystem) :
  exists index fs1,
    readIndex fs = (Ok index, fs1)
    /\ readIndex fs1 = (Ok index, fs1)
    /\ columns index <> []
    /\ (no_proto_column (columns index) ->
        forall k, In k (Object_keys (order index))
                  <-> In k (map column_id (columns index)))
    /\ (forall stored, loaded_index fs = Some stored ->
          index = stored /\ index_file fs1 = index_file fs)
    /\ (loaded_index fs = None ->
          index_file fs1 = Some (JSON_stringify index))
    /\ cards_dir fs1 = cards_dir fs.
Proof.
  exists (current_index fs), (after_readIndex fs).
  split; [apply readIndex_eq|].
  split; [rewrite readIndex_eq, current_after_readIndex, after_readIndex_idem;
          reflexivity|].
  split; [apply current_index_columns_nonempty|].
  split; [intros _ k; rewrite current_index_keys; apply column_keys_In|].
  unfold current_index, after_readIndex. cbn [index_file cards_dir].
  split; [|split; [|reflexivity]].
  - intros stored ->. split; reflexivity.
  - intros ->. reflexivity.
Qed.

End SelfHealing.

Lemma filter_all {A} (p : A -> bool) (l : list A) :
  (forall x, In x l -> p x = true) -> filter p l = l.
Proof.
  induction l as [|x r IH]; intros H; cbn [filter]; [reflexivity|].
  rewrite (H x) by (left; reflexivity). f_equal. apply IH.
  intros y Hy. apply H. right. exact Hy.
Qed.


Lemma fallback_id_In (index : IndexData) :
  columns index <> [] -> In (fallback_id index) (map column_id (columns index)).
Proof.
  unfold fallback_id. destruct (columns index) as [|c r]; [contradiction|].
  intros _. left. reflexivity.
Qed.

Lemma kept_order_keys (index : IndexData) (ids : list string) :
  Object_keys (kept_order index ids) = column_keys (columns index).
Proof. unfold kept_order. rewrite fold_set_Object_keys. reflexivity. Qed.

Lemma reconciled_order_Object_keys (index : IndexData) (ids : list string) :
  columns index <> [] ->
  Object_keys (reconciled_order index ids) = column_keys (columns index).
Proof.
  intros Hne. unfold reconciled_order.
  destruct (unlisted index ids); [apply kept_order_keys|].
  rewrite Object_keys_set_add, kept_order_keys. unfold Set_add.
  replace (includes (column_keys (columns index)) (fallback_id index))
    with true; [reflexivity|].
  symmetry. apply includes_In, column_keys_In, fallback_id_In, Hne.
Qed.

Lemma reconciled_covers (index : IndexData) (ids : list string) (x : string) :
  columns index <> [] -> In x ids ->
  exists c, In c (columns index)
            /\ In x (list_at (reconciled_order index ids) (column_id c)).
Proof.
  intros Hne Hx.
  destruct (listed index ids x) eqn:El.
  - unfold listed in El. apply existsb_exists in El.
    destruct El as (c & Hc & Hin). exists c. split; [exact Hc|].
    rewrite reconciled_order_at. apply in_or_app. left.
    rewrite kept_order_at.
    replace (includes (map column_id (columns index)) (column_id c))
      with true
      by (symmetry; apply includes_In, in_map, Hc).
    apply includes_In, Hin.
  - destruct (columns index) as [|c0 r] eqn:Ec; [contradiction|].
    exists c0. split; [left; reflexivity|].
    rewrite reconciled_order_at. apply in_or_app. right.
    unfold fallback_id. rewrite Ec. rewrite String.eqb_refl.
    unfold unlisted. apply filter_In. split; [exact Hx|].
    rewrite El. reflexivity.
Qed.



Section Settled.
Context {J : Json} {RT : JsonRoundtrip J}.

Lemma after_readState_cards (fs : FileSystem) :
  cards_dir (after_readState fs) = cards_dir fs.
Proof.
  unfold after_readState.
  destruct (drift (current_index fs) (discovered_ids fs)); reflexivity.
Qed.




End Settled.

Lemma flat_map_ext_in {A B} (f g : A -> list B) (l : list A) :
  (forall a, In a l -> f a = g a) -> flat_map f l = flat_map g l.
Proof.
  induction l as [|a r IH]; intros H; cbn [flat_map]; [reflexivity|].
  rewrite (H a) by (left; reflexivity). f_equal. apply IH.
  intros b Hb. apply H. right. exact Hb.
Qed.

Lemma flat_map_filter {A} (p : string -> bool) (f : A -> list string)
  (l : list A) :
  flat_map (fun a => filter p (f a)) l = filter p (flat_map f l).
Proof.
  induction l as [|a r IH]; cbn [flat_map]; [reflexivity|].
  rewrite filter_app, IH. reflexivity.
Qed.

Lemma flat_map_reconciled (index : IndexData) (ids : list string) :
  NoDup (map column_id (columns index)) -> columns index <> [] ->
  Permutation
    (flat_map (fun c => list_at (reconciled_order index ids) (column_id c))
       (columns index))
    (flat_map (fun c => kept index ids (column_id c)) (columns index)
     ++ unlisted index ids).
Proof.
  intros Hnd Hne.
  assert (Hat : forall c, In c (columns index) ->
            list_at (reconciled_order index ids) (column_id c)
            = kept index ids (column_id c)
              ++ (if column_id c =? fallback_id index
                  then unlisted index ids else [])).
  { intros c Hc. rewrite reconciled_order_at, kept_order_at.
    replace (includes (map column_id (columns index)) (column_id c))
      with true
      by (symmetry; apply includes_In, in_map, Hc).
    reflexivity. }
  rewrite (flat_map_ext_in _ _ _ Hat). clear Hat.
  unfold fallback_id.
  destruct (columns index) as [|c0 r]; [contradiction|].
  cbn [flat_map]. rewrite String.eqb_refl.
  cbn [map] in Hnd. inversion Hnd as [|? ? Hn0 Hr]; subst.
  rewrite (flat_map_ext_in
             (fun c => kept index ids (column_id c)
                       ++ (if column_id c =? column_id c0
                           then unlisted index ids else []))
             (fun c => kept index ids (column_id c)) r).
  - rewrite <- !app_assoc. apply Permutation_app_head.
    apply Permutation_app_comm.
  - intros c Hc. destruct (column_id c =? column_id c0) eqn:E.
    + apply String.eqb_eq in E. exfalso. apply Hn0. rewrite <- E.
      apply in_map, Hc.
    + apply app_nil_r.
Qed.

Lemma discovered_ids_NoDup {J : Json} (fs : FileSystem) :
  NoDup (discovered_ids fs).
Proof. unfold discovered_ids, card_file_ids, Set_of. apply Set_of_aux_NoDup. Qed.

Section ReadStateMore.
Context {J : Json}.


Lemma note_card_inv (fs : FileSystem) (acc : Record_ CardData * list string)
  (y : string) :
  (forall x, obj_get (fst acc) x
             = if includes (snd acc) x then loaded_card fs x else None) ->
  (forall x, obj_get (fst (note_card fs acc y)) x
             = if includes (snd (note_card fs acc y)) x
               then loaded_card fs x else None)
  /\ (forall x, includes (snd (note_card fs acc y)) x
                = includes (snd acc) x || (x =? y)).
Proof.
  intros H. unfold note_card.
  destruct (includes (snd acc) y) eqn:Ey.
  - split; [exact H|]. intros x. destruct (x =? y) eqn:E.
    + apply String.eqb_eq in E. subst. rewrite Ey. reflexivity.
    + rewrite orb_false_r. reflexivity.
  - destruct (loaded_card fs y) as [c|] eqn:El; cbn [fst snd].
    + split; [|intros x; apply includes_Set_add].
      intros x. rewrite obj_get_set, includes_Set_add, H.
      rewrite (String.eqb_sym y x). destruct (x =? y) eqn:E.
      * apply String.eqb_eq in E. subst. rewrite orb_true_r, El. reflexivity.
      * rewrite orb_false_r. reflexivity.
    + split; [|intros x; apply includes_Set_add].
      intros x. rewrite includes_Set_add, H. destruct (x =? y) eqn:E.
      * apply String.eqb_eq in E. subst. rewrite Ey, El. reflexivity.
      * rewrite orb_false_r. reflexivity.
Qed.

Lemma fold_note_card_inv (fs : FileSystem) (l : list string) :
  forall acc,
    (forall x, obj_get (fst acc) x
               = if includes (snd acc) x then loaded_card fs x else None) ->
    (forall x, obj_get (fst (fold_left (note_card fs) l acc)) x
               = if includes (snd (fold_left (note_card fs) l acc)) x
                 then loaded_card fs x else None)
    /\ (forall x, includes (snd (fold_left (note_card fs) l acc)) x
                  = includes (snd acc) x || includes l x).
Proof.
  induction l as [|y r IH]; intros acc H; cbn [fold_left].
  - split; [exact H|]. intros x. cbn. rewrite orb_false_r. reflexivity.
  - destruct (note_card_inv fs acc y H) as [H1 H2].
    destruct (IH _ H1) as [I1 I2]. split; [exact I1|].
    intros x. rewrite I2, H2. cbn [includes existsb].
    rewrite <- orb_assoc. reflexivity.
Qed.

Lemma fold_columns_inv (fs : FileSystem) (o : Record_ (list string))
  (cols : list Column) :
  forall acc,
    (forall x, obj_get (fst acc) x
               = if includes (snd acc) x then loaded_card fs x else None) ->
    let final :=
      fold_left
        (fun acc c => fold_left (note_card fs) (list_at o (column_id c)) acc)
        cols acc in
    (forall x, obj_get (fst final) x
               = if includes (snd final) x then loaded_card fs x else None)
    /\ (forall x, includes (snd final) x
                  = includes (snd acc) x
                    || existsb (fun c => includes (list_at o (column_id c)) x)
                         cols).
Proof.
  induction cols as [|c r IH]; intros acc H; cbn [fold_left].
  - split; [exact H|]. intros x. cbn. rewrite orb_false_r. reflexivity.
  - destruct (fold_note_card_inv fs (list_at o (column_id c)) acc H)
      as [H1 H2].
    destruct (IH _ H1) as [I1 I2]. split; [exact I1|].
    intros x. rewrite I2, H2. cbn [existsb]. rewrite <- orb_assoc.
    reflexivity.
Qed.

Lemma collect_cards_get (fs : FileSystem) (cols : list Column)
  (o : Record_ (list string)) (x : string) :
  obj_get (collect_cards fs cols o) x
  = if existsb (fun c => includes (list_at o (column_id c)) x) cols
    then loaded_card fs x else None.
Proof.
  unfold collect_cards.
  destruct (fold_columns_inv fs o cols ([], [])) as [H1 H2];
    [intros y; reflexivity|].
  rewrite H1, H2. reflexivity.
Qed.




(** X13.  When the stored index names every column once and lists no id
    twice, the lists of the state [readState] returns, column after column,
    hold each card file of the directory exactly once and nothing else. *)
Theorem readState_shows_each_card_once (fs : FileSystem) :
  NoDup (map column_id (columns (current_index fs))) ->
  NoDup (flat_map (fun c => list_at (order (current_index fs)) (column_id c))
           (columns (current_index fs))) ->
  exists st fs1,
    readState fs = (Ok st, fs1)
    /\ Permutation
         (flat_map (fun c => list_at (state_order st) (column_id c))
            (state_columns st))
         (discovered_ids fs)
    /\ (forall x, In x (discovered_ids fs)
                  <-> exists f,
                        In ((x ++ ".md")%string, FileNode f) (cards_dir fs)).
Proof.
  intros Hcols Hlists.
  eexists. eexists. split; [apply readState_eq|].
  cbn [state_order state_columns].
  split; [|intros x; apply discovered_ids_In].
  set (index := current_index fs) in *. set (ids := discovered_ids fs).
  assert (Hne : columns index <> []) by apply current_index_columns_nonempty.
  apply NoDup_Permutation.
  - eapply Permutation_NoDup;
      [apply Permutation_sym, flat_map_reconciled; assumption|].
    apply NoDup_app.
    + unfold kept.
      rewrite (flat_map_filter (fun id => includes ids id)
                 (fun c => list_at (order index) (column_id c))).
      apply NoDup_filter, Hlists.
    + unfold unlisted. apply NoDup_filter, discovered_ids_NoDup.
    + intros x Hx Hu. apply in_flat_map in Hx. destruct Hx as (c & Hc & Hx).
      apply kept_In in Hx. apply unlisted_In in Hu.
      exact (proj2 Hu c Hc (proj1 Hx)).
  - apply discovered_ids_NoDup.
  - intros x. split.
    + intros Hx. apply in_flat_map in Hx. destruct Hx as (c & _ & Hx).
      eapply reconciled_order_within, Hx.
    + intros Hx. apply in_flat_map.
      destruct (reconciled_covers index ids x Hne Hx) as (c & Hc & Hin).
      exists c. split; assumption.
Qed.
End ReadStateMore.

Lemma normalizeIndex_idempotent_witness :
  let raw :=
    JObj [("columns",
           JArr [JObj [("id", JStr "a"); ("title", JStr "A")];
                 JNum (number_of_nat 7);
                 JObj [("id", JStr "a"); ("title", JStr "Again")]]);
          ("order",
           JObj [("a", JArr [JStr "x"; JNull; JStr "y"]);
                 ("zzz", JArr [JStr "w"])])] in
  exists index,
    normalizeIndex raw = Some index
    /\ no_proto_column (columns index)
    /\ normalizeIndex (json_of_index index) = Some index.
Proof.
  intros raw. eexists. split; [reflexivity|].
  assert (Hp : no_proto_column
                 [ {| column_id := "a"; column_title := "A" |};
                   {| column_id := "a"; column_title := "Again" |} ]).
  { intros [H|[H|[]]]; discriminate H. }
  split; [exact Hp|].
  apply (normalizeIndex_idempotent raw); [reflexivity | exact Hp].
Defined.

Lemma readIndex_self_healing_witness :
  let fs := example_fs false (Some None) [] in
  exists index fs1,
    readIndex fs = (Ok index, fs1)
    /\ readIndex fs1 = (Ok index, fs1)
    /\ index_file fs1 = Some (JSON_stringify index).
Proof.
  intros fs.
  destruct (@readIndex_self_healing example_json example_json_roundtrip fs)
    as (index & fs1 & H1 & H2 & _ & _ & _ & H6 & _).
  exists index, fs1. split; [exact H1|]. split; [exact H2|].
  apply H6. reflexivity.
Defined.


Lemma readState_shows_each_card_once_witness :
  let card := FileNode {| data := "Hello";
                          ctime := Some "2024-01-01T00:00:00.000Z";
                          mtime := Some "2024-01-01T00:00:00.000Z" |} in
  let fs := example_fs true (Some (Some (one_column_json ["c2"; "gone"])))
              [("c1.md", card); ("notes.txt", card); ("c2.md", card)] in
  exists st fs1,
    readState fs = (Ok st, fs1)
    /\ Permutation
         (flat_map (fun c => list_at (state_order st) (column_id c))
            (state_columns st))
         ["c1"; "c2"].
Proof.
  intros card fs.
  destruct (@readState_shows_each_card_once example_json fs)
    as (st & fs1 & H1 & H2 & _).
  - repeat (constructor; [cbn; intuition discriminate|]). constructor.
  - repeat (constructor; [cbn; intuition discriminate|]). constructor.
  - exists st, fs1. split; [exact H1 | exact H2].
Defined.

(** * Further properties of the card operations *)


Lemma filter_idem {A} (p : A -> bool) (l : list A) :
  filter p (filter p l) = filter p l.
Proof.
  apply filter_all. intros x Hx. apply filter_In in Hx. exact (proj2 Hx).
Qed.

Lemma without_splice_insert (l : list string) (start : number) (x : string) :
  filter (fun id => negb (id =? x)) (splice_insert l start x)
  = filter (fun id => negb (id =? x)) l.
Proof.
  unfold splice_insert. rewrite filter_app. cbn [filter].
  rewrite String.eqb_refl. cbn [negb]. rewrite <- filter_app, firstn_skipn.
  reflexivity.
Qed.

Lemma count_splice_insert (l : list string) (start : number) (x : string) :
  count_occ string_dec (splice_insert l start x) x
  = S (count_occ string_dec l x).
Proof.
  unfold splice_insert. rewrite count_occ_app. cbn [count_occ].
  destruct (string_dec x x) as [_|n]; [|contradiction].
  rewrite <- plus_n_Sm, <- count_occ_app, firstn_skipn. reflexivity.
Qed.

Lemma count_without (l : list string) (x : string) :
  count_occ string_dec (filter (fun id => negb (id =? x)) l) x = 0.
Proof.
  apply count_occ_not_In. intros H. apply removed_In in H.
  destruct H as [_ H]. apply H. reflexivity.
Qed.

Section MoveCardFrame.
Context {J : Json}.

(** X17.  [moveCard] touches no other card.  Over an index without a column
    of id [__proto__], and for column ids that the order map has as keys
    or does not inherit from [Object.prototype], the call succeeds, and in
    every list of the order the ids other than the moved one stay as they
    were and in their order, the lists of the other keys are unchanged,
    the moved id is gone from the source, and the destination holds it
    once more than before (exactly once when the move stays in one
    column). *)
Theorem moveCard_keeps_other_cards (data : Record_ jsval)
  (cardId fromColumnId toColumnId : string) (toIndex : number)
  (fs : FileSystem) :
  nonempty_string (field data "cardId") = Some cardId ->
  nonempty_string (field data "fromColumnId") = Some fromColumnId ->
  nonempty_string (field data "toColumnId") = Some toColumnId ->
  number_or_null (field data "toIndex") = Some toIndex ->
  let index := current_index fs in
  no_proto_column (columns index) ->
  listable (order index) fromColumnId = true ->
  listable (order index) toColumnId = true ->
  let without := filter (fun id => negb (id =? cardId)) in
  exists written,
    moveCard data fs = (Ok tt, with_index fs (JSON_stringify written))
    /\ columns written = columns index
    /\ (forall k, listable (order index) k = true ->
          listable (order written) k = true
          /\ without (list_at (order written) k)
             = without (list_at (order index) k))
    /\ count_occ string_dec (list_at (order written) toColumnId) cardId
       = (if toColumnId =? fromColumnId then 1
          else S (count_occ string_dec
                    (list_at (order index) toColumnId) cardId))
    /\ (toColumnId <> fromColumnId ->
        ~ In cardId (list_at (order written) fromColumnId))
    /\ (forall k, listable (order index) k = true ->
          k <> toColumnId -> k <> fromColumnId ->
          list_at (order written) k = list_at (order index) k).
Proof.
  intros Hcard Hfrom Hto Hidx index _ Lfrom Lto without.
  exists (index_after_move index cardId fromColumnId toColumnId toIndex).
  split.
  { apply moveCard_eq; assumption. }
  split; [reflexivity|].
  unfold index_after_move. cbn [order]. fold index.
  set (removed := filter (fun id => negb (id =? cardId))
                    (list_at (order index) fromColumnId)).
  set (order1 := obj_set (order index) fromColumnId removed).
  assert (H1 : forall k, list_at order1 k
                         = if fromColumnId =? k then removed
                           else list_at (order index) k)
    by (intros k; apply list_at_set).
  assert (Hw1 : forall k, without (list_at order1 k)
                          = without (list_at (order index) k)).
  { intros k. rewrite H1. destruct (String.eqb_spec fromColumnId k) as [<-|_];
      [|reflexivity]. apply filter_idem. }
  split.
  { intros k Lk. split.
    { rewrite listable_set. unfold order1. rewrite listable_set, Lk.
      now rewrite !orb_true_r. }
    rewrite list_at_set.
    destruct (String.eqb_spec toColumnId k) as [<-|_]; [|apply Hw1].
    unfold without. rewrite without_splice_insert. apply Hw1. }
  split.
  { rewrite list_at_set, String.eqb_refl, count_splice_insert, H1.
    rewrite (String.eqb_sym toColumnId fromColumnId).
    destruct (fromColumnId =? toColumnId); [|reflexivity].
    unfold removed. rewrite count_without. reflexivity. }
  split.
  { intros Hne. rewrite list_at_set.
    rewrite (proj2 (String_eqb_false_iff toColumnId fromColumnId) Hne).
    rewrite H1, String.eqb_refl. intros H. apply removed_In in H.
    destruct H as [_ H]. apply H. reflexivity. }
  intros k _ Hk1 Hk2. rewrite list_at_set.
  rewrite (proj2 (String_eqb_false_iff toColumnId k)) by congruence.
  rewrite H1.
  rewrite (proj2 (String_eqb_false_iff fromColumnId k)) by congruence.
  reflexivity.
Qed.
End MoveCardFrame.

Lemma In_obj_set {V} (o : Record_ V) (k : string) (v : V) :
  In (k, v) (obj_set o k v).
Proof. apply obj_get_In, obj_get_set_same. Qed.


Lemma fallback_id_columns (a b : IndexData) :
  columns a = columns b -> fallback_id a = fallback_id b.
Proof. unfold fallback_id. intros ->. reflexivity. Qed.

(** The list [readState] returns for a column of an index that was
    written. *)
Lemma written_list (written : IndexData) (ids : list string) (k : string) :
  In k (map column_id (columns written)) ->
  list_at (reconciled_order (normalized_written written) ids) k
  = filter (fun id => includes ids id) (list_at (order written) k)
    ++ (if k =? fallback_id written
        then unlisted (normalized_written written) ids else []).
Proof.
  intros Hk. rewrite reconciled_order_at, kept_order_at.
  cbn [columns normalized_written].
  replace (includes (map column_id (columns written)) k) with true
    by (symmetry; apply includes_In, Hk).
  unfold kept. rewrite normalized_written_at.
  replace (includes (map column_id (columns written)) k) with true
    by (symmetry; apply includes_In, Hk).
  reflexivity.
Qed.

Section WrittenState.
Context {J : Json} {RT : JsonRoundtrip J}.

Lemma readState_written (fs : FileSystem) (written : IndexData) :
  columns written <> [] ->
  let ids := discovered_ids fs in
  let settled := reconciled_order (normalized_written written) ids in
  readState (with_index fs (JSON_stringify written))
  = (Ok {| state_columns := columns written;
           state_order := settled;
           cards := collect_cards fs (columns written) settled |},
     after_readState (with_index fs (JSON_stringify written))).
Proof.
  intros Hne ids settled. rewrite readState_eq.
  rewrite (current_index_written fs written Hne).
  rewrite (discovered_ids_dirs (with_index fs (JSON_stringify written)) fs)
    by reflexivity.
  cbn [columns normalized_written]. fold ids. fold settled.
  f_equal. f_equal. f_equal.
  apply collect_cards_dirs; [|reflexivity].
  rewrite after_readState_cards. reflexivity.
Qed.
End WrittenState.

Section LoadedCard.
Context {J : Json}.

End LoadedCard.


Section CreateCard.
Context {J : Json} {RT : JsonRoundtrip J}.

End CreateCard.


Lemma order_without_at (cardId : string) (cols : list Column) (k : string) :
  forall o,
    list_at (order_without cols o cardId) k
    = if includes (map column_id cols) k
      then filter (fun id => negb (id =? cardId)) (list_at o k)
      else list_at o k.
Proof.
  unfold order_without.
  induction cols as [|c r IH]; intros o; cbn [fold_left map includes existsb];
    [reflexivity|].
  rewrite IH, list_at_set. fold (includes (map column_id r) k).
  rewrite (String.eqb_sym k (column_id c)).
  destruct (column_id c =? k) eqn:E; cbn [orb].
  - apply String.eqb_eq in E. subst k.
    destruct (includes (map column_id r) (column_id c)); [|reflexivity].
    apply filter_idem.
  - reflexivity.
Qed.

Lemma obj_get_delete {V} (o : Record_ V) (k k' : string) :
  obj_get (obj_delete o k) k' = if k =? k' then None else obj_get o k'.
Proof.
  induction o as [|[a v] r IH]; cbn [obj_delete obj_get].
  - destruct (k =? k'); reflexivity.
  - destruct (String.eqb_spec a k) as [->|Hne].
    + rewrite IH. destruct (String.eqb_spec k k'); reflexivity.
    + cbn [obj_get]. rewrite IH.
      destruct (String.eqb_spec a k') as [->|_]; [|reflexivity].
      rewrite (proj2 (String_eqb_false_iff k k')) by congruence. reflexivity.
Qed.

Lemma without_file_get (dir : Record_ DirEntry) (name name' : string) :
  name' <> name ->
  obj_get (without_file dir name) name' = obj_get dir name'.
Proof.
  intros Hne. unfold without_file.
  destruct (obj_get dir name) as [[f|]|]; try reflexivity.
  rewrite obj_get_delete.
  rewrite (proj2 (String_eqb_false_iff name name')) by congruence.
  reflexivity.
Qed.

Lemma append_inj_r (a b s : string) :
  (a ++ s)%string = (b ++ s)%string -> a = b.
Proof.
  revert b. induction a as [|c r IH]; intros [|d r'] H; cbn [append] in H.
  - reflexivity.
  - exfalso. apply (f_equal String.length) in H. cbn [String.length] in H.
    rewrite append_length in H. lia.
  - exfalso. apply (f_equal String.length) in H. cbn [String.length] in H.
    rewrite append_length in H. lia.
  - inversion H. f_equal. apply IH. assumption.
Qed.

Lemma Set_of_aux_without (c : string) (l : list string) :
  forall seen seen',
    (forall y, y <> c -> includes seen y = includes seen' y) ->
    Set_of_aux seen (filter (fun id => negb (id =? c)) l)
    = filter (fun id => negb (id =? c)) (Set_of_aux seen' l).
Proof.
  induction l as [|x r IH]; intros seen seen' H; cbn [filter Set_of_aux];
    [reflexivity|].
  destruct (String.eqb_spec x c) as [->|Hne]; cbn [negb].
  - destruct (includes seen' c); [apply IH, H|].
    cbn [filter]. rewrite String.eqb_refl. cbn [negb]. apply IH.
    intros y Hy. cbn [includes existsb].
    rewrite (proj2 (String_eqb_false_iff y c) Hy). apply H, Hy.
  - cbn [Set_of_aux]. rewrite (H x Hne).
    destruct (includes seen' x); [apply IH, H|].
    cbn [filter]. rewrite (proj2 (String_eqb_false_iff x c) Hne). cbn [negb].
    f_equal. apply IH. intros y Hy. cbn [includes existsb].
    fold (includes seen y). fold (includes seen' y). rewrite (H y Hy).
    reflexivity.
Qed.

Lemma Set_of_without (c : string) (l : list string) :
  Set_of (filter (fun id => negb (id =? c)) l)
  = filter (fun id => negb (id =? c)) (Set_of l).
Proof. apply Set_of_aux_without. reflexivity. Qed.

Lemma card_names_delete (dir : Record_ DirEntry) (c : string) :
  map (fun name => strip_suffix name ".md")
    (filter (fun name => endsWith name ".md")
       (map fst
          (filter (fun entry => Nat.eqb (snd entry) fileType_File)
             (map (fun e => (fst e, entry_type (snd e)))
                (obj_delete dir (c ++ ".md"))))))
  = filter (fun id => negb (id =? c))
      (map (fun name => strip_suffix name ".md")
         (filter (fun name => endsWith name ".md")
            (map fst
               (filter (fun entry => Nat.eqb (snd entry) fileType_File)
                  (map (fun e => (fst e, entry_type (snd e))) dir))))).
Proof.
  induction dir as [|[n e] r IH]; [reflexivity|].
  cbn [obj_delete].
  destruct (String.eqb_spec n (c ++ ".md")) as [->|Hne].
  - rewrite IH. cbn [map filter fst snd].
    destruct (Nat.eqb (entry_type e) fileType_File); [|reflexivity].
    cbn [map filter fst].
    destruct (endsWith_app c ".md") as [H1 H2]. rewrite H1.
    cbn [map filter]. rewrite H2, String.eqb_refl. reflexivity.
  - cbn [map filter fst snd].
    destruct (Nat.eqb (entry_type e) fileType_File); [|exact IH].
    cbn [map filter fst].
    destruct (endsWith n ".md") eqn:E; [|exact IH].
    cbn [map filter].
    destruct (String.eqb_spec (strip_suffix n ".md") c) as [Hs|_].
    + exfalso. apply Hne. rewrite (endsWith_strip n ".md" E), Hs. reflexivity.
    + cbn [negb]. f_equal. exact IH.
Qed.

Lemma discovered_ids_without {J : Json} (fs fs1 : FileSystem) (c : string) :
  NoDup (Object_keys (cards_dir fs)) ->
  cards_dir fs1 = without_file (cards_dir fs) (c ++ ".md") ->
  discovered_ids fs1
  = filter (fun id => negb (id =? c)) (discovered_ids fs).
Proof.
  intros Hnd Hdir. unfold without_file in Hdir.
  destruct (obj_get (cards_dir fs) (c ++ ".md")) as [[f|]|] eqn:E.
  - unfold discovered_ids, card_file_ids. rewrite Hdir, card_names_delete.
    apply Set_of_without.
  - rewrite (discovered_ids_dirs fs1 fs Hdir). symmetry. apply filter_all.
    intros x Hx. destruct (String.eqb_spec x c) as [->|_]; [|reflexivity].
    exfalso. apply discovered_ids_In in Hx. destruct Hx as [f Hf].
    rewrite (In_obj_get _ _ _ Hnd Hf) in E. discriminate.
  - rewrite (discovered_ids_dirs fs1 fs Hdir). symmetry. apply filter_all.
    intros x Hx. destruct (String.eqb_spec x c) as [->|_]; [|reflexivity].
    exfalso. apply discovered_ids_In in Hx. destruct Hx as [f Hf].
    rewrite (In_obj_get _ _ _ Hnd Hf) in E. discriminate.
Qed.

Lemma reconciled_order_outside (index : IndexData) (ids : list string)
  (k : string) :
  columns index <> [] ->
  ~ In k (map column_id (columns index)) ->
  list_at (reconciled_order index ids) k = [].
Proof.
  intros Hne Hk. rewrite reconciled_order_at, kept_order_at.
  replace (includes (map column_id (columns index)) k) with false
    by (symmetry; apply includes_false, Hk).
  destruct (String.eqb_spec k (fallback_id index)) as [->|_]; [|reflexivity].
  exfalso. apply Hk, fallback_id_In, Hne.
Qed.

Section LoadedCardLookup.
Context {J : Json}.
Lemma loaded_card_lookup (fs fs' : FileSystem) (cardId : string) :
  obj_get (cards_dir fs) (cardId ++ ".md")
  = obj_get (cards_dir fs') (cardId ++ ".md") ->
  loaded_card fs cardId = loaded_card fs' cardId.
Proof.
  intros H. unfold loaded_card, loadCard, try_catch, bind, readFile_card,
    stat_card, toISOString, ret, throw.
  rewrite <- H.
  destruct (obj_get (cards_dir fs) (cardId ++ ".md")) as [[f|]|] eqn:E;
    [|reflexivity..].
  cbv beta iota. rewrite <- H, E.
  destruct (meta_value (meta (parseFrontMatter (data f))) "createdAt")
    as [c|]; [destruct (c =? "")|];
    destruct (meta_value (meta (parseFrontMatter (data f))) "updatedAt")
      as [u|]; try destruct (u =? "");
    destruct (ctime f), (mtime f); reflexivity.
Qed.
End LoadedCardLookup.

Lemma existsb_ext_in {A} (p q : A -> bool) (l : list A) :
  (forall x, In x l -> p x = q x) -> existsb p l = existsb q l.
Proof.
  induction l as [|x r IH]; intros H; cbn [existsb]; [reflexivity|].
  rewrite (H x) by (left; reflexivity). f_equal. apply IH.
  intros y Hy. apply H. right. exact Hy.
Qed.

Lemma existsb_andb_r {A} (p : A -> bool) (b : bool) (l : list A) :
  existsb (fun x => p x && b) l = existsb p l && b.
Proof.
  induction l as [|x r IH]; cbn [existsb]; [reflexivity|].
  rewrite IH. destruct (p x), b, (existsb p r); reflexivity.
Qed.

(** The reconciliation after one id left both the lists and the
    directory. *)
Lemma reconciled_without (index written : IndexData) (ids : list string)
  (c : string) :
  columns index <> [] ->
  columns written = columns index ->
  (forall col, In col (columns index) ->
     list_at (order written) (column_id col)
     = filter (fun id => negb (id =? c))
         (list_at (order index) (column_id col))) ->
  let ids1 := filter (fun id => negb (id =? c)) ids in
  forall k,
    list_at (reconciled_order (normalized_written written) ids1) k
    = filter (fun id => negb (id =? c))
        (list_at (reconciled_order index ids) k).
Proof.
  intros Hne Hcols Hlists ids1.
  assert (L1 : forall x, includes ids1 x = includes ids x && negb (x =? c))
    by (intros x; apply includes_filter).
  assert (L2 : forall col, In col (columns index) ->
            kept (normalized_written written) ids1 (column_id col)
            = filter (fun id => negb (id =? c))
                (kept index ids (column_id col))).
  { intros col Hcol. unfold kept. rewrite normalized_written_at, Hcols.
    replace (includes (map column_id (columns index)) (column_id col))
      with true by (symmetry; apply includes_In, in_map, Hcol).
    rewrite (Hlists col Hcol), !filter_filter.
    apply filter_ext_in_bool. intros x _. rewrite L1.
    destruct (includes ids x), (x =? c); reflexivity. }
  assert (L3 : unlisted (normalized_written written) ids1
               = filter (fun id => negb (id =? c)) (unlisted index ids)).
  { unfold unlisted, ids1. rewrite !filter_filter.
    apply filter_ext_in_bool. intros x _.
    destruct (String.eqb_spec x c) as [->|Hx]; cbn [negb andb].
    - rewrite andb_false_r. reflexivity.
    - rewrite andb_true_r. f_equal. unfold listed.
      cbn [columns normalized_written]. rewrite Hcols.
      apply existsb_ext_in. intros col Hcol. fold ids1.
      rewrite (L2 col Hcol), includes_filter.
      rewrite (proj2 (String_eqb_false_iff x c) Hx). apply andb_true_r. }
  intros k.
  destruct (in_dec string_dec k (map column_id (columns index))) as [Hk|Hk].
  - rewrite !reconciled_order_at, !kept_order_at.
    cbn [columns normalized_written]. rewrite Hcols.
    replace (includes (map column_id (columns index)) k) with true
      by (symmetry; apply includes_In, Hk).
    apply in_map_iff in Hk. destruct Hk as (col & <- & Hcol).
    rewrite (L2 col Hcol), filter_app.
    rewrite (fallback_id_columns (normalized_written written) index)
      by exact Hcols.
    destruct (column_id col =? fallback_id index); [|reflexivity].
    rewrite L3. reflexivity.
  - rewrite (reconciled_order_outside index ids k Hne Hk).
    apply reconciled_order_outside; cbn [columns normalized_written];
      rewrite Hcols; assumption.
Qed.

Section DeleteCard.
Context {J : Json}.

Lemma deleteCard_eq (input : Record_ jsval) (cardId : string)
  (fs : FileSystem) :
  nonempty_string (field input "cardId") = Some cardId ->
  deleteCard input fs
  = (Ok tt,
     {| storage_dirs := true;
        index_file :=
          Some (JSON_stringify
                  {| columns := columns (current_index fs);
                     order := order_without (columns (current_index fs))
                                (order (current_index fs)) cardId |});
        cards_dir := without_file (cards_dir fs) (cardId ++ ".md") |}).
Proof.
  intros H. unfold deleteCard, bind. rewrite H, readIndex_eq.
  unfold writeIndex, writeFile_index, deleteCardFiles, foldM, bind,
    deleteCardFile, try_catch, delete_card, ret, without_file.
  cbn [cards_dir after_readIndex index_file storage_dirs].
  destruct (obj_get (cards_dir fs) (cardId ++ ".md")) as [[f|]|];
    reflexivity.
Qed.
End DeleteCard.

Section DeleteCardState.
Context {J : Json} {RT : JsonRoundtrip J}.

(** X15.  [deleteCard] of an id that is a plain file name, over an index
    without a column of id [__proto__], removes exactly that card from the
    board: the state [readState] returns afterwards has the columns of the
    state it returned before, every list is the former list without the
    id, the id has no card, every other id has the card it had, and no
    other file of the directory changes. *)
Theorem deleteCard_then_readState (input : Record_ jsval) (cardId : string)
  (fs : FileSystem) :
  nonempty_string (field input "cardId") = Some cardId ->
  plain_name cardId = true ->
  no_proto_column (columns (current_index fs)) ->
  NoDup (Object_keys (cards_dir fs)) ->
  exists st0 fs0 fs1 st fs2,
    readState fs = (Ok st0, fs0)
    /\ deleteCard input fs = (Ok tt, fs1)
    /\ readState fs1 = (Ok st, fs2)
    /\ state_columns st = state_columns st0
    /\ (forall k, list_at (state_order st) k
                  = filter (fun id => negb (id =? cardId))
                      (list_at (state_order st0) k))
    /\ obj_get (cards st) cardId = None
    /\ (forall x, x <> cardId -> obj_get (cards st) x = obj_get (cards st0) x)
    /\ (forall f, obj_get (cards_dir fs1) (cardId ++ ".md")
                  <> Some (FileNode f))
    /\ (forall name, name <> (cardId ++ ".md")%string ->
          obj_get (cards_dir fs1) name = obj_get (cards_dir fs) name).
Proof.
  intros Hid _ _ Hnd.
  set (index := current_index fs). set (ids := discovered_ids fs).
  set (written := {| columns := columns index;
                     order := order_without (columns index) (order index)
                                cardId |}).
  set (fsd := {| storage_dirs := true; index_file := index_file fs;
                 cards_dir := without_file (cards_dir fs) (cardId ++ ".md") |}).
  assert (Hne : columns index <> []) by apply current_index_columns_nonempty.
  pose proof (readState_written fsd written Hne) as Hread.
  cbv zeta in Hread.
  rewrite (discovered_ids_without fs fsd cardId Hnd eq_refl) in Hread.
  fold ids in Hread.
  assert (Hlists : forall col, In col (columns index) ->
            list_at (order written) (column_id col)
            = filter (fun id => negb (id =? cardId))
                (list_at (order index) (column_id col))).
  { intros col Hcol. unfold written. cbn [order]. rewrite order_without_at.
    replace (includes (map column_id (columns index)) (column_id col))
      with true by (symmetry; apply includes_In, in_map, Hcol).
    reflexivity. }
  pose proof (reconciled_without index written ids cardId Hne eq_refl Hlists)
    as Hrec. cbv zeta in Hrec.
  eexists. eexists. eexists. eexists. eexists.
  split; [apply readState_eq|].
  split; [apply (deleteCard_eq input cardId fs Hid)|].
  split; [exact Hread|].
  cbn [state_columns state_order cards]. fold index. fold ids.
  split; [reflexivity|]. split; [exact Hrec|].
  assert (Hex : forall x,
    existsb
      (fun c => includes
                  (list_at
                     (reconciled_order (normalized_written written)
                        (filter (fun id => negb (id =? cardId)) ids))
                     (column_id c)) x) (columns written)
    = existsb
        (fun c => includes (list_at (reconciled_order index ids) (column_id c))
                    x) (columns index)
      && negb (x =? cardId)).
  { intros x. cbn [columns written]. rewrite <- existsb_andb_r.
    apply existsb_ext_in. intros c _. rewrite Hrec. apply includes_filter. }
  split.
  { rewrite collect_cards_get, Hex, String.eqb_refl, andb_false_r.
    reflexivity. }
  split.
  { intros x Hx. rewrite !collect_cards_get, Hex.
    rewrite (proj2 (String_eqb_false_iff x cardId) Hx), andb_true_r.
    destruct (existsb _ (columns index)); [|reflexivity].
    rewrite (loaded_card_dirs (after_readState fs) fs x)
      by apply after_readState_cards.
    apply loaded_card_lookup. cbn [cards_dir fsd].
    apply without_file_get. intros E. apply Hx.
    exact (append_inj_r _ _ _ E). }
  split.
  { intros f. cbn [cards_dir]. unfold without_file.
    destruct (obj_get (cards_dir fs) (cardId ++ ".md")) as [[g|]|] eqn:E.
    - rewrite obj_get_delete, String.eqb_refl. discriminate.
    - rewrite E. discriminate.
    - rewrite E. discriminate. }
  intros name Hname. cbn [cards_dir]. apply without_file_get, Hname.
Qed.
End DeleteCardState.

(** ** deleteColumn *)

Lemma findIndex_split (cols : list Column) (columnId : string) :
  In columnId (map column_id cols) ->
  exists before column after,
    cols = before ++ column :: after
    /\ column_id column = columnId
    /\ (forall c, In c before -> column_id c <> columnId)
    /\ forall pos, findIndex cols columnId pos = Some (pos + length before).
Proof.
  induction cols as [|c r IH]; cbn [map In]; [intros []|].
  intros H. destruct (String.eqb_spec (column_id c) columnId) as [E|Hne].
  - exists [], c, r. split; [reflexivity|]. split; [exact E|].
    split; [intros c' []|]. intros pos. cbn [findIndex length].
    rewrite E, String.eqb_refl. f_equal. lia.
  - destruct H as [H|H]; [contradiction|].
    destruct (IH H) as (before & column & after & -> & Hc & Hb & Hf).
    exists (c :: before), column, after. split; [reflexivity|].
    split; [exact Hc|]. split.
    + intros c' [<-|Hin]; [exact Hne | apply Hb, Hin].
    + intros pos. cbn [findIndex length app].
      rewrite (proj2 (String_eqb_false_iff _ _) Hne), Hf. f_equal. lia.
Qed.

Lemma firstn_length_app {A} (a b : list A) : firstn (length a) (a ++ b) = a.
Proof.
  induction a as [|x r IH]; cbn [length app firstn]; [reflexivity|].
  f_equal. exact IH.
Qed.

Lemma skipn_S_length_app {A} (a : list A) (x : A) (b : list A) :
  skipn (S (length a)) (a ++ x :: b) = b.
Proof.
  induction a as [|y r IH]; cbn [length app skipn]; [reflexivity | exact IH].
Qed.

Lemma Object_keys_delete {V} (o : Record_ V) (k : string) :
  Object_keys (obj_delete o k)
  = filter (fun k' => negb (k' =? k)) (Object_keys o).
Proof.
  induction o as [|[a v] r IH]; [reflexivity|].
  cbn [obj_delete Object_keys map fst filter].
  destruct (a =? k); cbn [negb]; [exact IH|].
  cbn [Object_keys map fst]. f_equal. exact IH.
Qed.

Lemma without_file_NoDup (dir : Record_ DirEntry) (name : string) :
  NoDup (Object_keys dir) -> NoDup (Object_keys (without_file dir name)).
Proof.
  intros H. unfold without_file.
  destruct (obj_get dir name) as [[f|]|]; try exact H.
  rewrite Object_keys_delete. apply NoDup_filter, H.
Qed.

Lemma without_file_not_file (dir : Record_ DirEntry) (name n : string) :
  (n = name \/ forall f, obj_get dir n <> Some (FileNode f)) ->
  forall f, obj_get (without_file dir name) n <> Some (FileNode f).
Proof.
  intros H f. unfold without_file.
  destruct (obj_get dir name) as [[g|]|] eqn:E.
  - rewrite obj_get_delete. destruct (String.eqb_spec name n) as [->|Hne];
      [discriminate|].
    destruct H as [->|H]; [contradiction | apply H].
  - destruct H as [->|H]; [rewrite E; discriminate | apply H].
  - destruct H as [->|H]; [rewrite E; discriminate | apply H].
Qed.

(** What [deleteCardFiles] makes of the directory. *)
Lemma removed_files_get (ids : list string) :
  forall dir,
    (forall name, (forall x, In x ids -> name <> (x ++ ".md")%string) ->
       obj_get (fold_left (fun d id => without_file d (id ++ ".md")) ids dir)
         name
       = obj_get dir name)
    /\ (forall x f,
          In x ids \/ (forall g, obj_get dir (x ++ ".md") <> Some (FileNode g)) ->
          obj_get (fold_left (fun d id => without_file d (id ++ ".md")) ids dir)
            (x ++ ".md")
          <> Some (FileNode f))
    /\ (NoDup (Object_keys dir) ->
        NoDup (Object_keys
                 (fold_left (fun d id => without_file d (id ++ ".md")) ids
                    dir))).
Proof.
  induction ids as [|y r IH]; intros dir; cbn [fold_left].
  - split; [reflexivity|]. split; [|auto].
    intros x f [[]|H]. apply H.
  - destruct (IH (without_file dir (y ++ ".md"))) as (I1 & I2 & I3).
    split; [|split].
    + intros name Hname. rewrite I1.
      * apply without_file_get. apply Hname. left. reflexivity.
      * intros x Hx. apply Hname. right. exact Hx.
    + intros x f H. apply I2.
      destruct H as [[<-|H]|H].
      * right. apply without_file_not_file. left. reflexivity.
      * left. exact H.
      * right. apply without_file_not_file. right. exact H.
    + intros H. apply I3, without_file_NoDup, H.
Qed.

Section DeleteColumnFiles.
Context {J : Json}.

Lemma deleteCardFiles_eq (ids : list string) :
  forall fs,
    deleteCardFiles ids fs
    = (Ok tt,
       {| storage_dirs := storage_dirs fs;
          index_file := index_file fs;
          cards_dir :=
            fold_left (fun d id => without_file d (id ++ ".md")) ids
              (cards_dir fs) |}).
Proof.
  unfold deleteCardFiles.
  induction ids as [|y r IH]; intros fs; cbn [foldM fold_left].
  - destruct fs; reflexivity.
  - unfold bind at 1.
    assert (E : deleteCardFile y fs
                = (Ok tt,
                   {| storage_dirs := storage_dirs fs;
                      index_file := index_file fs;
                      cards_dir := without_file (cards_dir fs) (y ++ ".md") |})).
    { unfold deleteCardFile, try_catch, delete_card, ret, without_file.
      destruct (obj_get (cards_dir fs) (y ++ ".md")) as [[f|]|];
        try reflexivity; destruct fs; reflexivity. }
    rewrite E, IH. reflexivity.
Qed.
End DeleteColumnFiles.

Lemma list_at_delete (o : Record_ (list string)) (k k' : string) :
  list_at (obj_delete o k) k' = if k =? k' then [] else list_at o k'.
Proof.
  unfold list_at. rewrite obj_get_delete. destruct (k =? k'); reflexivity.
Qed.

Section DeleteColumnState.
Context {J : Json} {RT : JsonRoundtrip J}.

(** X16.  [deleteColumn] on a column of an index with several columns, none
    of id [__proto__], whose list holds plain file names only, removes the
    first column with that id and the order key, deletes the card files of
    its list and no other file; the next [readState] returns the remaining
    columns, at least one, shows none of the removed cards, and in the
    columns with another id keeps the listed ids that have a file. *)
Theorem deleteColumn_removes_column_and_cards (input : Record_ jsval)
  (columnId : string) (fs : FileSystem) :
  nonempty_string (field input "columnId") = Some columnId ->
  In columnId (map column_id (columns (current_index fs))) ->
  1 < length (columns (current_index fs)) ->
  NoDup (Object_keys (cards_dir fs)) ->
  let index := current_index fs in
  let removedCards := list_at (order index) columnId in
  no_proto_column (columns index) ->
  (forall x, In x removedCards -> plain_name x = true) ->
  exists before column after fs1 st fs2,
    columns index = before ++ column :: after
    /\ column_id column = columnId
    /\ (forall c, In c before -> column_id c <> columnId)
    /\ deleteColumn input fs = (Ok tt, fs1)
    /\ index_file fs1
       = Some (JSON_stringify
                 {| columns := before ++ after;
                    order := obj_delete (order index) columnId |})
    /\ (forall x f, In x removedCards ->
          obj_get (cards_dir fs1) (x ++ ".md") <> Some (FileNode f))
    /\ (forall name,
          (forall x, In x removedCards -> name <> (x ++ ".md")%string) ->
          obj_get (cards_dir fs1) name = obj_get (cards_dir fs) name)
    /\ readState fs1 = (Ok st, fs2)
    /\ state_columns st = before ++ after
    /\ state_columns st <> []
    /\ (forall x, In x removedCards ->
          obj_get (cards st) x = None
          /\ forall k, ~ In x (list_at (state_order st) k))
    /\ (forall c, In c (before ++ after) -> column_id c <> columnId ->
          exists orphans,
            list_at (state_order st) (column_id c)
            = filter (fun id => includes (discovered_ids fs1) id)
                (list_at (order index) (column_id c))
              ++ orphans).
Proof.
  intros Hid Hin Hlen Hnd index removedCards _ _.
  destruct (findIndex_split (columns index) columnId Hin)
    as (before & column & after & Hcols & Hc & Hb & Hf).
  set (written := {| columns := before ++ after;
                     order := obj_delete (order index) columnId |}).
  set (dir1 := fold_left (fun d id => without_file d (id ++ ".md"))
                 removedCards (cards_dir fs)).
  set (fsd := {| storage_dirs := true; index_file := index_file fs;
                 cards_dir := dir1 |}).
  destruct (removed_files_get removedCards (cards_dir fs)) as (G1 & G2 & G3).
  fold dir1 in G1, G2, G3.
  assert (Hne : columns written <> []).
  { cbn [columns written]. fold index in Hlen. rewrite Hcols in Hlen.
    rewrite length_app in Hlen. cbn [length] in Hlen.
    destruct before, after; cbn in *; try discriminate; lia. }
  pose proof (readState_written fsd written Hne) as Hread.
  cbv zeta in Hread.
  set (ids1 := discovered_ids fsd) in *.
  assert (Hgone : forall x, In x removedCards -> ~ In x ids1).
  { intros x Hx Hd. apply discovered_ids_In in Hd. destruct Hd as [f Hf'].
    cbn [cards_dir fsd] in Hf'.
    apply (G2 x f (or_introl Hx)). apply In_obj_get; [apply G3, Hnd | exact Hf']. }
  exists before, column, after. eexists. eexists. eexists.
  split; [exact Hcols|]. split; [exact Hc|]. split; [exact Hb|].
  split.
  { unfold deleteColumn, bind. rewrite Hid, readIndex_eq. fold index.
    replace (Nat.leb (length (columns index)) 1) with false
      by (symmetry; apply Nat.leb_gt; exact Hlen).
    rewrite (Hf 0). cbn [Nat.add].
    unfold writeIndex, writeFile_index. rewrite deleteCardFiles_eq.
    cbn [storage_dirs index_file cards_dir after_readIndex].
    rewrite Hcols, firstn_length_app, skipn_S_length_app.
    reflexivity. }
  split; [reflexivity|].
  split.
  { intros x f Hx. cbn [cards_dir]. fold index. fold removedCards. fold dir1.
    apply G2. left. exact Hx. }
  split.
  { intros name Hname. cbn [cards_dir]. fold index. fold removedCards.
    fold dir1. apply G1, Hname. }
  fold index. fold removedCards. fold dir1. fold written.
  split; [exact Hread|].
  cbn [state_columns state_order cards].
  split; [reflexivity|]. split; [exact Hne|].
  split.
  { intros x Hx.
    assert (Hk : forall k,
              ~ In x (list_at (reconciled_order (normalized_written written)
                                 ids1) k)).
    { intros k Hk. apply (Hgone x Hx).
      eapply reconciled_order_within, Hk. }
    split; [|exact Hk].
    rewrite collect_cards_get.
    replace (existsb _ (columns written)) with false; [reflexivity|].
    symmetry. apply not_true_is_false. intros E.
    apply existsb_exists in E. destruct E as (c & _ & E).
    apply includes_In in E. exact (Hk _ E). }
  intros c Hcin Hcne.
  eexists. rewrite written_list by (apply in_map, Hcin).
  cbn [order written]. rewrite list_at_delete.
  rewrite (proj2 (String_eqb_false_iff columnId (column_id c)))
    by congruence.
  reflexivity.
Qed.
End DeleteColumnState.

(** ** reorderCards *)
Section ReorderCardsState.
Context {J : Json} {RT : JsonRoundtrip J}.

(** X18.  After [reorderCards] on a column of an index without a column of
    id [__proto__], [readState] shows that column in the requested order
    and every other column as it was listed: each column has the ids of
    its list that have a card file, the requested list for the column of
    the call and the stored list for the others, and the first column has
    behind them the card files that neither the requested list nor the
    list of another column mentions, in directory order. *)
Theorem reorderCards_then_readState (input : Record_ jsval)
  (columnId : string) (orderedIds : list string) (fs : FileSystem) :
  nonempty_string (field input "columnId") = Some columnId ->
  string_array_or_null (field input "orderedIds") = Some orderedIds ->
  In columnId (map column_id (columns (current_index fs))) ->
  no_proto_column (columns (current_index fs)) ->
  let index := current_index fs in
  let ids := discovered_ids fs in
  let written := index_after_reorder index columnId orderedIds in
  let orphans := unmentioned (columns index) (order written) ids in
  exists fs1 st fs2,
    reorderCards input fs = (Ok tt, fs1)
    /\ index_file fs1 = Some (JSON_stringify written)
    /\ cards_dir fs1 = cards_dir fs
    /\ readState fs1 = (Ok st, fs2)
    /\ state_columns st = columns index
    /\ (forall c, In c (columns index) ->
          list_at (state_order st) (column_id c)
          = filter (fun id => includes ids id)
              (if column_id c =? columnId then orderedIds
               else list_at (order index) (column_id c))
            ++ (if column_id c =? fallback_id index then orphans else []))
    /\ (forall x, In x orphans
          <-> In x ids
              /\ ~ In x orderedIds
              /\ forall c, In c (columns index) -> column_id c <> columnId ->
                           ~ In x (list_at (order index) (column_id c))).
Proof.
  intros Hcol Hids Hin _ index ids written orphans.
  assert (Hne : columns written <> [])
    by apply current_index_columns_nonempty.
  pose proof (readState_written fs written Hne) as Hread.
  cbv zeta in Hread. fold ids in Hread.
  assert (Hat : forall c,
            list_at (order written) (column_id c)
            = if column_id c =? columnId then orderedIds
              else list_at (order index) (column_id c)).
  { intros c. unfold written, index_after_reorder. cbn [order].
    rewrite list_at_set, (String.eqb_sym columnId). reflexivity. }
  assert (Horph : unlisted (normalized_written written) ids = orphans).
  { unfold unlisted, orphans, unmentioned. apply filter_ext_in_bool.
    intros x Hx. f_equal. unfold listed. cbn [columns normalized_written].
    apply existsb_ext_in. intros c Hc. unfold kept.
    rewrite normalized_written_at.
    replace (includes (map column_id (columns written)) (column_id c))
      with true by (symmetry; apply includes_In, in_map, Hc).
    rewrite includes_filter.
    replace (includes ids x) with true
      by (symmetry; apply includes_In, Hx).
    apply andb_true_r. }
  exists (with_index fs (JSON_stringify written)). eexists. eexists.
  split.
  { unfold reorderCards, bind. rewrite Hcol, Hids, readIndex_eq.
    reflexivity. }
  split; [reflexivity|]. split; [reflexivity|]. split; [exact Hread|].
  cbn [state_columns state_order cards].
  split; [reflexivity|].
  split.
  { intros c Hc. rewrite written_list by (apply in_map, Hc).
    rewrite Hat, Horph. reflexivity. }
  intros x. unfold orphans, unmentioned.
  rewrite filter_In, negb_true_iff. split.
  - intros [Hx Hno]. split; [exact Hx|].
    assert (Hnone : forall c, In c (columns index) ->
                      ~ In x (list_at (order written) (column_id c))).
    { intros c Hc Hl. apply Bool.not_true_iff_false in Hno. apply Hno.
      apply existsb_exists. exists c. split; [exact Hc|].
      apply includes_In, Hl. }
    split.
    + intros Ho. apply in_map_iff in Hin. destruct Hin as (c & Ec & Hc).
      apply (Hnone c Hc). rewrite Hat, Ec, String.eqb_refl. exact Ho.
    + intros c Hc Hcne Hl. apply (Hnone c Hc). rewrite Hat.
      rewrite (proj2 (String_eqb_false_iff (column_id c) columnId) Hcne).
      exact Hl.
  - intros (Hx & Ho & Hothers). split; [exact Hx|].
    apply Bool.not_true_iff_false. intros E.
    apply existsb_exists in E. destruct E as (c & Hc & Hl).
    apply includes_In in Hl. rewrite Hat in Hl.
    destruct (String.eqb_spec (column_id c) columnId) as [_|Hcne].
    + exact (Ho Hl).
    + exact (Hothers c Hc Hcne Hl).
Qed.
End ReorderCardsState.

(** ** updateCard *)



Section UpdateCardMore.
Context {J : Json}.

End UpdateCardMore.

(** * Further properties of the column operations and of failures *)


Lemma order_ext (a b : Record_ (list string)) :
  Object_keys a = Object_keys b ->
  NoDup (Object_keys a) ->
  (forall k, In k (Object_keys a) -> list_at a k = list_at b k) ->
  a = b.
Proof.
  intros Hk Hnd Hat.
  rewrite <- (obj_table a Hnd), <- (obj_table b) by (rewrite <- Hk; exact Hnd).
  rewrite <- Hk. apply map_ext_in. intros k Hin. rewrite (Hat k Hin).
  reflexivity.
Qed.

Lemma existsb_map {A B} (f : A -> B) (p : B -> bool) (l : list A) :
  existsb p (map f l) = existsb (fun x => p (f x)) l.
Proof.
  induction l as [|x r IH]; cbn [map existsb]; [reflexivity|].
  rewrite IH. reflexivity.
Qed.

(** The order [readState] returns depends on the index through the ids of
    its columns and the lists of these ids. *)
Lemma reconciled_order_ext (a b : IndexData) (ids : list string) :
  columns a <> [] ->
  map column_id (columns a) = map column_id (columns b) ->
  (forall k, In k (map column_id (columns a)) ->
             list_at (order a) k = list_at (order b) k) ->
  reconciled_order a ids = reconciled_order b ids.
Proof.
  intros Hne Hids Hat.
  assert (Hne' : columns b <> []).
  { intros E. rewrite E in Hids. destruct (columns a); [contradiction|].
    discriminate. }
  assert (Hkeys : column_keys (columns a) = column_keys (columns b))
    by (unfold column_keys; rewrite Hids; reflexivity).
  assert (Hfb : fallback_id a = fallback_id b).
  { unfold fallback_id. destruct (columns a) as [|c r], (columns b) as [|c' r'];
      try discriminate; try contradiction.
    cbn [map] in Hids. inversion Hids. reflexivity. }
  assert (Hkept : forall k, In k (map column_id (columns a)) ->
                            kept a ids k = kept b ids k)
    by (intros k Hk; unfold kept; rewrite (Hat k Hk); reflexivity).
  assert (Hlisted : forall x, listed a ids x = listed b ids x).
  { intros x. unfold listed.
    rewrite <- (existsb_map column_id (fun k => includes (kept a ids k) x)).
    rewrite <- (existsb_map column_id (fun k => includes (kept b ids k) x)).
    rewrite <- Hids. apply existsb_ext_in. intros k Hk.
    rewrite (Hkept k Hk). reflexivity. }
  assert (Hun : unlisted a ids = unlisted b ids).
  { unfold unlisted. apply filter_ext_in_bool. intros x _.
    rewrite Hlisted. reflexivity. }
  apply order_ext.
  - rewrite !reconciled_order_Object_keys by assumption. exact Hkeys.
  - rewrite reconciled_order_Object_keys by assumption.
    apply column_keys_NoDup.
  - intros k Hk. rewrite reconciled_order_Object_keys in Hk by assumption.
    apply column_keys_In in Hk.
    rewrite !reconciled_order_at, !kept_order_at, <- Hids, Hfb, Hun.
    rewrite (Hkept k Hk). reflexivity.
Qed.

(** ** updateColumn *)

Lemma set_title_ids (cols : list Column) (columnId title : string) :
  map column_id (set_title cols columnId title) = map column_id cols.
Proof.
  induction cols as [|c r IH]; cbn [set_title map]; [reflexivity|].
  destruct (column_id c =? columnId); cbn [map column_id]; [reflexivity|].
  f_equal. exact IH.
Qed.



Lemma find_column_none (cols : list Column) (columnId : string) :
  ~ In columnId (map column_id cols) ->
  find (fun item => column_id item =? columnId) cols = None.
Proof.
  induction cols as [|c r IH]; cbn [map In find]; [reflexivity|].
  intros H. destruct (String.eqb_spec (column_id c) columnId) as [E|Hne].
  - exfalso. apply H. left. exact E.
  - apply IH. intros Hin. apply H. right. exact Hin.
Qed.

Section UpdateColumn.
Context {J : Json} {RT : JsonRoundtrip J}.

End UpdateColumn.

(** ** createColumn *)







Section CreateColumn.
Context {J : Json} {RT : JsonRoundtrip J}.

End CreateColumn.

(** ** loadCard *)
Section LoadCardMore.
Context {J : Json}.

(** X22.  A card file without front matter loads as a card: the whole text
    is the detail, the title is its first line that is not blank, trimmed,
    or Untitled when there is none, there is no due date, and the time
    stamps are those of the file. *)
Theorem loadCard_plain_file (fs : FileSystem) (cardId : string)
  (f : FileEntry) (c u : string) :
  obj_get (cards_dir fs) (cardId ++ ".md") = Some (FileNode f) ->
  String.prefix "---" (data f) = false ->
  ctime f = Some c ->
  mtime f = Some u ->
  loadCard cardId fs
  = (Ok (Some {| card_id := cardId;
                 card_title :=
                   match firstNonEmptyLine (data f) with
                   | Some line => line
                   | None => "Untitled"
                   end;
                 detail := data f;
                 due := None;
                 createdAt := c;
                 updatedAt := u |}),
     fs).
Proof.
  intros Hf Hplain Hc Hu.
  unfold loadCard, try_catch, bind, readFile_card, stat_card.
  rewrite Hf. cbv beta iota. rewrite Hf. cbv beta iota zeta.
  rewrite (parseFrontMatter_without_prefix (data f) Hplain).
  cbn [meta body meta_value obj_get]. rewrite Hc, Hu. reflexivity.
Qed.

(** X24.  [loadCard] never throws and leaves the file system alone; a card
    it returns carries the requested id and a title that is not blank, its
    detail and due date are those of the parsed file, and it returns null
    when the file is not there. *)
Theorem loadCard_gives_a_title (fs : FileSystem) (cardId : string) :
  exists result,
    loadCard cardId fs = (Ok result, fs)
    /\ match result with
       | Some card =>
           card_id card = cardId
           /\ (trim (card_title card) =? "") = false
           /\ (exists f, obj_get (cards_dir fs) (cardId ++ ".md")
                         = Some (FileNode f)
                         /\ detail card = body (parseFrontMatter (data f))
                         /\ due card
                            = meta_value (meta (parseFrontMatter (data f)))
                                "due")
       | None => True
       end
    /\ ((forall f, obj_get (cards_dir fs) (cardId ++ ".md")
                   <> Some (FileNode f)) ->
        result = None).
Proof.
  exists (loaded_card fs cardId). split; [apply loadCard_eq|].
  unfold loaded_card, loadCard, try_catch, bind, readFile_card, stat_card,
    toISOString, ret, throw.
  destruct (obj_get (cards_dir fs) (cardId ++ ".md")) as [[f|]|] eqn:E;
    [|split; [exact I | reflexivity]..].
  split; [|intros H; exfalso; exact (H f eq_refl)].
  cbv beta iota. rewrite E. cbv beta iota zeta.
  set (p := parseFrontMatter (data f)).
  assert (Hfallback :
            (trim (match firstNonEmptyLine (body p) with
                   | Some line => line
                   | None => "Untitled"
                   end) =? "") = false).
  { pose proof (firstNonEmptyLine_spec (body p)) as [H _].
    destruct (firstNonEmptyLine (body p)) as [line|]; [|reflexivity].
    destruct H as (H1 & H2 & _). rewrite H2. exact H1. }
  assert (Htitle :
            (trim (match meta_value (meta p) "title" with
                   | Some t =>
                       if trim t =? ""
                       then match firstNonEmptyLine (body p) with
                            | Some line => line
                            | None => "Untitled"
                            end
                       else t
                   | None =>
                       match firstNonEmptyLine (body p) with
                       | Some line => line
                       | None => "Untitled"
                       end
                   end) =? "") = false).
  { destruct (meta_value (meta p) "title") as [t|]; [|exact Hfallback].
    destruct (trim t =? "") eqn:Et; [exact Hfallback | exact Et]. }
  destruct (meta_value (meta p) "createdAt") as [c|];
    [destruct (c =? "")|];
    destruct (meta_value (meta p) "updatedAt") as [u|];
    try destruct (u =? "");
    destruct (ctime f), (mtime f); cbn [fst];
    try exact I;
    (split; [reflexivity|]; split; [exact Htitle|];
     exists f; repeat split).
Qed.
End LoadCardMore.

(** ** Failures *)
Section Failures.
Context {J : Json}.

Ltac thrown H :=
  unfold writeIndex, writeFile_index, writeFile_card, bind in H;
  first [ discriminate H
        | inversion H; subst; clear H;
          first [ reflexivity
                | left; split; reflexivity
                | right; split; [reflexivity | auto; fail]
                | auto; fail ] ].

(** X23.  An operation that throws has changed nothing of its own: the file
    system is the one it started from, or for [moveCard] and the two
    column operations, which can fail after reading the index, the one
    [readIndex] leaves, in which the card files are untouched; the
    failures are the ones listed, for [moveCard] the refusal of missing
    information and the [TypeError] of a column id that names no list. *)
Theorem failed_operation_changes_nothing (input : Record_ jsval)
  (fs fs' : FileSystem) (message : string) :
  (forall cardId now stamp,
      createCard cardId now stamp input fs = (Throw message, fs') ->
      fs' = fs /\ message = "Title is empty.")
  /\ (forall now stamp,
        updateCard now stamp input fs = (Throw message, fs') ->
        fs' = fs
        /\ (message = "Missing card ID." \/ message = "Title is empty."
            \/ message = "Card not found."))
  /\ (deleteCard input fs = (Throw message, fs') ->
      fs' = fs /\ message = "Missing card ID.")
  /\ (moveCard input fs = (Throw message, fs') ->
      (fs' = fs /\ message = "Missing move information.")
      \/ (fs' = snd (readIndex fs) /\ message = "TypeError"))
  /\ (reorderCards input fs = (Throw message, fs') ->
      fs' = fs /\ message = "Missing reorder information.")
  /\ (reorderColumns input fs = (Throw message, fs') ->
      fs' = fs /\ message = "Missing column order information.")
  /\ (forall fuel,
        createColumn fuel input fs = Some (Throw message, fs') ->
        fs' = fs /\ message = "Column name is empty.")
  /\ (updateColumn input fs = (Throw message, fs') ->
      (fs' = fs /\ message = "Missing column information.")
      \/ (fs' = snd (readIndex fs) /\ message = "Column not found."))
  /\ (deleteColumn input fs = (Throw message, fs') ->
      (fs' = fs /\ message = "Missing column ID.")
      \/ (fs' = snd (readIndex fs)
          /\ (message = "Cannot delete the last column."
              \/ message = "Column not found.")))
  /\ cards_dir (snd (readIndex fs)) = cards_dir fs.
Proof.
  repeat split.
  - unfold createCard, bind in H.
    destruct (trim (string_or (field input "title") "") =? "");
      [thrown H|].
    rewrite readIndex_eq in H. thrown H.
  - unfold createCard, bind in H.
    destruct (trim (string_or (field input "title") "") =? "");
      [thrown H|].
    rewrite readIndex_eq in H. thrown H.
  - unfold updateCard, bind, try_catch, readFile_card in H.
    destruct (nonempty_string (field input "cardId")) as [cardId|];
      [|thrown H].
    destruct (trim (string_or (field input "title") "") =? "");
      [thrown H|].
    destruct (obj_get (cards_dir fs) (cardId ++ ".md")) as [[f|]|];
      thrown H.
  - unfold updateCard, bind, try_catch, readFile_card in H.
    destruct (nonempty_string (field input "cardId")) as [cardId|];
      [|thrown H].
    destruct (trim (string_or (field input "title") "") =? "");
      [thrown H|].
    destruct (obj_get (cards_dir fs) (cardId ++ ".md")) as [[f|]|];
      thrown H.
  - destruct (nonempty_string (field input "cardId")) as [cardId|] eqn:E.
    + rewrite (deleteCard_eq input cardId fs E) in H. discriminate H.
    + unfold deleteCard in H. rewrite E in H. thrown H.
  - destruct (nonempty_string (field input "cardId")) as [cardId|] eqn:E.
    + rewrite (deleteCard_eq input cardId fs E) in H. discriminate H.
    + unfold deleteCard in H. rewrite E in H. thrown H.
  - intros H. unfold moveCard, bind in H.
    destruct (nonempty_string (field input "cardId")); [|thrown H].
    destruct (nonempty_string (field input "fromColumnId")); [|thrown H].
    destruct (nonempty_string (field input "toColumnId")); [|thrown H].
    destruct (number_or_null (field input "toIndex")); [|thrown H].
    rewrite readIndex_eq in H. rewrite readIndex_eq. cbn [snd].
    destruct (order_value _ _); [|thrown H].
    destruct (order_value _ _); thrown H.
  - unfold reorderCards, bind in H.
    destruct (nonempty_string (field input "columnId")); [|thrown H].
    destruct (string_array_or_null (field input "orderedIds")); [|thrown H].
    rewrite readIndex_eq in H. thrown H.
  - unfold reorderCards, bind in H.
    destruct (nonempty_string (field input "columnId")); [|thrown H].
    destruct (string_array_or_null (field input "orderedIds")); [|thrown H].
    rewrite readIndex_eq in H. thrown H.
  - unfold reorderColumns, bind in H.
    destruct (string_array_or_null (field input "orderedIds")); [|thrown H].
    rewrite readIndex_eq in H. thrown H.
  - unfold reorderColumns, bind in H.
    destruct (string_array_or_null (field input "orderedIds")); [|thrown H].
    rewrite readIndex_eq in H. thrown H.
  - unfold createColumn in H.
    destruct (trim (string_or (field input "title") "") =? "");
      [thrown H|].
    rewrite readIndex_eq in H.
    destruct (ensureUniqueColumnId _ _ _); thrown H.
  - unfold createColumn in H.
    destruct (trim (string_or (field input "title") "") =? "");
      [thrown H|].
    rewrite readIndex_eq in H.
    destruct (ensureUniqueColumnId _ _ _); thrown H.
  - intros H. unfold updateColumn, bind in H.
    destruct (nonempty_string (field input "columnId")) as [columnId|];
      [|thrown H].
    destruct (trim (string_or (field input "title") "") =? "");
      [thrown H|].
    rewrite readIndex_eq in H. rewrite readIndex_eq. cbn [snd].
    destruct (find _ (columns (current_index fs))); thrown H.
  - intros H. unfold deleteColumn, bind in H.
    destruct (nonempty_string (field input "columnId")) as [columnId|];
      [|thrown H].
    rewrite readIndex_eq in H. rewrite readIndex_eq. cbn [snd].
    destruct (Nat.leb (length (columns (current_index fs))) 1);
      [thrown H|].
    destruct (findIndex (columns (current_index fs)) columnId 0);
      [|thrown H].
    unfold writeIndex, writeFile_index in H.
    rewrite deleteCardFiles_eq in H. discriminate H.
  - rewrite readIndex_eq. reflexivity.
Qed.
End Failures.

(** ** Operations on a settled board *)




Section SettledBoard.
Context {J : Json} {RT : JsonRoundtrip J}.


End SettledBoard.

(** ** Column ids that match no column *)

Section UnknownColumn.
Context {J : Json} {R : JsonRoundtrip J}.

(** [reorderCards] writes the index with the list assigned. *)
Lemma reorderCards_eq (data : Record_ jsval) (columnId : string)
  (orderedIds : list string) (fs : FileSystem) :
  nonempty_string (field data "columnId") = Some columnId ->
  string_array_or_null (field data "orderedIds") = Some orderedIds ->
  reorderCards data fs
  = (Ok tt,
     with_index fs
       (JSON_stringify
          (index_after_reorder (current_index fs) columnId orderedIds))).
Proof.
  intros Hcol Hids. unfold reorderCards, bind.
  rewrite Hcol, Hids, readIndex_eq. reflexivity.
Qed.

(** Whether [readState] has something to repair depends on the index
    through its columns and their lists. *)
Lemma drift_ext (a b : IndexData) (ids : list string) :
  columns a = columns b ->
  (forall c, In c (columns a) ->
             list_at (order a) (column_id c) = list_at (order b) (column_id c)) ->
  drift a ids = drift b ids.
Proof.
  intros Hcols Hat. apply eq_true_iff_eq. rewrite !drift_iff. rewrite <- Hcols.
  split; (intros [(c & x & Hc & Hx & Hn)|(x & Hx & Hno)];
          [left; exists c, x; repeat split; try assumption
          |right; exists x; split; [assumption|]; intros c Hc Hin;
           apply (Hno c Hc)]).
  - rewrite <- (Hat c Hc). exact Hx.
  - rewrite (Hat c Hc). exact Hin.
  - rewrite (Hat c Hc). exact Hx.
  - rewrite <- (Hat c Hc). exact Hin.
Qed.

(** C9 (amended).  [moveCard] with a destination id, and [reorderCards]
    with a column id, that is the id of no column persist an index whose
    order has that id as a key although no column has it; the id is not a
    name inherited from [Object.prototype] for [moveCard], whose source id
    is a key of the order or no such name either, and not [__proto__] for
    [reorderCards], and no column has the id [__proto__].  The next
    [readState] returns an order without that key.  After [moveCard] the
    moved card, if it has a card file and no column other than the source
    lists it, then stands among the ids appended behind the kept ids of
    the first column, as the only one when every other discovered id is
    listed, and the repaired index is persisted.  After [reorderCards] no
    card has moved: the lists of the columns are the ones stored before,
    [readState] returns the state it would have returned without the
    call, and when it has nothing else to repair the key stays in the
    file. *)
Theorem unknown_column_orphan_key :
  (forall data cardId fromColumnId toColumnId toIndex (fs : FileSystem),
      nonempty_string (field data "cardId") = Some cardId ->
      nonempty_string (field data "fromColumnId") = Some fromColumnId ->
      nonempty_string (field data "toColumnId") = Some toColumnId ->
      number_or_null (field data "toIndex") = Some toIndex ->
      no_proto_column (columns (current_index fs)) ->
      listable (order (current_index fs)) fromColumnId = true ->
      inherited_name toColumnId = false ->
      ~ In toColumnId (map column_id (columns (current_index fs))) ->
      let written :=
        index_after_move (current_index fs) cardId fromColumnId toColumnId
          toIndex in
      moveCard data fs = (Ok tt, with_index fs (JSON_stringify written))
      /\ In toColumnId (Object_keys (order written))
      /\ In cardId (list_at (order written) toColumnId)
      /\ exists st fs2,
             readState (with_index fs (JSON_stringify written))
             = (Ok st, fs2)
             /\ ~ In toColumnId (Object_keys (state_order st))
             /\ (In cardId (discovered_ids fs) ->
                 (forall c, In c (columns (current_index fs)) ->
                    column_id c <> fromColumnId ->
                    ~ In cardId
                        (list_at (order (current_index fs)) (column_id c))) ->
                 exists kept_part appended,
                   list_at (state_order st)
                     (fallback_id (current_index fs))
                   = kept_part ++ appended
                   /\ ~ In cardId kept_part
                   /\ In cardId appended
                   /\ ((forall y, In y (discovered_ids fs) -> y <> cardId ->
                          exists c, In c (columns (current_index fs))
                            /\ In y (list_at (order (current_index fs))
                                       (column_id c))) ->
                       appended = [cardId])
                   /\ index_file fs2
                      = Some (JSON_stringify
                                {| columns := columns (current_index fs);
                                   order := state_order st |})))
  /\ (forall data columnId orderedIds (fs : FileSystem),
        nonempty_string (field data "columnId") = Some columnId ->
        string_array_or_null (field data "orderedIds") = Some orderedIds ->
        no_proto_column (columns (current_index fs)) ->
        columnId <> "__proto__" ->
        ~ In columnId (map column_id (columns (current_index fs))) ->
        let written :=
          index_after_reorder (current_index fs) columnId orderedIds in
        reorderCards data fs
        = (Ok tt, with_index fs (JSON_stringify written))
        /\ In columnId (Object_keys (order written))
        /\ list_at (order written) columnId = orderedIds
        /\ (forall c, In c (columns (current_index fs)) ->
              list_at (order written) (column_id c)
              = list_at (order (current_index fs)) (column_id c))
        /\ exists st fs2 fs3,
               readState (with_index fs (JSON_stringify written))
               = (Ok st, fs2)
               /\ ~ In columnId (Object_keys (state_order st))
               /\ readState fs = (Ok st, fs3)
               /\ (drift (current_index fs) (discovered_ids fs) = false ->
                   index_file fs2 = Some (JSON_stringify written))).
Proof.
  split.
  - intros data cardId fromColumnId toColumnId toIndex fs
      Hcard Hfrom Hto Hidx _ Lfrom Hplain Hunknown.
    intros written.
    set (index := current_index fs) in *.
    set (removed := filter (fun id => negb (id =? cardId))
                      (list_at (order index) fromColumnId)).
    set (order1 := obj_set (order index) fromColumnId removed).
    assert (Lto : listable (order index) toColumnId = true).
    { unfold listable. rewrite Hplain.
      destruct (obj_get (order index) toColumnId); reflexivity. }
    assert (Hat : forall c, In c (columns index) ->
              list_at (order written) (column_id c)
              = if fromColumnId =? column_id c then removed
                else list_at (order index) (column_id c)).
    { intros c Hc. unfold written, index_after_move. cbn [order].
      fold removed. fold order1. rewrite list_at_set.
      rewrite (proj2 (String_eqb_false_iff toColumnId (column_id c))).
      - apply list_at_set.
      - intros E. apply Hunknown. rewrite E. now apply in_map. }
    split; [apply moveCard_eq; assumption|].
    split; [apply Object_keys_set; now left|].
    split.
    { unfold written, index_after_move. cbn [order].
      rewrite list_at_set, String.eqb_refl. apply splice_insert_In. }
    destruct (readState_after_write fs written eq_refl)
      as (st & fs2 & Hread & _ & Hkeys & Happ).
    exists st, fs2. split; [exact Hread|].
    split; [now rewrite Hkeys|].
    intros Hfile Helse.
    destruct (Happ cardId Hfile) as (kp & ap & H1 & H2 & H3 & H4 & H5).
    { intros c Hc. rewrite (Hat c Hc).
      destruct (String.eqb_spec fromColumnId (column_id c)) as [E|E].
      - intros H. apply removed_In in H as [_ H]. now apply H.
      - apply Helse; [assumption | congruence]. }
    exists kp, ap. repeat split; try assumption.
    intros Hothers. apply H4. intros y Hy Hne.
    destruct (Hothers y Hy Hne) as [c [Hc Hin]].
    exists c. split; [assumption|]. rewrite (Hat c Hc).
    destruct (String.eqb_spec fromColumnId (column_id c)) as [E|E];
      [|assumption].
    apply removed_In. rewrite E. now split.
  - intros data columnId orderedIds fs Hcol Hids _ _ Hunknown.
    intros written. set (index := current_index fs) in *.
    set (ids := discovered_ids fs).
    assert (Hne : columns written <> [])
      by apply current_index_columns_nonempty.
    assert (Hat : forall c, In c (columns index) ->
              list_at (order written) (column_id c)
              = list_at (order index) (column_id c)).
    { intros c Hc. unfold written, index_after_reorder. cbn [order].
      rewrite list_at_set.
      rewrite (proj2 (String_eqb_false_iff columnId (column_id c)));
        [reflexivity|].
      intros E. apply Hunknown. rewrite E. now apply in_map. }
    assert (Hnat : forall c, In c (columns index) ->
              list_at (order (normalized_written written)) (column_id c)
              = list_at (order index) (column_id c)).
    { intros c Hc. rewrite normalized_written_at.
      replace (includes (map column_id (columns written)) (column_id c))
        with true by (symmetry; apply includes_In, in_map, Hc).
      apply (Hat c Hc). }
    assert (Hrec : reconciled_order (normalized_written written) ids
                   = reconciled_order index ids).
    { apply reconciled_order_ext; [exact Hne | reflexivity|].
      intros k Hk. apply in_map_iff in Hk. destruct Hk as (c & <- & Hc).
      apply (Hnat c Hc). }
    split; [apply reorderCards_eq; assumption|].
    split; [apply Object_keys_set; now left|].
    split.
    { unfold written, index_after_reorder. cbn [order].
      now rewrite list_at_set, String.eqb_refl. }
    split; [exact Hat|].
    pose proof (readState_written fs written Hne) as Hread.
    cbv zeta in Hread. fold ids in Hread. rewrite Hrec in Hread.
    eexists. eexists. eexists.
    split; [exact Hread|].
    cbn [state_order].
    split.
    { rewrite reconciled_order_keys by exact Hne. exact Hunknown. }
    split.
    { rewrite readState_eq. fold index. fold ids. f_equal. f_equal.
      f_equal. apply collect_cards_dirs; [apply after_readState_cards|].
      reflexivity. }
    intros Hdrift. unfold after_readState.
    rewrite (current_index_written fs written Hne).
    rewrite (discovered_ids_dirs (with_index fs (JSON_stringify written)) fs)
      by reflexivity.
    fold ids.
    rewrite (drift_ext (normalized_written written) index ids eq_refl Hnat).
    fold ids in Hdrift. rewrite Hdrift.
    unfold after_readIndex, loaded_index. cbn [index_file with_index].
    rewrite JSON_roundtrip, normalizeIndex_written by exact Hne.
    reflexivity.
Qed.
End UnknownColumn.

Lemma unknown_column_orphan_key_witness :
  let fs := example_fs true (Some (Some (one_column_json ["c1"])))
              [("c1.md", example_note "Hello")] in
  let data := [("cardId", JStr "c1"); ("fromColumnId", JStr "todo");
               ("toColumnId", JStr "nowhere");
               ("toIndex", JNum (number_of_Z 0))] in
  let moved :=
    index_after_move (current_index fs) "c1" "todo" "nowhere"
      (number_of_Z 0) in
  let data0 := [("columnId", JStr "nowhere");
                ("orderedIds", JArr [JStr "c1"])] in
  let reordered := index_after_reorder (current_index fs) "nowhere" ["c1"] in
  (order moved = [("todo", []); ("nowhere", ["c1"])]
   /\ moveCard data fs = (Ok tt, with_index fs (JSON_stringify moved))
   /\ exists st fs2,
        readState (with_index fs (JSON_stringify moved)) = (Ok st, fs2)
        /\ ~ In "nowhere" (Object_keys (state_order st))
        /\ exists kept_part,
             list_at (state_order st) "todo" = kept_part ++ ["c1"])
  /\ (order reordered = [("todo", ["c1"]); ("nowhere", ["c1"])]
      /\ reorderCards data0 fs
         = (Ok tt, with_index fs (JSON_stringify reordered))
      /\ exists st fs2 fs3,
           readState (with_index fs (JSON_stringify reordered)) = (Ok st, fs2)
           /\ ~ In "nowhere" (Object_keys (state_order st))
           /\ readState fs = (Ok st, fs3)
           /\ index_file fs2 = Some (JSON_stringify reordered)).
Proof.
  intros fs data moved data0 reordered.
  destruct (@unknown_column_orphan_key example_json example_json_roundtrip)
    as [Hmove Hreorder].
  assert (Hp : no_proto_column (columns (current_index fs))).
  { intros [H|[]]. discriminate H. }
  assert (Hn : ~ In "nowhere" (map column_id (columns (current_index fs)))).
  { intros [H|[]]. discriminate H. }
  split.
  - destruct (Hmove data "c1" "todo" "nowhere" (number_of_Z 0) fs
                eq_refl eq_refl eq_refl eq_refl Hp eq_refl eq_refl Hn)
      as (H1 & _ & _ & st & fs2 & H2 & H3 & H4).
    split; [reflexivity|]. split; [exact H1|].
    exists st, fs2. split; [exact H2|]. split; [exact H3|].
    destruct H4 as (kp & ap & E & _ & _ & Hone & _).
    + simpl. now left.
    + intros c [<-|[]] Hc. now contradiction Hc.
    + exists kp. rewrite <- Hone; [exact E|].
      intros y [<-|[]] Hy. now contradiction Hy.
  - destruct (Hreorder data0 "nowhere" ["c1"] fs eq_refl eq_refl Hp)
      as (H1 & _ & _ & _ & st & fs2 & fs3 & H2 & H3 & H4 & H5);
      [discriminate | exact Hn |].
    split; [reflexivity|]. split; [exact H1|].
    exists st, fs2, fs3. split; [exact H2|]. split; [exact H3|].
    split; [exact H4|]. apply H5. reflexivity.
Defined.

(** [reorderCards] with the id of no column does not make the next
    [readState] append the ids it was given: they are still in the lists
    of their columns and stay where they were, here [c1] in front of
    [c2], and the key that no column has stays in the index file. *)
Lemma reorderCards_moves_no_card :
  let fs := example_fs true (Some (Some (one_column_json ["c1"; "c2"])))
              [("c1.md", example_note "One"); ("c2.md", example_note "Two")] in
  let data := [("columnId", JStr "nowhere");
               ("orderedIds", JArr [JStr "c1"])] in
  exists fs1 st fs2,
    reorderCards data fs = (Ok tt, fs1)
    /\ ~ In "nowhere" (map column_id (columns (current_index fs)))
    /\ index_file fs1
       = Some (Some (json_of_index
                       {| columns := columns (current_index fs);
                          order := [("todo", ["c1"; "c2"]);
                                    ("nowhere", ["c1"])] |}))
    /\ @readState example_json fs1 = (Ok st, fs2)
    /\ state_order st = [("todo", ["c1"; "c2"])]
    /\ list_at (state_order st) "todo" <> ["c2"; "c1"]
    /\ index_file fs2 = index_file fs1.
Proof.
  intros fs data. eexists. eexists. eexists.
  split; [reflexivity|].
  split; [intros [H|[]]; discriminate H|].
  split; [reflexivity|].
  split; [vm_compute; reflexivity|].
  split; [reflexivity|].
  split; [discriminate | reflexivity].
Qed.

(** * A property of handleMessage *)

Section HandleMessage.
Context {J : Json} {RT : JsonRoundtrip J}.



End HandleMessage.

(** ** Instances of the further properties *)


(** A closed list has no repetition. *)
Ltac distinct := repeat (constructor; [cbn; intuition discriminate|]); constructor.

(** The columns of a closed index do not have the id [__proto__]. *)
Ltac no_proto :=
  match goal with
  | |- no_proto_column _ =>
      let H := fresh in intros H; vm_compute in H; intuition discriminate
  end.

(** The ids of a closed list are plain file names. *)
Ltac plain_names :=
  match goal with
  | |- forall x, In x _ -> plain_name x = true =>
      let x := fresh in
      let H := fresh in
      intros x H; vm_compute in H;
      repeat (destruct H as [H|H]; [rewrite <- H; reflexivity|]);
      destruct H
  end.


Lemma deleteCard_then_readState_witness :
  let fs := example_fs true (Some (Some (one_column_json ["c1"; "c2"])))
              [("c1.md", example_note "One"); ("c2.md", example_note "Two")] in
  exists st0 fs0 fs1 st fs2,
    readState fs = (Ok st0, fs0)
    /\ deleteCard [("cardId", JStr "c1")] fs = (Ok tt, fs1)
    /\ readState fs1 = (Ok st, fs2)
    /\ list_at (state_order st) "todo"
       = filter (fun id => negb (id =? "c1")) (list_at (state_order st0) "todo")
    /\ obj_get (cards st) "c1" = None.
Proof.
  intros fs.
  destruct (@deleteCard_then_readState example_json example_json_roundtrip
              [("cardId", JStr "c1")] "c1" fs)
    as (st0 & fs0 & fs1 & st & fs2 & H1 & H2 & H3 & _ & H5 & H6 & _);
    [reflexivity | reflexivity | no_proto | distinct |].
  exists st0, fs0, fs1, st, fs2.
  split; [exact H1|]. split; [exact H2|]. split; [exact H3|].
  split; [apply H5 | exact H6].
Defined.

Lemma deleteColumn_removes_column_and_cards_witness :
  let fs := example_fs true (Some (Some (two_column_json ["x"] ["y"])))
              [("x.md", example_note "X"); ("y.md", example_note "Y")] in
  exists fs1 st fs2,
    deleteColumn [("columnId", JStr "a")] fs = (Ok tt, fs1)
    /\ obj_get (cards_dir fs1) "y.md" = Some (example_note "Y")
    /\ readState fs1 = (Ok st, fs2)
    /\ state_columns st <> []
    /\ obj_get (cards st) "x" = None.
Proof.
  intros fs.
  destruct (@deleteColumn_removes_column_and_cards example_json
              example_json_roundtrip [("columnId", JStr "a")] "a" fs)
    as (before & column & after & fs1 & st & fs2 & _ & _ & _ & H4 & _ & _
        & H7 & H8 & _ & H10 & H11 & _);
    [reflexivity | cbn; auto | cbn; lia | distinct | no_proto | plain_names |].
  exists fs1, st, fs2.
  split; [exact H4|]. split.
  { rewrite H7; [reflexivity|]. intros x [<-|[]]. discriminate. }
  split; [exact H8|]. split; [exact H10|].
  apply (H11 "x"). left. reflexivity.
Defined.

Lemma moveCard_keeps_other_cards_witness :
  let fs := example_fs true (Some (Some (two_column_json ["x"; "y"] ["z"])))
              [] in
  let input := [("cardId", JStr "x"); ("fromColumnId", JStr "a");
                ("toColumnId", JStr "b"); ("toIndex", JNum (number_of_Z 5))] in
  exists written,
    moveCard input fs = (Ok tt, with_index fs (JSON_stringify written))
    /\ filter (fun id => negb (id =? "x")) (list_at (order written) "a")
       = ["y"]
    /\ filter (fun id => negb (id =? "x")) (list_at (order written) "b")
       = ["z"]
    /\ count_occ string_dec (list_at (order written) "b") "x" = 1.
Proof.
  intros fs input.
  destruct (@moveCard_keeps_other_cards example_json input "x" "a" "b"
              (number_of_Z 5) fs)
    as (written & H1 & _ & H3 & H4 & _); try reflexivity; try no_proto.
  exists written. split; [exact H1|].
  split; [exact (proj2 (H3 "a" eq_refl))|].
  split; [exact (proj2 (H3 "b" eq_refl)) | exact H4].
Defined.

Lemma reorderCards_then_readState_witness :
  let fs := example_fs true (Some (Some (two_column_json ["x"] ["y"; "z"])))
              [("x.md", example_note "X"); ("y.md", example_note "Y");
               ("z.md", example_note "Z")] in
  let input := [("columnId", JStr "b");
                ("orderedIds", JArr [JStr "z"; JStr "gone"; JStr "y"])] in
  exists fs1 st fs2,
    reorderCards input fs = (Ok tt, fs1)
    /\ readState fs1 = (Ok st, fs2)
    /\ list_at (state_order st) "b" = ["z"; "y"].
Proof.
  intros fs input.
  destruct (@reorderCards_then_readState example_json example_json_roundtrip
              input "b" ["z"; "gone"; "y"] fs)
    as (fs1 & st & fs2 & H1 & _ & _ & H4 & _ & H6 & _);
    [reflexivity | reflexivity | cbn; auto | no_proto |].
  exists fs1, st, fs2. split; [exact H1|]. split; [exact H4|].
  pose proof (H6 {| column_id := "b"; column_title := "B" |}) as Hb.
  cbn [column_id] in Hb. rewrite Hb by (cbn; auto).
  reflexivity.
Defined.




Lemma loadCard_plain_file_witness :
  let text := ("  " ++ String LF "Buy milk" ++ String LF "today")%string in
  let f := {| data := text; ctime := Some "2024-01-01T00:00:00.000Z";
              mtime := Some "2024-01-02T00:00:00.000Z" |} in
  let fs := example_fs true None [("c1.md", FileNode f)] in
  loadCard "c1" fs
  = (Ok (Some {| card_id := "c1"; card_title := "Buy milk"; detail := text;
                 due := None; createdAt := "2024-01-01T00:00:00.000Z";
                 updatedAt := "2024-01-02T00:00:00.000Z" |}),
     fs).
Proof.
  intros text f fs.
  exact (@loadCard_plain_file example_json fs "c1" f
           "2024-01-01T00:00:00.000Z" "2024-01-02T00:00:00.000Z"
           eq_refl eq_refl eq_refl eq_refl).
Defined.




(** ** The tests of the repository, on the embedding *)

(** core.test.ts: "uses default columns when none provided" *)
Example test_normalizeIndex_default :
  normalizeIndex (JObj [])
  = Some {| columns := DEFAULT_COLUMNS;
            order := [("todo", []); ("doing", []); ("done", [])] |}.
Proof. reflexivity. Qed.

(** core.test.ts: "filters invalid columns and order entries" *)
Example test_normalizeIndex_filters :
  normalizeIndex
    (JObj [("columns",
            JArr [JObj [("id", JStr "a"); ("title", JStr "A")];
                  JObj [("id", JNum (number_of_nat 1)); ("title", JStr "B")]]);
           ("order",
            JObj [("a", JArr [JStr "x"; JNum (number_of_nat 2); JStr "y"])])])
  = Some {| columns := [ {| column_id := "a"; column_title := "A" |} ];
            order := [("a", ["x"; "y"])] |}.
Proof. reflexivity. Qed.

(** core.test.ts: "parses front matter and body" *)
Example test_parseFrontMatter :
  parseFrontMatter
    (join (String LF "") ["---"; "title: Sample"; "due: null"; "---"; "Body"])
  = {| meta := [("title", Some "Sample"); ("due", None)]; body := "Body" |}.
Proof. reflexivity. Qed.

(** core.test.ts: "serializes front matter with known keys first" *)
Example test_serializeFrontMatter :
  split_lines
    (serializeFrontMatter
       [("title", Some "Hello"); ("id", Some "1"); ("extra", Some "note");
        ("due", None)]
       "Details")
  = ["---"; "id: 1"; "title: Hello"; "due: null"; "extra: note"; "---";
     "Details"].
Proof. reflexivity. Qed.

(** core.test.ts: "slugifies titles" *)
Example test_slugify :
  slugify "  Hello World  " = "hello-world" /\ slugify "###" = "column".
Proof. split; reflexivity. Qed.

(** core.test.ts: "picks the first non-empty line" *)
Example test_firstNonEmptyLine :
  firstNonEmptyLine
    (join (String LF "") [""; ""; "  "; "First"; "Second"])
  = Some "First".
Proof. reflexivity. Qed.

(** storage.test.ts: "creates, reads, updates, and deletes cards", on an
    empty file system, with a fixed id and fixed times. *)
Example test_storage_cycle :
  let t0 := "2024-01-01T00:00:00.000Z" in
  let t1 := "2024-01-02T00:00:00.000Z" in
  let fs0 := example_fs false None [] in
  let fs1 := snd (createCard "c1" t0 (Some t0)
                    [("title", JStr "First"); ("detail", JStr "Hello")] fs0) in
  let fs2 := snd (readState fs1) in
  let fs3 := snd (updateCard t1 (Some t1)
                    [("cardId", JStr "c1"); ("title", JStr "Updated");
                     ("detail", JStr "Next")] fs2) in
  let fs4 := snd (readState fs3) in
  let fs5 := snd (deleteCard [("cardId", JStr "c1")] fs4) in
  fst (readState fs1)
  = Ok {| state_columns := DEFAULT_COLUMNS;
          state_order := [("todo", ["c1"]); ("doing", []); ("done", [])];
          cards := [("c1", {| card_id := "c1"; card_title := "First";
                              detail := "Hello"; due := None;
                              createdAt := t0; updatedAt := t0 |})] |}
  /\ fst (readState fs3)
     = Ok {| state_columns := DEFAULT_COLUMNS;
             state_order := [("todo", ["c1"]); ("doing", []); ("done", [])];
             cards := [("c1", {| card_id := "c1"; card_title := "Updated";
                                 detail := "Next"; due := None;
                                 createdAt := t0; updatedAt := t1 |})] |}
  /\ fst (readState fs5)
     = Ok {| state_columns := DEFAULT_COLUMNS;
             state_order := [("todo", []); ("doing", []); ("done", [])];
             cards := [] |}.
Proof. repeat split; vm_compute; reflexivity. Qed.
